(** * progress-tracker-api: a bookmark HTTP API over SQLite

    A shallow embedding of the three revisions of [src/index.js] found in the
    repository, together with the migration that creates the tables:

    - [PtApi]     : the revision in [src/unnamed/part_000] (raw
                    [SELECT * FROM bookmark ORDER BY id DESC] listing, an
                    upsert that answers [{created}]);
    - [CachedApi] : the first revision in [src/src/index.js] (a process-wide
                    cache of bookmarks with tags, refreshed by
                    [updateBookmarks]);
    - [SearchApi] : the second revision in [src/src/index.js] (prepared
                    statements, trimmed search, an upsert without an answer).

    Strings are [string]s, one [ascii] per character (code points below 256).
    Integers (ids, timestamps) are [Z].  The SQLite engine is a record of
    tables; every statement the program issues is recorded in a trace and may
    throw, according to a fault oracle owned by the environment.  A [Request]
    is a request after the framework has routed it and checked its shape
    against the route declarations ([t.Object], [t.Numeric],
    [t.BooleanString]); [lifecycle] puts that check in front of the guard and
    the handler, for requests that may not fit. *)

From Stdlib Require Import List String Ascii ZArith NArith Bool Lia.
From Stdlib Require Import Permutation Sorted.
Import ListNotations.
Open Scope Z_scope.

Set Implicit Arguments.

(* ================================================================== *)
(** * Storage schema (migration in [src/unnamed/part_000], lines 1-27) *)
(* ================================================================== *)

(** CREATE TABLE `bookmark` *)
Record Bookmark := {
  id : Z;
  name : string;
  href : string;
  finished : bool;
  createdAt : Z;
  updatedAt : Z
}.

(** CREATE TABLE `tag` *)
Record Tag := {
  tag_id : Z;
  tag_name : string;
  variant : string;
  tag_createdAt : Z;
  tag_updatedAt : Z
}.

(** CREATE TABLE `bookmark_tag`; the two key columns are declared without
    NOT NULL. *)
Record BookmarkTag := {
  bookmarkId : option Z;
  tagId : option Z;
  bt_createdAt : Z
}.

(** The database file: the three tables in rowid order, and the
    [sqlite_sequence] entry that AUTOINCREMENT keeps for `bookmark`. *)
Record DB := {
  bookmark : list Bookmark;
  tag : list Tag;
  bookmarkTag : list BookmarkTag;
  bookmark_seq : Z
}.

Definition emptyDB : DB :=
  {| bookmark := []; tag := []; bookmarkTag := []; bookmark_seq := 0 |}.

(** The body of POST and PUT: [t.Object({ name: t.String(), href: t.String() })]. *)
Record NewBookmark := {
  body_name : string;
  body_href : string
}.

(** [SelectBookmarkWithOptionalTags]: a selected row, on which [getBookmarks]
    may have set the property [tags]. *)
Record SelectBookmarkWithOptionalTags := {
  row : Bookmark;
  tags : option (list Tag)
}.

Definition withoutTags (b : Bookmark) : SelectBookmarkWithOptionalTags :=
  {| row := b; tags := None |}.

(** Modelled from the spec: the drizzle table declaration [./db/schema] is
    not part of the sources.  The migration gives `created_at` and
    `updated_at` no SQL default, so the values come from the declaration.  The
    spec says: "createdAt (integer timestamp, set at creation)" and "creates a
    row with finished=false, createdAt=updatedAt=now".  [now] is the clock
    reading when the statement runs. *)
Definition schema_createdAt_default (now : Z) : Z := now.

(** Modelled from the spec: same missing declaration, "updatedAt (integer
    timestamp, set at creation and on every update)". *)
Definition schema_updatedAt_default (now : Z) : Z := now.

(** Modelled from the spec: same missing declaration, the value an UPDATE
    gives to `updated_at` ("bumps updatedAt"). *)
Definition schema_updatedAt_onUpdate (now : Z) : Z := now.

(* ================================================================== *)
(** * The SQL the program relies on                                    *)
(* ================================================================== *)

(** ** LIKE *)

Definition percent : ascii := "%"%char.
Definition underscore : ascii := "_"%char.

(** SQLite folds the case of ASCII letters only. *)
Definition sqlite3Tolower (c : ascii) : N :=
  let n := N_of_ascii c in
  if ((65 <=? n) && (n <=? 90))%N then (n + 32)%N else n.

Definition like_char_eq (c c2 : ascii) : bool :=
  Ascii.eqb c c2
  || ((sqlite3Tolower c =? sqlite3Tolower c2)%N
      && (N_of_ascii c <? 128)%N && (N_of_ascii c2 <? 128)%N).

(** [patternCompare pattern value]: `%` matches any run of characters, `_`
    exactly one, any other character itself up to ASCII case.  There is no
    ESCAPE clause in the program's queries. *)
Fixpoint patternCompare (pattern : list ascii) : list ascii -> bool :=
  match pattern with
  | [] => fun s => match s with [] => true | _ :: _ => false end
  | c :: p' =>
      if Ascii.eqb c percent then
        fix star (s : list ascii) : bool :=
          patternCompare p' s
          || match s with [] => false | _ :: s' => star s' end
      else if Ascii.eqb c underscore then
        fun s => match s with [] => false | _ :: s' => patternCompare p' s' end
      else
        fun s =>
          match s with
          | [] => false
          | d :: s' => like_char_eq c d && patternCompare p' s'
          end
  end.

(** drizzle's [like(column, pattern)]: `column LIKE pattern`. *)
Definition like (column pattern : string) : bool :=
  patternCompare (list_ascii_of_string pattern) (list_ascii_of_string column).

(** ** JavaScript strings *)

(** White space and line terminators removed by [String.prototype.trim]
    (those below 256: TAB, LF, VT, FF, CR, SP, NBSP). *)
Definition isWhiteSpace (c : ascii) : bool :=
  let n := N_of_ascii c in
  ((9 <=? n) && (n <=? 13) || (n =? 32) || (n =? 160))%N.

Fixpoint trimStart (s : list ascii) : list ascii :=
  match s with
  | [] => []
  | c :: s' => if isWhiteSpace c then trimStart s' else s
  end.

Definition trimEnd (s : list ascii) : list ascii := rev (trimStart (rev s)).

Definition trim (s : string) : string :=
  string_of_list_ascii (trimEnd (trimStart (list_ascii_of_string s))).

(** [needle] occurs in [hay] as a contiguous run of characters. *)
Definition isSubstringOf (needle hay : string) : Prop :=
  exists before after, hay = (before ++ needle ++ after)%string.

(** ** Tables *)

(** AUTOINCREMENT: one more than the largest rowid the table has ever held. *)
Definition max_id (rows : list Bookmark) : Z :=
  fold_right (fun r m => Z.max (id r) m) 0 rows.

Definition next_id (db : DB) : Z := Z.max (bookmark_seq db) (max_id (bookmark db)) + 1.

Definition set_bookmark (db : DB) (rows : list Bookmark) : DB :=
  {| bookmark := rows; tag := tag db; bookmarkTag := bookmarkTag db;
     bookmark_seq := bookmark_seq db |}.

(** INSERT INTO bookmark (name, href, ...) : `id` from AUTOINCREMENT,
    `finished` from its DEFAULT false, the timestamps from the schema. *)
Definition new_row (now : Z) (db : DB) (body : NewBookmark) : Bookmark :=
  {| id := next_id db;
     name := body_name body;
     href := body_href body;
     finished := false;
     createdAt := schema_createdAt_default now;
     updatedAt := schema_updatedAt_default now |}.

Definition sql_insert (now : Z) (body : NewBookmark) (db : DB) : DB :=
  {| bookmark := bookmark db ++ [new_row now db body];
     tag := tag db; bookmarkTag := bookmarkTag db;
     bookmark_seq := next_id db |}.

(** UPDATE bookmark SET name = ?, href = ? [, updated_at = ?] *)
Definition set_body (now : Z) (body : NewBookmark) (r : Bookmark) : Bookmark :=
  {| id := id r;
     name := body_name body;
     href := body_href body;
     finished := finished r;
     createdAt := createdAt r;
     updatedAt := schema_updatedAt_onUpdate now |}.

(** UPDATE bookmark SET finished = ? [, updated_at = ?] *)
Definition set_finished (now : Z) (b : bool) (r : Bookmark) : Bookmark :=
  {| id := id r;
     name := name r;
     href := href r;
     finished := b;
     createdAt := createdAt r;
     updatedAt := schema_updatedAt_onUpdate now |}.

(** UPDATE ... WHERE cond: every row that satisfies [cond] is rewritten. *)
Definition sql_update (cond : Bookmark -> bool) (f : Bookmark -> Bookmark)
  (db : DB) : DB :=
  set_bookmark db (map (fun r => if cond r then f r else r) (bookmark db)).

(** DELETE FROM bookmark WHERE cond; the other tables are not touched
    (ON DELETE no action). *)
Definition sql_delete (cond : Bookmark -> bool) (db : DB) : DB :=
  set_bookmark db (filter (fun r => negb (cond r)) (bookmark db)).

(** [eq(bookmark.id, x)] and [eq(bookmark.name, x)] *)
Definition eq_id (x : Z) (r : Bookmark) : bool := id r =? x.
Definition eq_name (x : string) (r : Bookmark) : bool := String.eqb (name r) x.

(** ORDER BY id DESC, as a stable insertion sort. *)
Fixpoint insert_desc (r : Bookmark) (l : list Bookmark) : list Bookmark :=
  match l with
  | [] => [r]
  | x :: l' => if id x <? id r then r :: l else x :: insert_desc r l'
  end.

Definition orderByIdDesc (l : list Bookmark) : list Bookmark :=
  fold_right insert_desc [] l.

(** SELECT tag.* FROM tag INNER JOIN bookmark_tag ON tag.id = bookmark_tag.tag_id
    WHERE bookmark_tag.bookmark_id = $id *)
Definition opt_eqb (o : option Z) (x : Z) : bool :=
  match o with Some y => y =? x | None => false end.

Definition sql_bookmark_tags (db : DB) (bid : Z) : list Tag :=
  flat_map
    (fun t =>
       map (fun _ => t)
         (filter (fun bt => opt_eqb (tagId bt) (tag_id t) && opt_eqb (bookmarkId bt) bid)
            (bookmarkTag db)))
    (tag db).

(* ================================================================== *)
(** * Effects: state and exceptions                                    *)
(* ================================================================== *)

(** A JavaScript computation over a state [S]: it returns or throws, and
    leaves a state behind either way. *)
Inductive Result (A : Type) : Type :=
| Ok (a : A)
| Throw (e : string).

Arguments Ok {A} a.
Arguments Throw {A} e.

Definition M (S A : Type) : Type := S -> Result A * S.

Definition ret {S A : Type} (a : A) : M S A := fun s => (Ok a, s).

Definition bind {S A B : Type} (c : M S A) (k : A -> M S B) : M S B :=
  fun s =>
    match c s with
    | (Ok a, s') => k a s'
    | (Throw e, s') => (Throw e, s')
    end.

Notation "x <- c ;; k" := (bind c (fun x => k))
  (at level 61, c at next level, right associativity).
Notation "c ;; k" := (bind c (fun _ => k))
  (at level 61, right associativity).

(** [Array.prototype.map] with an effectful callback: left to right, the
    first exception ends it. *)
Fixpoint mapM {S A B : Type} (f : A -> M S B) (l : list A) : M S (list B) :=
  match l with
  | [] => ret []
  | x :: l' => y <- f x ;; ys <- mapM f l' ;; ret (y :: ys)
  end.

(* ================================================================== *)
(** * The storage engine behind [drizzleDB] and [db]                   *)
(* ================================================================== *)

(** The statements the three revisions issue. *)
Inductive Stmt : Type :=
| SelectBookmarks
| SelectBookmarksOrderByIdDesc
| SelectBookmarksWhereNameLike (pattern : string)
| SelectBookmarkWhereNameEq (n : string)
| SelectBookmarkTags (bid : Z)
| InsertBookmark (values : NewBookmark)
| UpdateBookmarkWhereId (values : NewBookmark) (i : Z)
| UpdateBookmarkWhereName (values : NewBookmark) (n : string)
| UpdateFinishedWhereId (b : bool) (i : Z)
| DeleteBookmarkWhereId (i : Z)
| Begin
| Commit.

(** The engine: its tables, the statements run so far, and the environment's
    fault oracle: [fault k s] is the error the engine raises when [s] is the
    k-th statement it is given (locked or closed file, full disk), if any. *)
Record Storage := {
  tables : DB;
  trace : list Stmt;
  fault : nat -> Stmt -> option string
}.

Definition Q (A : Type) : Type := M Storage A.

(** Running one statement: it is recorded; it throws and changes nothing, or
    it yields its rows and the new tables. *)
Definition execute {A : Type} (s : Stmt) (sem : DB -> A * DB) : Q A :=
  fun st =>
    match fault st (List.length (trace st)) s with
    | Some e =>
        (Throw e,
         {| tables := tables st; trace := trace st ++ [s]; fault := fault st |})
    | None =>
        let (a, db') := sem (tables st) in
        (Ok a, {| tables := db'; trace := trace st ++ [s]; fault := fault st |})
    end.

Definition reading {A : Type} (f : DB -> A) (db : DB) : A * DB := (f db, db).
Definition writing (f : DB -> DB) (db : DB) : unit * DB := (tt, f db).

(** An engine that executes every statement. *)
Definition healthy (st : Storage) : Prop := forall k s, fault st k s = None.

Definition no_fault : nat -> Stmt -> option string := fun _ _ => None.

Definition open (db : DB) : Storage :=
  {| tables := db; trace := []; fault := no_fault |}.

(** ** Query layer *)

(** [drizzleDB.select().from(bookmark).all()] *)
Definition select_bookmarks : Q (list Bookmark) :=
  execute SelectBookmarks (reading bookmark).

(** [db.query('SELECT * FROM bookmark ORDER BY id DESC').all()] *)
Definition select_bookmarks_desc : Q (list Bookmark) :=
  execute SelectBookmarksOrderByIdDesc
    (reading (fun db => orderByIdDesc (bookmark db))).

(** [drizzleDB.select().from(bookmark).where(like(bookmark.name, pattern)).all()] *)
Definition select_bookmarks_like (pattern : string) : Q (list Bookmark) :=
  execute (SelectBookmarksWhereNameLike pattern)
    (reading (fun db => filter (fun r => like (name r) pattern) (bookmark db))).

(** [trx.select().from(bookmark).where(eq(bookmark.name, n)).get()]: the
    first matching row, or undefined. *)
Definition select_bookmark_by_name (n : string) : Q (option Bookmark) :=
  execute (SelectBookmarkWhereNameEq n)
    (reading (fun db => find (eq_name n) (bookmark db))).

(** [getBookmarkTags.all({ $id })] *)
Definition getBookmarkTags (bid : Z) : Q (list Tag) :=
  execute (SelectBookmarkTags bid) (reading (fun db => sql_bookmark_tags db bid)).

(** [drizzleDB.insert(bookmark).values(body).execute()] *)
Definition insert_bookmark (now : Z) (values : NewBookmark) : Q unit :=
  execute (InsertBookmark values) (writing (sql_insert now values)).

(** [drizzleDB.update(bookmark).set(body).where(eq(bookmark.id, i)).execute()] *)
Definition update_bookmark_by_id (now : Z) (values : NewBookmark) (i : Z) : Q unit :=
  execute (UpdateBookmarkWhereId values i)
    (writing (sql_update (eq_id i) (set_body now values))).

(** [trx.update(bookmark).set(body).where(eq(bookmark.name, n)).execute()] *)
Definition update_bookmark_by_name (now : Z) (values : NewBookmark) (n : string) : Q unit :=
  execute (UpdateBookmarkWhereName values n)
    (writing (sql_update (eq_name n) (set_body now values))).

(** [drizzleDB.update(bookmark).set({ finished }).where(eq(bookmark.id, i)).execute()] *)
Definition update_finished_by_id (now : Z) (b : bool) (i : Z) : Q unit :=
  execute (UpdateFinishedWhereId b i)
    (writing (sql_update (eq_id i) (set_finished now b))).

(** [drizzleDB.delete(bookmark).where(eq(bookmark.id, i)).execute()] *)
Definition delete_bookmark_by_id (i : Z) : Q unit :=
  execute (DeleteBookmarkWhereId i) (writing (sql_delete (eq_id i))).

(** BEGIN and COMMIT change no table. *)
Definition control (s : Stmt) : Q unit := execute s (fun db => (tt, db)).

(** [drizzleDB.transaction(async (trx) => ...)]: BEGIN, the callback, COMMIT,
    on the one connection.  The callback is asynchronous and the driver is
    not: its statements have run when it hands back its promise, and the
    transaction is committed then, whether the promise is fulfilled or
    rejected.  A statement that throws has changed nothing. *)
Definition transaction {A : Type} (callback : Q A) : Q A :=
  control Begin ;;
  fun st =>
    let (r, st') := callback st in
    match control Commit st' with
    | (Ok _, st'') => (r, st'')
    | (Throw e, st'') => (Throw e, st'')
    end.

(* ================================================================== *)
(** * HTTP                                                             *)
(* ================================================================== *)

Inductive Body : Type :=
| Empty                                         (* the handler returned undefined *)
| Text (s : string)
| Created (created : bool)                      (* { created } *)
| Rows (l : list SelectBookmarkWithOptionalTags).

Record Response := {
  status : Z;
  headers : list (string * string);
  body : Body
}.

(** What the framework sends for a handler's outcome: its value with status
    200, or the error with status 500. *)
Definition respond (r : Result Body) : Response :=
  match r with
  | Ok b => {| status := 200; headers := []; body := b |}
  | Throw e => {| status := 500; headers := []; body := Text e |}
  end.

(** [env.BEARER_TOKEN], possibly undefined. *)
Record Env := { BEARER_TOKEN : option string }.

Definition double_quote : string := String (ascii_of_nat 34) EmptyString.

Definition challenge : string :=
  ("Bearer realm='sign', error=" ++ double_quote ++ "invalid_request" ++ double_quote)%string.

(** The answer built by the guard: [set.status = 400], the header, and the
    returned text. *)
Definition unauthorized : Response :=
  {| status := 400;
     headers := [("WWW-Authenticate"%string, challenge)];
     body := Text "Unauthorized" |}.

(** [a !== b] on values that are undefined or strings. *)
Definition strict_neq (a b : option string) : bool :=
  match a, b with
  | None, None => false
  | Some x, Some y => negb (String.eqb x y)
  | _, _ => true
  end.

(** [!bearer]: undefined and the empty string are falsy. *)
Definition falsy (a : option string) : bool :=
  match a with
  | None => true
  | Some s => String.eqb s ""
  end.

Definition is_undefined (a : option string) : bool :=
  match a with None => true | Some _ => false end.

(** The routes under the prefix [/bookmarks] in [PtApi] and [SearchApi]. *)
Inductive BookmarksRoute : Type :=
| GET_ (q : option string)                      (* GET /bookmarks?q= *)
| POST_ (values : NewBookmark)                  (* POST /bookmarks *)
| PUT_ (values : NewBookmark)                   (* PUT /bookmarks *)
| PUT_id (i : Z) (values : NewBookmark)         (* PUT /bookmarks/:id *)
| PUT_id_check (i : Z) (b : bool)               (* PUT /bookmarks/:id/check/:finished *)
| DELETE_id (i : Z).                            (* DELETE /bookmarks/:id *)

Inductive Route (R : Type) : Type :=
| Root                                          (* GET / *)
| Bookmarks (r : R).

Arguments Root {R}.
Arguments Bookmarks {R} r.

(** A routed request: the credential extracted by the bearer plugin, and the
    clock reading while it is handled. *)
Record Request (R : Type) := {
  bearer : option string;
  route : Route R;
  clock : Z
}.

(* ================================================================== *)
(** * [src/unnamed/part_000], lines 27-194                             *)
(* ================================================================== *)

Module PtApi.

(** [const getBookmarks = db.query('SELECT * FROM bookmark ORDER BY id DESC')] *)
Definition getBookmarks : Q (list Bookmark) := select_bookmarks_desc.

(** [.get('/', () => getBookmarks.all())] *)
Definition get_ : Q Body :=
  rows <- getBookmarks ;; ret (Rows (map withoutTags rows)).

(** [.post('/', async ({ body }) => { await insert })] *)
Definition post_ (now : Z) (values : NewBookmark) : Q Body :=
  insert_bookmark now values ;; ret Empty.

(** [.put('/', ...)]: look up by name, insert or update, answer [{ created }]. *)
Definition put_ (now : Z) (values : NewBookmark) : Q Body :=
  tx <- transaction
          (bm <- select_bookmark_by_name (body_name values) ;;
           match bm with
           | None => insert_bookmark now values ;; ret true
           | Some _ =>
               update_bookmark_by_name now values (body_name values) ;; ret false
           end) ;;
  ret (Created tx).

(** [.put('/:id', ...)] *)
Definition put_id (now : Z) (i : Z) (values : NewBookmark) : Q Body :=
  update_bookmark_by_id now values i ;; ret Empty.

(** [.put('/:id/check/:finished', ...)] *)
Definition put_id_check (now : Z) (i : Z) (b : bool) : Q Body :=
  update_finished_by_id now b i ;; ret Empty.

(** [.delete('/:id', ...)] *)
Definition delete_id (i : Z) : Q Body :=
  delete_bookmark_by_id i ;; ret Empty.

Definition bookmarks (now : Z) (r : BookmarksRoute) : Q Body :=
  match r with
  | GET_ _ => get_
  | POST_ values => post_ now values
  | PUT_ values => put_ now values
  | PUT_id i values => put_id now i values
  | PUT_id_check i b => put_id_check now i b
  | DELETE_id i => delete_id i
  end.

(** [beforeHandle({ set, bearer })]:
    [if (bearer === undefined || bearer !== env.BEARER_TOKEN)] *)
Definition beforeHandle (env : Env) (b : option string) : option Response :=
  if is_undefined b || strict_neq b (BEARER_TOKEN env)
  then Some unauthorized
  else None.

(** The application: the root route, and the bookmark routes behind the
    guard.  A value returned by [beforeHandle] is the answer and the route's
    handler is not called. *)
Definition app (env : Env) (req : Request BookmarksRoute) (st : Storage)
  : Response * Storage :=
  match route req with
  | Root => (respond (Ok (Text "Hello, PT API!")), st)
  | Bookmarks r =>
      match beforeHandle env (bearer req) with
      | Some answer => (answer, st)
      | None => let (res, st') := bookmarks (clock req) r st in (respond res, st')
      end
  end.

End PtApi.

(* ================================================================== *)
(** * [src/src/index.js], second revision (lines 206-369)              *)
(* ================================================================== *)

Module SearchApi.

(** [const getBookmarks = drizzleDB.select().from(bookmark).prepare()] *)
Definition getBookmarks : Q (list Bookmark) := select_bookmarks.

(** [const getBookmarksSearchName = ... where(like(bookmark.name, sql.placeholder('search')))] *)
Definition getBookmarksSearchName (search : string) : Q (list Bookmark) :=
  select_bookmarks_like search.

(** [.get('/', ({ query }) => ...)] *)
Definition get_ (q : option string) : Q Body :=
  match q with
  | None => rows <- getBookmarks ;; ret (Rows (map withoutTags rows))
  | Some s =>
      if String.eqb s "" then
        rows <- getBookmarks ;; ret (Rows (map withoutTags rows))
      else
        let search := trim s in
        if (String.length search =? 0)%nat then ret (Rows [])
        else
          rows <- getBookmarksSearchName ("%" ++ search ++ "%") ;;
          ret (Rows (map withoutTags rows))
  end.

Definition post_ (now : Z) (values : NewBookmark) : Q Body :=
  insert_bookmark now values ;; ret Empty.

(** [.put('/', ...)]: the callback returns nothing and so does the handler. *)
Definition put_ (now : Z) (values : NewBookmark) : Q Body :=
  transaction
    (bm <- select_bookmark_by_name (body_name values) ;;
     match bm with
     | None => insert_bookmark now values ;; ret tt
     | Some _ => update_bookmark_by_name now values (body_name values)
     end) ;;
  ret Empty.

Definition put_id (now : Z) (i : Z) (values : NewBookmark) : Q Body :=
  update_bookmark_by_id now values i ;; ret Empty.

Definition put_id_check (now : Z) (i : Z) (b : bool) : Q Body :=
  update_finished_by_id now b i ;; ret Empty.

Definition delete_id (i : Z) : Q Body :=
  delete_bookmark_by_id i ;; ret Empty.

Definition bookmarks (now : Z) (r : BookmarksRoute) : Q Body :=
  match r with
  | GET_ q => get_ q
  | POST_ values => post_ now values
  | PUT_ values => put_ now values
  | PUT_id i values => put_id now i values
  | PUT_id_check i b => put_id_check now i b
  | DELETE_id i => delete_id i
  end.

(** [if (!bearer || bearer !== env.BEARER_TOKEN)] *)
Definition beforeHandle (env : Env) (b : option string) : option Response :=
  if falsy b || strict_neq b (BEARER_TOKEN env)
  then Some unauthorized
  else None.

Definition app (env : Env) (req : Request BookmarksRoute) (st : Storage)
  : Response * Storage :=
  match route req with
  | Root => (respond (Ok (Text "Hello, Elysia!")), st)
  | Bookmarks r =>
      match beforeHandle env (bearer req) with
      | Some answer => (answer, st)
      | None => let (res, st') := bookmarks (clock req) r st in (respond res, st')
      end
  end.

End SearchApi.

(* ================================================================== *)
(** * [src/src/index.js], first revision (lines 1-205)                 *)
(* ================================================================== *)

Module CachedApi.

(** This revision has no [PUT /bookmarks]. *)
Inductive BookmarksRoute : Type :=
| GET_ (q : option string)
| POST_ (values : NewBookmark)
| PUT_id (i : Z) (values : NewBookmark)
| PUT_id_check (i : Z) (b : bool)
| DELETE_id (i : Z).

(** The one object [{ items }] registered with [.state('bookmarks', ...)];
    the parameter [stateBookmarks] is this object or undefined. *)
Inductive Ref : Type := store_bookmarks.

(** A callback queued by [setImmediate]: always [getBookmarks], with its
    argument. *)
Inductive Immediate : Type := Call_getBookmarks (stateBookmarks : option Ref).

(** The process: the engine, the cache [store.bookmarks.items], the module
    variable [isUpdatingBookmarks], the queue of immediates of the event loop,
    and what was written with [console.error]. *)
Record World := {
  storage : Storage;
  items : list SelectBookmarkWithOptionalTags;
  isUpdatingBookmarks : bool;
  immediates : list Immediate;
  console : list string
}.

Definition W (A : Type) : Type := M World A.

Definition with_storage (st : Storage) (w : World) : World :=
  {| storage := st; items := items w;
     isUpdatingBookmarks := isUpdatingBookmarks w;
     immediates := immediates w; console := console w |}.

Definition with_items (l : list SelectBookmarkWithOptionalTags) (w : World) : World :=
  {| storage := storage w; items := l;
     isUpdatingBookmarks := isUpdatingBookmarks w;
     immediates := immediates w; console := console w |}.

Definition with_isUpdatingBookmarks (b : bool) (w : World) : World :=
  {| storage := storage w; items := items w;
     isUpdatingBookmarks := b;
     immediates := immediates w; console := console w |}.

Definition with_immediates (l : list Immediate) (w : World) : World :=
  {| storage := storage w; items := items w;
     isUpdatingBookmarks := isUpdatingBookmarks w;
     immediates := l; console := console w |}.

Definition with_console (l : list string) (w : World) : World :=
  {| storage := storage w; items := items w;
     isUpdatingBookmarks := isUpdatingBookmarks w;
     immediates := immediates w; console := l |}.

(** A query, run by the process. *)
Definition liftQ {A : Type} (c : Q A) : W A :=
  fun w => let (r, st) := c (storage w) in (r, with_storage st w).

(** [stateBookmarks.items = l] *)
Definition assign_items (r : Ref) (l : list SelectBookmarkWithOptionalTags) : W unit :=
  fun w => (Ok tt, with_items l w).

Definition console_error (e : string) : W unit :=
  fun w => (Ok tt, with_console (console w ++ [e]) w).

(** [try { c } catch (error) { handler error }] *)
Definition try_catch {A : Type} (c : W A) (handler : string -> W A) : W A :=
  fun w =>
    match c w with
    | (Ok a, w') => (Ok a, w')
    | (Throw e, w') => handler e w'
    end.

(** The callback of [bookmarks.map]: [bookmark.tags = getBookmarkTags.all(...)]. *)
Definition addTags (b : Bookmark) : Q SelectBookmarkWithOptionalTags :=
  ts <- getBookmarkTags (id b) ;; ret {| row := b; tags := Some ts |}.

(** [const bookmarks = ...all(); const bookmarksWithTags = bookmarks.map(...)] *)
Definition bookmarksWithTags : Q (list SelectBookmarkWithOptionalTags) :=
  bookmarks <- select_bookmarks ;; mapM addTags bookmarks.

(** [function getBookmarks(stateBookmarks = undefined)]; the performance marks
    are left out. *)
Definition getBookmarks (stateBookmarks : option Ref)
  : W (list SelectBookmarkWithOptionalTags) :=
  try_catch
    (l <- liftQ bookmarksWithTags ;;
     match stateBookmarks with
     | Some r => assign_items r l
     | None => ret tt
     end ;;
     ret l)
    (fun error => console_error error ;; ret []).

(** [setImmediate(getBookmarks, stateBookmarks)] *)
Definition setImmediate (i : Immediate) : W unit :=
  fun w => (Ok tt, with_immediates (immediates w ++ [i]) w).

Definition set_isUpdatingBookmarks (b : bool) : W unit :=
  fun w => (Ok tt, with_isUpdatingBookmarks b w).

(** [function updateBookmarks(stateBookmarks)] *)
Definition updateBookmarks (stateBookmarks : option Ref) : W unit :=
  fun w =>
    match stateBookmarks with
    | None => (Ok tt, w)
    | Some r =>
        if isUpdatingBookmarks w then (Ok tt, w)
        else
          (set_isUpdatingBookmarks true ;;
           try_catch (setImmediate (Call_getBookmarks (Some r)))
             (fun e => console_error e) ;;
           set_isUpdatingBookmarks false) w
    end.

(** [.get('/', ({ query, store }) => ...)] *)
Definition get_ (q : option string) : W Body :=
  match q with
  | None => fun w => (Ok (Rows (items w)), w)
  | Some s =>
      if String.eqb s "" then fun w => (Ok (Rows (items w)), w)
      else
        let search := s in
        rows <- liftQ (select_bookmarks_like ("%" ++ search ++ "%")) ;;
        ret (Rows (map withoutTags rows))
  end.

Definition post_ (now : Z) (values : NewBookmark) : W Body :=
  liftQ (insert_bookmark now values) ;;
  updateBookmarks (Some store_bookmarks) ;;
  ret Empty.

Definition put_id (now : Z) (i : Z) (values : NewBookmark) : W Body :=
  liftQ (update_bookmark_by_id now values i) ;;
  updateBookmarks (Some store_bookmarks) ;;
  ret Empty.

Definition put_id_check (now : Z) (i : Z) (b : bool) : W Body :=
  liftQ (update_finished_by_id now b i) ;;
  updateBookmarks (Some store_bookmarks) ;;
  ret Empty.

Definition delete_id (i : Z) : W Body :=
  liftQ (delete_bookmark_by_id i) ;;
  updateBookmarks (Some store_bookmarks) ;;
  ret Empty.

Definition bookmarks (now : Z) (r : BookmarksRoute) : W Body :=
  match r with
  | GET_ q => get_ q
  | POST_ values => post_ now values
  | PUT_id i values => put_id now i values
  | PUT_id_check i b => put_id_check now i b
  | DELETE_id i => delete_id i
  end.

(** [if (!bearer || bearer !== env.BEARER_TOKEN)] *)
Definition beforeHandle (env : Env) (b : option string) : option Response :=
  if falsy b || strict_neq b (BEARER_TOKEN env)
  then Some unauthorized
  else None.

Definition app (env : Env) (req : Request BookmarksRoute) (w : World)
  : Response * World :=
  match route req with
  | Root => (respond (Ok (Text "Hello, Elysia!")), w)
  | Bookmarks r =>
      match beforeHandle env (bearer req) with
      | Some answer => (answer, w)
      | None => let (res, w') := bookmarks (clock req) r w in (respond res, w')
      end
  end.

(** Process start: [.state('bookmarks', { items: getBookmarks() })]. *)
Definition start (st : Storage) : World :=
  let w0 := {| storage := st; items := []; isUpdatingBookmarks := false;
               immediates := []; console := [] |} in
  match getBookmarks None w0 with
  | (Ok l, w1) => with_items l w1
  | (Throw _, w1) => w1
  end.

(** One turn of the event loop's immediate queue. *)
Definition runImmediate (w : World) : World :=
  match immediates w with
  | [] => w
  | Call_getBookmarks arg :: rest =>
      snd (getBookmarks arg (with_immediates rest w))
  end.

(** The process moves by answering a request or by running an immediate. *)
Inductive step (env : Env) : World -> World -> Prop :=
| step_request (req : Request BookmarksRoute) (w : World) :
    step env w (snd (app env req w))
| step_immediate (w : World) :
    step env w (runImmediate w).

Inductive reachable (env : Env) (st : Storage) : World -> Prop :=
| reachable_start : reachable env st (start st)
| reachable_step (w w' : World) :
    reachable env st w -> step env w w' -> reachable env st w'.

End CachedApi.

(* ================================================================== *)
(** * Vocabulary of the statements below                               *)
(* ================================================================== *)

(** What the toggle does to the tables: row by row, in place. *)
Definition toggle_effect (now i : Z) (b : bool) (db db' : DB) : Prop :=
  tag db' = tag db
  /\ bookmarkTag db' = bookmarkTag db
  /\ bookmark_seq db' = bookmark_seq db
  /\ List.length (bookmark db') = List.length (bookmark db)
  /\ forall (k : nat) (r : Bookmark),
       nth_error (bookmark db) k = Some r ->
       exists r',
         nth_error (bookmark db') k = Some r'
         /\ (id r = i ->
             finished r' = b /\ updatedAt r' = now
             /\ id r' = id r /\ name r' = name r /\ href r' = href r
             /\ createdAt r' = createdAt r)
         /\ (id r <> i -> r' = r).

(** [x] is in [l] at exactly one position. *)
Definition exactly_once (A : Type) (x : A) (l : list A) : Prop :=
  exists pre post, l = pre ++ x :: post /\ ~ In x pre /\ ~ In x post.

(** The rows of the bookmark table that carry a given name. *)
Definition rows_named (n : string) (db : DB) : list Bookmark :=
  filter (eq_name n) (bookmark db).

(** What an insert does to the tables: one row [r] is appended, with the
    values of the body, the flag cleared, both timestamps at the clock reading
    and an id above every id in the table. *)
Definition insert_effect (now : Z) (values : NewBookmark) (db db' : DB)
  (r : Bookmark) : Prop :=
  bookmark db' = bookmark db ++ [r]
  /\ tag db' = tag db
  /\ bookmarkTag db' = bookmarkTag db
  /\ name r = body_name values
  /\ href r = body_href values
  /\ finished r = false
  /\ createdAt r = now
  /\ updatedAt r = now
  /\ createdAt r = updatedAt r
  /\ forall x, In x (bookmark db) -> id x < id r.

(** What the update branch of the upsert does to the tables: every row that
    carries the name of the body is rewritten in place. *)
Definition update_by_name_effect (now : Z) (values : NewBookmark) (db db' : DB)
  : Prop :=
  tag db' = tag db
  /\ bookmarkTag db' = bookmarkTag db
  /\ bookmark_seq db' = bookmark_seq db
  /\ List.length (bookmark db') = List.length (bookmark db)
  /\ forall (k : nat) (r : Bookmark),
       nth_error (bookmark db) k = Some r ->
       exists r',
         nth_error (bookmark db') k = Some r'
         /\ (name r = body_name values ->
             name r' = body_name values /\ href r' = body_href values
             /\ updatedAt r' = now
             /\ id r' = id r /\ finished r' = finished r
             /\ createdAt r' = createdAt r)
         /\ (name r <> body_name values -> r' = r).

(** The tables after the upsert transaction has committed. *)
Definition sql_upsert_by_name (now : Z) (values : NewBookmark) (db : DB) : DB :=
  match find (eq_name (body_name values)) (bookmark db) with
  | None => sql_insert now values db
  | Some _ => sql_update (eq_name (body_name values)) (set_body now values) db
  end.

(** A run of POST /bookmarks requests, each with its clock reading. *)
Definition post_all (posts : list (Z * NewBookmark)) (st : Storage) : Storage :=
  fold_left (fun st p => snd (PtApi.bookmarks (fst p) (POST_ (snd p)) st)) posts st.

(** A cache entry as [getBookmarks] builds it: the row with its tags. *)
Definition enrich (db : DB) (b : Bookmark) : SelectBookmarkWithOptionalTags :=
  {| row := b; tags := Some (sql_bookmark_tags db (id b)) |}.

Definition has_tags (x : SelectBookmarkWithOptionalTags) : Prop :=
  exists ts, tags x = Some ts.

(** A computation keeps a property of the process, whether it returns or
    throws. *)
Definition preserves (P : CachedApi.World -> Prop) (A : Type) (c : CachedApi.W A)
  : Prop :=
  forall w, P w -> P (snd (c w)).

(** The event loop runs the first [n] immediates of the queue. *)
Fixpoint runImmediates (n : nat) (w : CachedApi.World) : CachedApi.World :=
  match n with
  | O => w
  | S n' => runImmediates n' (CachedApi.runImmediate w)
  end.

(** ** Sample data *)

Definition sample_env : Env := {| BEARER_TOKEN := Some "s3cret"%string |}.

Definition sample_body (h : string) : NewBookmark :=
  {| body_name := "rocq"; body_href := h |}.

(** The engine after [POST /bookmarks] of [sample_body "h0"] at clock 5 on an
    empty database. *)
Definition one_bookmark : Storage :=
  snd (PtApi.bookmarks 5 (POST_ (sample_body "h0")) (open emptyDB)).

(** The engine after a second [POST /bookmarks] with the same name, at
    clock 6. *)
Definition two_same_name : Storage :=
  post_all [(5, sample_body "h0"); (6, sample_body "h0")] (open emptyDB).

(** An engine holding one bookmark whose name has a space in it. *)
Definition spaced : Storage :=
  post_all [(5, {| body_name := "to do"; body_href := "h" |})] (open emptyDB).

(** The cached process, started on an empty database, and an authorised
    POST request handled at a given clock reading. *)
Definition idle : CachedApi.World := CachedApi.start (open emptyDB).

Definition sample_post (now : Z) : Request CachedApi.BookmarksRoute :=
  {| bearer := Some "s3cret"%string;
     route := Bookmarks (CachedApi.POST_ (sample_body "h0"));
     clock := now |}.

(** An engine that executes two statements and throws from then on, and the
    cached process started on it: its cache holds the one bookmark. *)
Definition flaky : Storage :=
  {| tables := tables one_bookmark; trace := [];
     fault := fun k _ => if (k <? 2)%nat then None else Some "SQLITE_BUSY"%string |}.

Definition warm : CachedApi.World := CachedApi.start flaky.

(* ================================================================== *)
(** * Instrumentation: [observerCallback] (all three revisions)        *)
(* ================================================================== *)

(** [String.prototype.padStart(targetLength, padString)], for a pad of one
    character: nothing is added to a string that is long enough. *)
Definition padStart (targetLength : nat) (pad : ascii) (s : string) : string :=
  (string_of_list_ascii (repeat pad (targetLength - String.length s)) ++ s)%string.

Section Observer.

(** The type of [entry.duration] (a floating-point number of milliseconds)
    and [Number.prototype.toFixed(3)] on it. *)
Variable Duration : Type.
Variable toFixed3 : Duration -> string.

(** The escape sequences of the module [./colors], which is not part of the
    sources. *)
Variables fgGreen fgYellow reset : string.

Record PerformanceEntry := {
  entryType : string;
  entry_name : string;
  duration : Duration
}.

(** The text given to [console.info] for one entry. *)
Definition info_line (entry : PerformanceEntry) : string :=
  (fgGreen ++ entry_name entry ++ reset ++ " "
   ++ fgYellow ++ padStart 7 "0" (toFixed3 (duration entry)) ++ reset ++ "ms")%string.

(** [for (let i = entriesArr.length; i--; ) { ... }]: the test sees [i], the
    body sees [i - 1]. *)
Fixpoint observer_loop (entriesArr : list PerformanceEntry) (i : nat)
  (info : list string) : list string :=
  match i with
  | O => info
  | S i' =>
      observer_loop entriesArr i'
        (match nth_error entriesArr i' with
         | Some entry =>
             if String.eqb (entryType entry) "measure"
             then info ++ [info_line entry]
             else info
         | None => info
         end)
  end.

(** [function observerCallback(entries)], on the lines written so far with
    [console.info]. *)
Definition observerCallback (entries : list PerformanceEntry) (info : list string)
  : list string :=
  observer_loop entries (List.length entries) info.

End Observer.

(* ================================================================== *)
(** * Further vocabulary                                               *)
(* ================================================================== *)

(** The ways one request may change the tables: not at all, or by one
    INSERT, UPDATE or DELETE on `bookmark`. *)
Inductive write_step (now : Z) (db : DB) : DB -> Prop :=
| ws_none : write_step now db db
| ws_insert (values : NewBookmark) :
    write_step now db (sql_insert now values db)
| ws_update_by_id (values : NewBookmark) (i : Z) :
    write_step now db (sql_update (eq_id i) (set_body now values) db)
| ws_update_by_name (values : NewBookmark) (n : string) :
    write_step now db (sql_update (eq_name n) (set_body now values) db)
| ws_finished (b : bool) (i : Z) :
    write_step now db (sql_update (eq_id i) (set_finished now b) db)
| ws_delete (i : Z) :
    write_step now db (sql_delete (eq_id i) db).

(** What AUTOINCREMENT and the primary key maintain: ids are positive, pairwise
    different, and none exceeds the recorded sequence value. *)
Definition ids_ok (db : DB) : Prop :=
  NoDup (map id (bookmark db))
  /\ forall r, In r (bookmark db) -> 0 < id r <= bookmark_seq db.

(** What the full update does to the tables: row by row, in place. *)
Definition update_by_id_effect (now i : Z) (values : NewBookmark) (db db' : DB)
  : Prop :=
  tag db' = tag db
  /\ bookmarkTag db' = bookmarkTag db
  /\ bookmark_seq db' = bookmark_seq db
  /\ List.length (bookmark db') = List.length (bookmark db)
  /\ forall (k : nat) (r : Bookmark),
       nth_error (bookmark db) k = Some r ->
       exists r',
         nth_error (bookmark db') k = Some r'
         /\ (id r = i ->
             name r' = body_name values /\ href r' = body_href values
             /\ updatedAt r' = now
             /\ id r' = id r /\ finished r' = finished r
             /\ createdAt r' = createdAt r)
         /\ (id r <> i -> r' = r).

(** The routes of the cached revision that write. *)
Definition is_write (r : CachedApi.BookmarksRoute) : bool :=
  match r with
  | CachedApi.GET_ _ => false
  | _ => true
  end.

(** A search text without the wildcards of LIKE. *)
Definition no_wildcard (q : string) : Prop :=
  Forall (fun c => c <> percent /\ c <> underscore) (list_ascii_of_string q).

(** Character by character, the two texts are equal for SQLite's LIKE (equal,
    or ASCII letters that differ in case only). *)
Definition same_for_like (a b : string) : Prop :=
  Forall2 (fun c d => like_char_eq c d = true)
    (list_ascii_of_string a) (list_ascii_of_string b).

(** [hay] has a run of characters that LIKE takes for [needle]. *)
Definition contains_for_like (needle hay : string) : Prop :=
  exists before m after,
    hay = (before ++ m ++ after)%string /\ same_for_like needle m.

(** The table holds its rows by ascending id (the order of insertion). *)
Definition ascending (db : DB) : Prop :=
  StronglySorted (fun a b => id a < id b) (bookmark db).

(** An authorised request of each kind. *)
Definition authorised (R : Type) (token : string) (r : R) (now : Z) : Request R :=
  {| bearer := Some token; route := Bookmarks r; clock := now |}.

(* ================================================================== *)
(** * The framework's life cycle for a registered route                *)
(* ================================================================== *)

(** The error the framework raises when the params, query or body of a
    request do not fit the schema its route declares ([t.Object], [t.Numeric],
    [t.BooleanString]); status and message are the framework's. *)
Record ValidationError := {
  validation_status : Z;
  validation_message : string
}.

(** The answer sent for it: no header is set by the program on this path. *)
Definition validation_answer (err : ValidationError) : Response :=
  {| status := validation_status err;
     headers := [];
     body := Text (validation_message err) |}.

(** A request to a route under [/bookmarks], as the schema check leaves it:
    the typed route, or the error. *)
Inductive Shape (R : Type) : Type :=
| Fits (r : R)
| Misfit (err : ValidationError).

Arguments Fits {R} r.
Arguments Misfit {R} err.

Record Incoming (R : Type) := {
  credential : option string;
  shape : Shape R;
  arrival : Z
}.

(** The order of the life cycle: the schema check comes first; [beforeHandle]
    and the handler are reached only by a request that fits. *)
Definition lifecycle {R S : Type}
  (app : Env -> Request R -> S -> Response * S)
  (env : Env) (rq : Incoming R) (s : S) : Response * S :=
  match shape rq with
  | Misfit err => (validation_answer err, s)
  | Fits r =>
      app env {| bearer := credential rq; route := Bookmarks r; clock := arrival rq |} s
  end.

(* ================================================================== *)
(** * Vocabulary and sample data of the revised statements             *)
(* ================================================================== *)

(** An entry of a listing carries the values of a create request: its name
    and href, the flag cleared, and equal timestamps. *)
Definition has_values (values : NewBookmark) (x : SelectBookmarkWithOptionalTags)
  : bool :=
  String.eqb (name (row x)) (body_name values)
  && String.eqb (href (row x)) (body_href values)
  && negb (finished (row x))
  && (createdAt (row x) =? updatedAt (row x)).

(** An entry of a listing has a given name and href. *)
Definition has_name_and_href (values : NewBookmark)
  (x : SelectBookmarkWithOptionalTags) : bool :=
  String.eqb (name (row x)) (body_name values)
  && String.eqb (href (row x)) (body_href values).

(** The key pairs of the association rows whose two keys are not NULL: the
    pairs that PRIMARY KEY(`bookmark_id`, `tag_id`) keeps distinct. *)
Definition association_keys (rows : list BookmarkTag) : list (Z * Z) :=
  flat_map
    (fun bt =>
       match bookmarkId bt, tagId bt with
       | Some b, Some t => [(b, t)]
       | _, _ => []
       end)
    rows.

Definition tag_rocq : Tag :=
  {| tag_id := 1; tag_name := "prover"; variant := "default";
     tag_createdAt := 3; tag_updatedAt := 3 |}.

Definition tag_idle : Tag :=
  {| tag_id := 2; tag_name := "later"; variant := "default";
     tag_createdAt := 4; tag_updatedAt := 4 |}.

(** One bookmark, two tags, and three association rows: bookmark 1 with tag
    1, a row without bookmark for tag 2, and a row without tag for
    bookmark 1. *)
Definition tagged : Storage :=
  open {| bookmark := bookmark (tables one_bookmark);
          tag := [tag_rocq; tag_idle];
          bookmarkTag :=
            [{| bookmarkId := Some 1; tagId := Some 1; bt_createdAt := 6 |};
             {| bookmarkId := None; tagId := Some 2; bt_createdAt := 6 |};
             {| bookmarkId := Some 1; tagId := None; bt_createdAt := 6 |}];
          bookmark_seq := 1 |}.

(* ================================================================== *)
(** * Properties                                                       *)
(* ================================================================== *)

(** ** The engine *)

Lemma execute_healthy (A : Type) (s : Stmt) (sem : DB -> A * DB) (st : Storage) :
  healthy st ->
  execute s sem st =
  (Ok (fst (sem (tables st))),
   {| tables := snd (sem (tables st)); trace := trace st ++ [s]; fault := fault st |}).
Proof.
  intros H. unfold execute. rewrite H. destruct (sem (tables st)); reflexivity.
Qed.

Lemma healthy_fault (st : Storage) (db : DB) (tr : list Stmt) :
  healthy st -> healthy {| tables := db; trace := tr; fault := fault st |}.
Proof. intros H k s. apply H. Qed.

Lemma healthy_open (db : DB) : healthy (open db).
Proof. intros k s. reflexivity. Qed.

Lemma execute_fault_fixed (A : Type) (s : Stmt) (sem : DB -> A * DB) (st : Storage) :
  fault (snd (execute s sem st)) = fault st.
Proof.
  unfold execute. destruct (fault st _ s); [reflexivity|].
  destruct (sem (tables st)); reflexivity.
Qed.

Lemma set_bookmark_same (db : DB) : set_bookmark db (bookmark db) = db.
Proof. destruct db; reflexivity. Qed.

Create HintDb storage.
#[local] Hint Resolve healthy_fault healthy_open : storage.

(** Unfolds a handler down to [execute] and runs its statements on a healthy
    engine. *)
Ltac run_healthy H :=
  repeat (unfold bind, ret, transaction, control, reading, writing; cbn [fst snd]);
  repeat (rewrite execute_healthy by (auto with storage);
          unfold bind, ret, reading, writing; cbn [fst snd]).

(** ** Credentials *)

Lemma strict_neq_true (a b : option string) : a <> b -> strict_neq a b = true.
Proof.
  destruct a as [x|], b as [y|]; simpl; intros H; try reflexivity.
  - destruct (String.eqb_spec x y) as [->|]; [now elim H | reflexivity].
  - now elim H.
Qed.

Lemma rejected_PtApi (env : Env) (b : option string) :
  b = None \/ b <> BEARER_TOKEN env -> PtApi.beforeHandle env b = Some unauthorized.
Proof.
  unfold PtApi.beforeHandle. intros [->|H]; [reflexivity|].
  rewrite (strict_neq_true H), orb_true_r. reflexivity.
Qed.

Lemma rejected_falsy (env : Env) (b : option string) :
  b = None \/ b <> BEARER_TOKEN env ->
  (if falsy b || strict_neq b (BEARER_TOKEN env) then Some unauthorized else None)
  = Some unauthorized.
Proof.
  intros [->|H]; [reflexivity|].
  rewrite (strict_neq_true H), orb_true_r. reflexivity.
Qed.

(** The guard, on a request that fits its route's schema: in each revision
    an absent or wrong credential is answered with status 400, the
    [WWW-Authenticate] challenge and the text "Unauthorized", and the process
    state is returned as it was. *)
Theorem unauthenticated_rejected (env : Env) (b : option string) (now : Z) :
  b = None \/ b <> BEARER_TOKEN env ->
  status unauthorized = 400
  /\ headers unauthorized = [("WWW-Authenticate"%string, challenge)]
  /\ body unauthorized = Text "Unauthorized"
  /\ (forall (r : BookmarksRoute) (st : Storage),
        PtApi.app env {| bearer := b; route := Bookmarks r; clock := now |} st
        = (unauthorized, st))
  /\ (forall (r : BookmarksRoute) (st : Storage),
        SearchApi.app env {| bearer := b; route := Bookmarks r; clock := now |} st
        = (unauthorized, st))
  /\ (forall (r : CachedApi.BookmarksRoute) (w : CachedApi.World),
        CachedApi.app env {| bearer := b; route := Bookmarks r; clock := now |} w
        = (unauthorized, w)).
Proof.
  intros H. repeat split.
  - intros r st. unfold PtApi.app. cbn [route bearer].
    rewrite (rejected_PtApi env H). reflexivity.
  - intros r st. unfold SearchApi.app, SearchApi.beforeHandle. cbn [route bearer].
    rewrite (rejected_falsy env H). reflexivity.
  - intros r w. unfold CachedApi.app, CachedApi.beforeHandle. cbn [route bearer].
    rewrite (rejected_falsy env H). reflexivity.
Qed.

Lemma unauthenticated_rejected_witness :
  (Some "guess"%string = None \/ Some "guess"%string <> BEARER_TOKEN sample_env)
  /\ PtApi.app sample_env
       {| bearer := Some "guess"%string;
          route := Bookmarks (DELETE_id 1); clock := 0 |}
       (open emptyDB)
     = (unauthorized, open emptyDB).
Proof.
  assert (H : Some "guess"%string = None
              \/ Some "guess"%string <> BEARER_TOKEN sample_env)
    by (right; discriminate).
  split; [exact H|].
  apply (unauthenticated_rejected sample_env 0 H).
Defined.

Lemma validation_answer_is_not_unauthorized (err : ValidationError) :
  validation_answer err <> unauthorized.
Proof. intros E. apply (f_equal headers) in E. discriminate E. Qed.




(** ** Deleting *)

Lemma filter_all (A : Type) (p : A -> bool) (l : list A) :
  (forall x, In x l -> p x = true) -> filter p l = l.
Proof.
  induction l as [|a l IH]; intros H; simpl; [reflexivity|].
  rewrite (H a (or_introl eq_refl)). f_equal. apply IH.
  intros x Hx. apply H. now right.
Qed.

Lemma sql_delete_absent (i : Z) (db : DB) :
  ~ In i (map id (bookmark db)) -> sql_delete (eq_id i) db = db.
Proof.
  intros H. unfold sql_delete. rewrite filter_all; [apply set_bookmark_same|].
  intros x Hx. unfold eq_id. apply negb_true_iff, Z.eqb_neq.
  intros E. apply H. rewrite <- E. now apply in_map.
Qed.

(** C8. For an id that no bookmark row has, DELETE /bookmarks/:id on an
    engine that executes its statements returns normally with an empty body in
    each revision and leaves the three tables (and the AUTOINCREMENT counter)
    exactly as they were; in the cached revision the cache is not written by
    the handler either. *)
Theorem delete_absent_id_is_noop (i : Z) (now : Z) :
  (forall st : Storage,
     healthy st -> ~ In i (map id (bookmark (tables st))) ->
     exists st',
       PtApi.bookmarks now (DELETE_id i) st = (Ok Empty, st')
       /\ tables st' = tables st)
  /\ (forall st : Storage,
        healthy st -> ~ In i (map id (bookmark (tables st))) ->
        exists st',
          SearchApi.bookmarks now (DELETE_id i) st = (Ok Empty, st')
          /\ tables st' = tables st)
  /\ (forall w : CachedApi.World,
        healthy (CachedApi.storage w) ->
        ~ In i (map id (bookmark (tables (CachedApi.storage w)))) ->
        exists w',
          CachedApi.bookmarks now (CachedApi.DELETE_id i) w = (Ok Empty, w')
          /\ tables (CachedApi.storage w') = tables (CachedApi.storage w)
          /\ CachedApi.items w' = CachedApi.items w).
Proof.
  repeat split.
  - intros st H Hi. eexists. split.
    + cbn [PtApi.bookmarks]. unfold PtApi.delete_id, delete_bookmark_by_id.
      run_healthy H. reflexivity.
    + cbn [tables]. now apply sql_delete_absent.
  - intros st H Hi. eexists. split.
    + cbn [SearchApi.bookmarks]. unfold SearchApi.delete_id, delete_bookmark_by_id.
      run_healthy H. reflexivity.
    + cbn [tables]. now apply sql_delete_absent.
  - intros w H Hi.
    cbn [CachedApi.bookmarks].
    unfold CachedApi.delete_id, CachedApi.liftQ, delete_bookmark_by_id.
    unfold bind at 1. rewrite execute_healthy by assumption.
    unfold writing; cbn [fst snd].
    unfold bind, ret, CachedApi.updateBookmarks.
    cbn [CachedApi.isUpdatingBookmarks CachedApi.with_storage].
    destruct (CachedApi.isUpdatingBookmarks w); cbn.
    + eexists; split; [reflexivity|]. cbn. split; [now apply sql_delete_absent|reflexivity].
    + eexists; split; [reflexivity|]. cbn. split; [now apply sql_delete_absent|reflexivity].
Qed.

Lemma delete_absent_id_is_noop_witness :
  healthy two_same_name
  /\ ~ In 7 (map id (bookmark (tables two_same_name)))
  /\ List.length (bookmark (tables two_same_name)) = 2%nat
  /\ exists st',
       PtApi.bookmarks 9 (DELETE_id 7) two_same_name = (Ok Empty, st')
       /\ tables st' = tables two_same_name.
Proof.
  assert (H : healthy two_same_name) by (intros k s; reflexivity).
  assert (Hi : ~ In 7 (map id (bookmark (tables two_same_name))))
    by (intros [E|[E|[]]]; discriminate E).
  split; [exact H|]. split; [exact Hi|]. split; [reflexivity|].
  exact (proj1 (delete_absent_id_is_noop 7 9) two_same_name H Hi).
Defined.

(** ** Writing through the cached revision *)

(** A handler of the cached revision that runs one statement and then calls
    [updateBookmarks]: it answers with an empty body, the engine is where the
    statement left it, and the cache and the console are not written. *)
Lemma cached_write (c : Q unit) (w : CachedApi.World) (st' : Storage) :
  c (CachedApi.storage w) = (Ok tt, st') ->
  exists w',
    (CachedApi.liftQ c ;;
     CachedApi.updateBookmarks (Some CachedApi.store_bookmarks) ;;
     ret Empty) w = (Ok Empty, w')
    /\ CachedApi.storage w' = st'
    /\ CachedApi.items w' = CachedApi.items w
    /\ CachedApi.console w' = CachedApi.console w
    /\ CachedApi.isUpdatingBookmarks w' = CachedApi.isUpdatingBookmarks w
    /\ (CachedApi.isUpdatingBookmarks w = false ->
        CachedApi.immediates w' =
        CachedApi.immediates w
        ++ [CachedApi.Call_getBookmarks (Some CachedApi.store_bookmarks)]).
Proof.
  intros Hc. unfold bind at 1. unfold CachedApi.liftQ. rewrite Hc.
  unfold bind, ret, CachedApi.updateBookmarks.
  cbn [CachedApi.isUpdatingBookmarks CachedApi.with_storage].
  destruct (CachedApi.isUpdatingBookmarks w) eqn:E; cbn.
  - eexists; split; [reflexivity|]. cbn. repeat split; auto. discriminate.
  - eexists; split; [reflexivity|]. cbn. repeat split; auto.
Qed.

(** ** Toggling *)

Lemma nth_error_map_some (A B : Type) (f : A -> B) (l : list A) (k : nat) (x : A) :
  nth_error l k = Some x -> nth_error (map f l) k = Some (f x).
Proof.
  revert k. induction l as [|a l IH]; intros [|k] H; simpl in *; try discriminate.
  - now inversion H.
  - now apply IH.
Qed.

Lemma sql_update_toggle (now i : Z) (b : bool) (db : DB) :
  toggle_effect now i b db (sql_update (eq_id i) (set_finished now b) db).
Proof.
  unfold toggle_effect, sql_update, set_bookmark. cbn.
  repeat split.
  - apply length_map.
  - intros k r Hk. eexists. split.
    + apply nth_error_map_some with (1 := Hk).
    + unfold eq_id. split.
      * intros E. apply Z.eqb_eq in E. rewrite E. cbn. repeat split.
      * intros N. apply Z.eqb_neq in N. rewrite N. reflexivity.
Qed.

(** The toggle, row by row.  For every id [i] and boolean [b], the toggle, on an
    engine that executes its statements, answers with an empty body and
    rewrites the bookmark table in place: a row whose id is [i] gets
    [finished = b] and [updatedAt] equal to the clock reading of the update,
    and keeps its id, name, href and createdAt; every other row, the other
    tables and the AUTOINCREMENT counter are unchanged.  This holds in each
    revision; the cached one leaves the cache as it was. *)
Theorem toggle_effect_on_tables (now i : Z) (b : bool) :
  (forall st : Storage,
     healthy st ->
     exists st',
       PtApi.bookmarks now (PUT_id_check i b) st = (Ok Empty, st')
       /\ toggle_effect now i b (tables st) (tables st'))
  /\ (forall st : Storage,
        healthy st ->
        exists st',
          SearchApi.bookmarks now (PUT_id_check i b) st = (Ok Empty, st')
          /\ toggle_effect now i b (tables st) (tables st'))
  /\ (forall w : CachedApi.World,
        healthy (CachedApi.storage w) ->
        exists w',
          CachedApi.bookmarks now (CachedApi.PUT_id_check i b) w = (Ok Empty, w')
          /\ toggle_effect now i b
               (tables (CachedApi.storage w)) (tables (CachedApi.storage w'))
          /\ CachedApi.items w' = CachedApi.items w).
Proof.
  repeat split.
  - intros st H. eexists. split.
    + cbn [PtApi.bookmarks]. unfold PtApi.put_id_check, update_finished_by_id.
      run_healthy H. reflexivity.
    + apply sql_update_toggle.
  - intros st H. eexists. split.
    + cbn [SearchApi.bookmarks]. unfold SearchApi.put_id_check, update_finished_by_id.
      run_healthy H. reflexivity.
    + apply sql_update_toggle.
  - intros w H. cbn [CachedApi.bookmarks]. unfold CachedApi.put_id_check.
    destruct (@cached_write (update_finished_by_id now b i) w _
                (execute_healthy _ _ H)) as (w' & E & Hs & Hi & _).
    exists w'. split; [exact E|]. split; [|exact Hi].
    rewrite Hs. apply sql_update_toggle.
Qed.

Lemma toggle_effect_on_tables_witness :
  healthy one_bookmark
  /\ exists st',
       PtApi.bookmarks 9 (PUT_id_check 1 true) one_bookmark = (Ok Empty, st')
       /\ toggle_effect 9 1 true (tables one_bookmark) (tables st').
Proof.
  assert (H : healthy one_bookmark) by (intros k s; reflexivity).
  split; [exact H|].
  exact (proj1 (toggle_effect_on_tables 9 1 true) one_bookmark H).
Defined.

Lemma toggle_effect_later (now i : Z) (b : bool) (db db' : DB) :
  toggle_effect now i b db db' ->
  (forall r, In r (bookmark db) -> id r = i -> updatedAt r < now) ->
  forall (k : nat) (r : Bookmark),
    nth_error (bookmark db) k = Some r -> id r = i ->
    exists r',
      nth_error (bookmark db') k = Some r'
      /\ finished r' = b
      /\ updatedAt r < updatedAt r'
      /\ id r' = id r /\ name r' = name r /\ href r' = href r
      /\ createdAt r' = createdAt r.
Proof.
  intros (_ & _ & _ & _ & Hrows) Hclock k r Hk Hi.
  destruct (Hrows k r Hk) as (r' & Hk' & Hsame & _).
  destruct (Hsame Hi) as (Hf & Hu & Hid & Hn & Hh & Hc).
  exists r'. split; [exact Hk'|]. split; [exact Hf|].
  split; [|repeat split; assumption].
  rewrite Hu. apply Hclock; [|exact Hi]. now apply nth_error_In with (n := k).
Qed.



(** ** Creating and listing *)

Lemma max_id_bound (l : list Bookmark) (x : Bookmark) : In x l -> id x <= max_id l.
Proof.
  induction l as [|a l IH]; simpl; [intros []|].
  intros [->|H]; [lia|]. specialize (IH H). lia.
Qed.

Lemma next_id_fresh (db : DB) (x : Bookmark) : In x (bookmark db) -> id x < next_id db.
Proof. intros H. apply max_id_bound in H. unfold next_id. lia. Qed.

Lemma sql_insert_effect (now : Z) (values : NewBookmark) (db : DB) :
  insert_effect now values db (sql_insert now values db) (new_row now db values).
Proof.
  unfold insert_effect. cbn. repeat split. intros x. apply next_id_fresh.
Qed.

Lemma fresh_not_in (l : list Bookmark) (r : Bookmark) :
  (forall x, In x l -> id x < id r) -> ~ In r l.
Proof. intros H Hr. specialize (H r Hr). lia. Qed.

Lemma withoutTags_in (l : list Bookmark) (r : Bookmark) :
  In (withoutTags r) (map withoutTags l) -> In r l.
Proof.
  intros H. apply in_map_iff in H. destruct H as (x & E & Hx).
  inversion E. now subst.
Qed.

Lemma insert_desc_in (r x : Bookmark) (l : list Bookmark) :
  In x (insert_desc r l) -> x = r \/ In x l.
Proof.
  induction l as [|a l IH]; simpl.
  - intros [->|[]]. now left.
  - destruct (id a <? id r); simpl.
    + intros [->|[->|H]]; auto.
    + intros [->|H]; auto. destruct (IH H); auto.
Qed.

Lemma orderByIdDesc_in (x : Bookmark) (l : list Bookmark) :
  In x (orderByIdDesc l) -> In x l.
Proof.
  induction l as [|a l IH]; simpl; [auto|].
  intros H. apply insert_desc_in in H. destruct H as [->|H]; auto.
Qed.

Lemma fold_insert_desc_top (r : Bookmark) (l acc : list Bookmark) :
  (forall x, In x l -> id x < id r) ->
  fold_right insert_desc (r :: acc) l = r :: fold_right insert_desc acc l.
Proof.
  induction l as [|a l IH]; intros H; simpl; [reflexivity|].
  rewrite IH by (intros x Hx; apply H; now right). simpl.
  assert (E : (id r <? id a) = false)
    by (apply Z.ltb_ge; specialize (H a (or_introl eq_refl)); lia).
  now rewrite E.
Qed.

(** The newest row comes first under ORDER BY id DESC. *)
Lemma orderByIdDesc_newest (r : Bookmark) (l : list Bookmark) :
  (forall x, In x l -> id x < id r) ->
  orderByIdDesc (l ++ [r]) = r :: orderByIdDesc l.
Proof.
  intros H. unfold orderByIdDesc. rewrite fold_right_app. simpl.
  now apply fold_insert_desc_top.
Qed.

(** The new row in the listing.  For every body (name, href), POST /bookmarks on an engine that
    executes its statements appends one row to the bookmark table: it has that
    name and href, [finished = false], [createdAt = updatedAt] (both the clock
    reading of the request) and an id no row had.  A later unfiltered listing
    contains that row at exactly one position: first in the revision that
    orders by id descending, last in the revision that lists in table order. *)
Theorem create_then_list (now : Z) (values : NewBookmark) :
  (forall st : Storage,
     healthy st ->
     exists st' r,
       PtApi.bookmarks now (POST_ values) st = (Ok Empty, st')
       /\ insert_effect now values (tables st) (tables st') r
       /\ forall (later : Z) (q : option string),
            exists rest st'',
              PtApi.bookmarks later (GET_ q) st'
              = (Ok (Rows (withoutTags r :: rest)), st'')
              /\ exactly_once (withoutTags r) (withoutTags r :: rest))
  /\ (forall st : Storage,
        healthy st ->
        exists st' r,
          SearchApi.bookmarks now (POST_ values) st = (Ok Empty, st')
          /\ insert_effect now values (tables st) (tables st') r
          /\ forall (later : Z),
               exists rest st'',
                 SearchApi.bookmarks later (GET_ None) st'
                 = (Ok (Rows (rest ++ [withoutTags r])), st'')
                 /\ exactly_once (withoutTags r) (rest ++ [withoutTags r])).
Proof.
  split.
  - intros st H. do 2 eexists. split; [|split].
    + cbn [PtApi.bookmarks]. unfold PtApi.post_, insert_bookmark.
      run_healthy H. reflexivity.
    + apply sql_insert_effect.
    + intros later q. cbn [PtApi.bookmarks].
      unfold PtApi.get_, PtApi.getBookmarks, select_bookmarks_desc.
      run_healthy H. cbn [tables sql_insert bookmark].
      rewrite orderByIdDesc_newest by (intros x; apply next_id_fresh).
      do 2 eexists. split; [reflexivity|].
      exists [], (map withoutTags (orderByIdDesc (bookmark (tables st)))).
      split; [reflexivity|]. split; [intros []|].
      intros Hin. apply withoutTags_in, orderByIdDesc_in in Hin.
      revert Hin. apply fresh_not_in. intros x. apply next_id_fresh.
  - intros st H. do 2 eexists. split; [|split].
    + cbn [SearchApi.bookmarks]. unfold SearchApi.post_, insert_bookmark.
      run_healthy H. reflexivity.
    + apply sql_insert_effect.
    + intros later. cbn [SearchApi.bookmarks].
      unfold SearchApi.get_, SearchApi.getBookmarks, select_bookmarks.
      run_healthy H. cbn [tables sql_insert bookmark].
      rewrite map_app. cbn [map].
      do 2 eexists. split; [reflexivity|].
      exists (map withoutTags (bookmark (tables st))), [].
      split; [reflexivity|]. split; [|intros []].
      intros Hin. apply withoutTags_in in Hin.
      revert Hin. apply fresh_not_in. intros x. apply next_id_fresh.
Qed.

Lemma create_then_list_witness :
  healthy one_bookmark
  /\ exists st' r,
       PtApi.bookmarks 6 (POST_ (sample_body "h1")) one_bookmark = (Ok Empty, st')
       /\ insert_effect 6 (sample_body "h1") (tables one_bookmark) (tables st') r
       /\ forall (later : Z) (q : option string),
            exists rest st'',
              PtApi.bookmarks later (GET_ q) st'
              = (Ok (Rows (withoutTags r :: rest)), st'')
              /\ exactly_once (withoutTags r) (withoutTags r :: rest).
Proof.
  assert (H : healthy one_bookmark) by (intros k s; reflexivity).
  split; [exact H|].
  exact (proj1 (create_then_list 6 (sample_body "h1")) one_bookmark H).
Defined.

Lemma filter_none (A : Type) (p : A -> bool) (l : list A) :
  (forall x, In x l -> p x = false) -> filter p l = [].
Proof.
  induction l as [|a l IH]; intros H; simpl; [reflexivity|].
  rewrite (H a (or_introl eq_refl)). apply IH. intros x Hx. apply H. now right.
Qed.

Lemma new_row_has_values (now : Z) (db : DB) (values : NewBookmark) :
  has_values values (withoutTags (new_row now db values)) = true.
Proof.
  unfold has_values. cbn. now rewrite !String.eqb_refl, Z.eqb_refl.
Qed.

(** C7 (as amended).  For every body (name, href), POST /bookmarks on an
    engine that executes its statements appends one row to the bookmark
    table: it has that name and href, [finished = false],
    [createdAt = updatedAt] (both the clock reading of the request) and an id
    no row had.  A later unfiltered listing contains that row at exactly one
    position; and when no row stored before the request had those values, it
    is the only entry of the listing with those values.  This holds for the
    two revisions that list live. *)
Theorem create_adds_one_listed_row (now : Z) (values : NewBookmark) :
  (forall st : Storage,
     healthy st ->
     exists st' r,
       PtApi.bookmarks now (POST_ values) st = (Ok Empty, st')
       /\ insert_effect now values (tables st) (tables st') r
       /\ has_values values (withoutTags r) = true
       /\ forall (later : Z) (q : option string),
            exists l st'',
              PtApi.bookmarks later (GET_ q) st' = (Ok (Rows l), st'')
              /\ exactly_once (withoutTags r) l
              /\ ((forall x, In x (bookmark (tables st)) ->
                              has_values values (withoutTags x) = false) ->
                  filter (has_values values) l = [withoutTags r]))
  /\ (forall st : Storage,
        healthy st ->
        exists st' r,
          SearchApi.bookmarks now (POST_ values) st = (Ok Empty, st')
          /\ insert_effect now values (tables st) (tables st') r
          /\ has_values values (withoutTags r) = true
          /\ forall (later : Z),
               exists l st'',
                 SearchApi.bookmarks later (GET_ None) st' = (Ok (Rows l), st'')
                 /\ exactly_once (withoutTags r) l
                 /\ ((forall x, In x (bookmark (tables st)) ->
                                 has_values values (withoutTags x) = false) ->
                     filter (has_values values) l = [withoutTags r])).
Proof.
  split.
  - intros st H. do 2 eexists. split; [|split; [|split]].
    + cbn [PtApi.bookmarks]. unfold PtApi.post_, insert_bookmark.
      run_healthy H. reflexivity.
    + apply sql_insert_effect.
    + apply new_row_has_values.
    + intros later q. cbn [PtApi.bookmarks].
      unfold PtApi.get_, PtApi.getBookmarks, select_bookmarks_desc.
      run_healthy H. cbn [tables sql_insert bookmark].
      rewrite orderByIdDesc_newest by (intros x; apply next_id_fresh).
      do 2 eexists. split; [reflexivity|]. split.
      * exists [], (map withoutTags (orderByIdDesc (bookmark (tables st)))).
        split; [reflexivity|]. split; [intros []|].
        intros Hin. apply withoutTags_in, orderByIdDesc_in in Hin.
        revert Hin. apply fresh_not_in. intros x. apply next_id_fresh.
      * intros Hnone. cbn [map filter]. rewrite new_row_has_values.
        f_equal. apply filter_none. intros x Hx.
        apply in_map_iff in Hx. destruct Hx as (y & <- & Hy).
        apply Hnone. now apply orderByIdDesc_in.
  - intros st H. do 2 eexists. split; [|split; [|split]].
    + cbn [SearchApi.bookmarks]. unfold SearchApi.post_, insert_bookmark.
      run_healthy H. reflexivity.
    + apply sql_insert_effect.
    + apply new_row_has_values.
    + intros later. cbn [SearchApi.bookmarks].
      unfold SearchApi.get_, SearchApi.getBookmarks, select_bookmarks.
      run_healthy H. cbn [tables sql_insert bookmark].
      rewrite map_app. cbn [map].
      do 2 eexists. split; [reflexivity|]. split.
      * exists (map withoutTags (bookmark (tables st))), [].
        split; [reflexivity|]. split; [|intros []].
        intros Hin. apply withoutTags_in in Hin.
        revert Hin. apply fresh_not_in. intros x. apply next_id_fresh.
      * intros Hnone. rewrite filter_app. cbn [filter].
        rewrite new_row_has_values.
        rewrite filter_none; [reflexivity|]. intros x Hx.
        apply in_map_iff in Hx. destruct Hx as (y & <- & Hy). now apply Hnone.
Qed.

Lemma create_adds_one_listed_row_witness :
  healthy two_same_name
  /\ (forall x, In x (bookmark (tables two_same_name)) ->
                has_values (sample_body "h1") (withoutTags x) = false)
  /\ exists st' r l st'',
       PtApi.bookmarks 8 (POST_ (sample_body "h1")) two_same_name = (Ok Empty, st')
       /\ PtApi.bookmarks 9 (GET_ None) st' = (Ok (Rows l), st'')
       /\ exactly_once (withoutTags r) l
       /\ filter (has_values (sample_body "h1")) l = [withoutTags r].
Proof.
  assert (H : healthy two_same_name) by (intros k s; reflexivity).
  assert (N : forall x, In x (bookmark (tables two_same_name)) ->
                        has_values (sample_body "h1") (withoutTags x) = false)
    by (intros x [<-|[<-|[]]]; reflexivity).
  split; [exact H|]. split; [exact N|].
  destruct (proj1 (create_adds_one_listed_row 8 (sample_body "h1")) two_same_name H)
    as (st' & r & E & _ & _ & L).
  destruct (L 9 None) as (l & st'' & G & O & F).
  exists st', r, l, st''. split; [exact E|]. split; [exact G|].
  split; [exact O|exact (F N)].
Defined.

(** C7, as stated, fails when a bookmark with the same name and href is
    already stored: after POST of (rocq, h0) on a table that holds (rocq, h0),
    the listing has two entries with that name and href, both with
    [finished = false] and equal timestamps, in both revisions that list
    live. *)
Lemma create_same_values_lists_two_entries :
  (exists l st'',
     PtApi.bookmarks 7 (GET_ None)
       (snd (PtApi.bookmarks 6 (POST_ (sample_body "h0")) one_bookmark))
     = (Ok (Rows l), st'')
     /\ List.length (filter (has_name_and_href (sample_body "h0")) l) = 2%nat
     /\ List.length (filter (has_values (sample_body "h0")) l) = 2%nat
     /\ List.length (filter (has_values (sample_body "h0")) l) <> 1%nat)
  /\ (exists l st'',
        SearchApi.bookmarks 7 (GET_ None)
          (snd (SearchApi.bookmarks 6 (POST_ (sample_body "h0")) one_bookmark))
        = (Ok (Rows l), st'')
        /\ List.length (filter (has_name_and_href (sample_body "h0")) l) = 2%nat
        /\ List.length (filter (has_values (sample_body "h0")) l) = 2%nat).
Proof.
  split.
  - do 2 eexists. split; [vm_compute; reflexivity|].
    split; [reflexivity|]. split; [reflexivity|discriminate].
  - do 2 eexists. split; [vm_compute; reflexivity|].
    split; reflexivity.
Qed.

(** ** Upsert by name *)

Lemma PtApi_put_healthy (now : Z) (values : NewBookmark) (st : Storage) :
  healthy st ->
  exists st',
    PtApi.bookmarks now (PUT_ values) st
    = (Ok (Created
             (match find (eq_name (body_name values)) (bookmark (tables st)) with
              | None => true
              | Some _ => false
              end)), st')
    /\ tables st' = sql_upsert_by_name now values (tables st)
    /\ healthy st'.
Proof.
  intros H. cbn [PtApi.bookmarks].
  unfold PtApi.put_, select_bookmark_by_name, sql_upsert_by_name.
  run_healthy H. cbn [tables].
  destruct (find (eq_name (body_name values)) (bookmark (tables st))).
  - unfold update_bookmark_by_name. run_healthy H.
    eexists. split; [reflexivity|]. split; [reflexivity|auto with storage].
  - unfold insert_bookmark. run_healthy H.
    eexists. split; [reflexivity|]. split; [reflexivity|auto with storage].
Qed.

Lemma SearchApi_put_healthy (now : Z) (values : NewBookmark) (st : Storage) :
  healthy st ->
  exists st',
    SearchApi.bookmarks now (PUT_ values) st = (Ok Empty, st')
    /\ tables st' = sql_upsert_by_name now values (tables st)
    /\ healthy st'.
Proof.
  intros H. cbn [SearchApi.bookmarks].
  unfold SearchApi.put_, select_bookmark_by_name, sql_upsert_by_name.
  run_healthy H. cbn [tables].
  destruct (find (eq_name (body_name values)) (bookmark (tables st))).
  - unfold update_bookmark_by_name. run_healthy H.
    eexists. split; [reflexivity|]. split; [reflexivity|auto with storage].
  - unfold insert_bookmark. run_healthy H.
    eexists. split; [reflexivity|]. split; [reflexivity|auto with storage].
Qed.

Lemma find_none_filter (A : Type) (p : A -> bool) (l : list A) :
  find p l = None <-> filter p l = [].
Proof.
  induction l as [|a l IH]; simpl; [tauto|].
  destruct (p a); [split; discriminate|exact IH].
Qed.

Lemma rows_named_nil (n : string) (db : DB) :
  rows_named n db = [] <-> find (eq_name n) (bookmark db) = None.
Proof. unfold rows_named. symmetry. apply find_none_filter. Qed.

Lemma eq_name_set_body (now : Z) (values : NewBookmark) (r : Bookmark) :
  eq_name (body_name values) (set_body now values r) = true.
Proof. unfold eq_name, set_body. cbn. apply String.eqb_refl. Qed.

Lemma rows_named_update (now : Z) (values : NewBookmark) (db : DB) :
  rows_named (body_name values)
    (sql_update (eq_name (body_name values)) (set_body now values) db)
  = map (set_body now values) (rows_named (body_name values) db).
Proof.
  unfold rows_named, sql_update, set_bookmark. cbn [bookmark].
  induction (bookmark db) as [|a l IH]; simpl; [reflexivity|].
  destruct (eq_name (body_name values) a) eqn:E; simpl.
  - rewrite eq_name_set_body. now rewrite IH.
  - rewrite E. exact IH.
Qed.

Lemma rows_named_insert (now : Z) (values : NewBookmark) (db : DB) :
  rows_named (body_name values) (sql_insert now values db)
  = rows_named (body_name values) db ++ [new_row now db values].
Proof.
  unfold rows_named, sql_insert. cbn [bookmark].
  rewrite filter_app. simpl.
  unfold eq_name at 2. cbn [name new_row]. now rewrite String.eqb_refl.
Qed.

Lemma sql_update_by_name_effect (now : Z) (values : NewBookmark) (db : DB) :
  update_by_name_effect now values db
    (sql_update (eq_name (body_name values)) (set_body now values) db).
Proof.
  unfold update_by_name_effect, sql_update, set_bookmark. cbn.
  repeat split.
  - apply length_map.
  - intros k r Hk. eexists. split.
    + apply nth_error_map_some with (1 := Hk).
    + unfold eq_name. split.
      * intros E. apply String.eqb_eq in E. rewrite E. cbn. repeat split.
      * intros N. apply String.eqb_neq in N. rewrite N. reflexivity.
Qed.

(** Two upserts of one name, starting with at most one row of that name,
    end with one row of that name, carrying the second href. *)
Lemma upsert_twice_tables (t1 t2 : Z) (v1 v2 : NewBookmark) (db : DB) :
  body_name v2 = body_name v1 ->
  (List.length (rows_named (body_name v1) db) <= 1)%nat ->
  find (eq_name (body_name v2)) (bookmark (sql_upsert_by_name t1 v1 db)) <> None
  /\ exists r,
       rows_named (body_name v1)
         (sql_upsert_by_name t2 v2 (sql_upsert_by_name t1 v1 db)) = [r]
       /\ href r = body_href v2.
Proof.
  intros En Hlen.
  assert (H1 : exists r1, rows_named (body_name v1) (sql_upsert_by_name t1 v1 db) = [r1]).
  { unfold sql_upsert_by_name.
    destruct (find (eq_name (body_name v1)) (bookmark db)) eqn:F.
    - rewrite rows_named_update.
      destruct (rows_named (body_name v1) db) as [|r0 [|r1 l]] eqn:R.
      + apply rows_named_nil in R. congruence.
      + eexists; reflexivity.
      + simpl in Hlen. lia.
    - rewrite rows_named_insert.
      apply rows_named_nil in F. rewrite F. eexists; reflexivity. }
  destruct H1 as (r1 & H1).
  assert (F2 : find (eq_name (body_name v2))
                 (bookmark (sql_upsert_by_name t1 v1 db)) <> None).
  { rewrite En. intros F. apply rows_named_nil in F. congruence. }
  split; [exact F2|].
  unfold sql_upsert_by_name at 1.
  destruct (find (eq_name (body_name v2)) (bookmark (sql_upsert_by_name t1 v1 db)));
    [|now elim F2].
  rewrite <- En, rows_named_update, En, H1.
  eexists. split; reflexivity.
Qed.

(** C1 (as amended). On an engine that executes its statements,
    PUT /bookmarks with body (name, href) inserts one row and answers
    [{created: true}] when no row carries the name; otherwise it inserts
    nothing, rewrites every row that carries the name (name, href and
    updatedAt; id, finished and createdAt kept) and answers
    [{created: false}].  The second revision in [src/src/index.js] leaves the
    same tables and answers with an empty body.  When at most one row carries
    the name beforehand, a second upsert of the name with another href answers
    [{created: false}] and leaves exactly one row of that name, with the
    second href. *)
Theorem upsert_by_name (now later : Z) (values : NewBookmark) (href2 : string)
  (st : Storage) :
  healthy st ->
  (exists st' stB,
     PtApi.bookmarks now (PUT_ values) st
     = (Ok (Created (match rows_named (body_name values) (tables st) with
                     | [] => true
                     | _ :: _ => false
                     end)), st')
     /\ match rows_named (body_name values) (tables st) with
        | [] => exists r, insert_effect now values (tables st) (tables st') r
        | _ :: _ => update_by_name_effect now values (tables st) (tables st')
        end
     /\ SearchApi.bookmarks now (PUT_ values) st = (Ok Empty, stB)
     /\ tables stB = tables st')
  /\ ((List.length (rows_named (body_name values) (tables st)) <= 1)%nat ->
      exists st1 st2 created r,
        PtApi.bookmarks now (PUT_ values) st = (Ok (Created created), st1)
        /\ PtApi.bookmarks later
             (PUT_ {| body_name := body_name values; body_href := href2 |}) st1
           = (Ok (Created false), st2)
        /\ rows_named (body_name values) (tables st2) = [r]
        /\ href r = href2).
Proof.
  intros H.
  destruct (PtApi_put_healthy now values H) as (st' & E & T & H').
  destruct (SearchApi_put_healthy now values H) as (stB & EB & TB & _).
  split.
  - exists st', stB. split; [|split; [|split]].
    + rewrite E. do 3 f_equal.
      destruct (rows_named (body_name values) (tables st)) eqn:R.
      * apply rows_named_nil in R. now rewrite R.
      * destruct (find _ _) eqn:F; [reflexivity|].
        apply rows_named_nil in F. congruence.
    + rewrite T. unfold sql_upsert_by_name.
      destruct (rows_named (body_name values) (tables st)) eqn:R.
      * apply rows_named_nil in R. rewrite R. eexists. apply sql_insert_effect.
      * destruct (find _ _) eqn:F; [apply sql_update_by_name_effect|].
        apply rows_named_nil in F. congruence.
    + exact EB.
    + congruence.
  - intros Hlen.
    set (v2 := {| body_name := body_name values; body_href := href2 |}).
    destruct (PtApi_put_healthy later v2 H') as (st2 & E2 & T2 & _).
    destruct (@upsert_twice_tables now later values v2 (tables st) eq_refl Hlen)
      as (F & r & R & Hr).
    exists st', st2. eexists. exists r.
    split; [exact E|]. split; [|split].
    + rewrite T in E2. rewrite E2.
      destruct (find (eq_name (body_name v2)) _); [reflexivity|now elim F].
    + rewrite T2, T. exact R.
    + exact Hr.
Qed.

Lemma upsert_by_name_witness :
  healthy one_bookmark
  /\ (List.length (rows_named "rocq" (tables one_bookmark)) <= 1)%nat
  /\ exists st1 st2 created r,
       PtApi.bookmarks 7 (PUT_ (sample_body "h1")) one_bookmark
       = (Ok (Created created), st1)
       /\ PtApi.bookmarks 8 (PUT_ (sample_body "h2")) st1 = (Ok (Created false), st2)
       /\ rows_named "rocq" (tables st2) = [r]
       /\ href r = "h2"%string.
Proof.
  assert (H : healthy one_bookmark) by (intros k s; reflexivity).
  assert (L : (List.length (rows_named "rocq" (tables one_bookmark)) <= 1)%nat)
    by (vm_compute; lia).
  split; [exact H|]. split; [exact L|].
  exact (proj2 (@upsert_by_name 7 8 (sample_body "h1") "h2" one_bookmark H) L).
Defined.

(** C1, as stated, fails when the name is already carried by two rows (two
    POST requests with one name): both upserts answer [{created: false}] and
    two rows of that name remain.  It also fails in the second revision of
    [src/src/index.js], whose answer has no [created] in it, whether the
    upsert inserts (empty database) or updates. *)
Lemma upsert_twice_two_rows_remain :
  (exists st1 st2,
     PtApi.bookmarks 7 (PUT_ (sample_body "h1")) two_same_name
     = (Ok (Created false), st1)
     /\ PtApi.bookmarks 8 (PUT_ (sample_body "h2")) st1 = (Ok (Created false), st2)
     /\ List.length (rows_named "rocq" (tables st2)) = 2%nat
     /\ List.length (rows_named "rocq" (tables st2)) <> 1%nat)
  /\ fst (SearchApi.bookmarks 7 (PUT_ (sample_body "h1")) (open emptyDB)) = Ok Empty
  /\ fst (SearchApi.bookmarks 7 (PUT_ (sample_body "h1")) (open emptyDB))
     <> Ok (Created true)
  /\ fst (SearchApi.bookmarks 7 (PUT_ (sample_body "h1")) one_bookmark) = Ok Empty
  /\ fst (SearchApi.bookmarks 7 (PUT_ (sample_body "h1")) one_bookmark)
     <> Ok (Created false).
Proof.
  split.
  - do 2 eexists.
    split; [vm_compute; reflexivity|].
    split; [vm_compute; reflexivity|].
    split; [vm_compute; reflexivity|vm_compute; discriminate].
  - repeat split; vm_compute; try reflexivity; discriminate.
Qed.

(** C10. Two POST requests with one name leave two rows of that name in the
    bookmark table (with different ids): the table has no uniqueness
    constraint on name.  Whenever at least one row carries the name of the
    body, the upsert, on an engine that executes its statements, answers
    [{created: false}] and rewrites every row of that name: each of them has
    the body's href and the clock reading as updatedAt afterwards, and there
    are as many of them as before.  The second revision in
    [src/src/index.js] leaves the same tables. *)
Theorem duplicate_names_all_updated :
  (exists posts r1 r2,
     rows_named "rocq" (tables (post_all posts (open emptyDB))) = [r1; r2]
     /\ id r1 <> id r2)
  /\ forall (now : Z) (values : NewBookmark) (st : Storage),
       healthy st ->
       rows_named (body_name values) (tables st) <> [] ->
       exists st' stB,
         PtApi.bookmarks now (PUT_ values) st = (Ok (Created false), st')
         /\ update_by_name_effect now values (tables st) (tables st')
         /\ rows_named (body_name values) (tables st')
            = map (set_body now values) (rows_named (body_name values) (tables st))
         /\ SearchApi.bookmarks now (PUT_ values) st = (Ok Empty, stB)
         /\ tables stB = tables st'.
Proof.
  split.
  - exists [(5, sample_body "h0"); (6, sample_body "h0")].
    do 2 eexists. split; [vm_compute; reflexivity|]. vm_compute. discriminate.
  - intros now values st H Hne.
    destruct (PtApi_put_healthy now values H) as (st' & E & T & _).
    destruct (SearchApi_put_healthy now values H) as (stB & EB & TB & _).
    assert (F : exists b, find (eq_name (body_name values)) (bookmark (tables st)) = Some b).
    { destruct (find _ _) eqn:F; [eauto|]. apply rows_named_nil in F. contradiction. }
    destruct F as (b0 & F).
    exists st', stB. rewrite F in E.
    unfold sql_upsert_by_name in T, TB. rewrite F in T, TB.
    split; [exact E|]. split; [|split; [|split]].
    + rewrite T. apply sql_update_by_name_effect.
    + rewrite T. apply rows_named_update.
    + exact EB.
    + congruence.
Qed.

Lemma duplicate_names_all_updated_witness :
  healthy two_same_name
  /\ rows_named "rocq" (tables two_same_name) <> []
  /\ exists st' stB,
       PtApi.bookmarks 7 (PUT_ (sample_body "h1")) two_same_name
       = (Ok (Created false), st')
       /\ update_by_name_effect 7 (sample_body "h1") (tables two_same_name) (tables st')
       /\ rows_named "rocq" (tables st')
          = map (set_body 7 (sample_body "h1")) (rows_named "rocq" (tables two_same_name))
       /\ SearchApi.bookmarks 7 (PUT_ (sample_body "h1")) two_same_name = (Ok Empty, stB)
       /\ tables stB = tables st'.
Proof.
  assert (H : healthy two_same_name) by (intros k s; reflexivity).
  assert (N : rows_named "rocq" (tables two_same_name) <> [])
    by (vm_compute; discriminate).
  split; [exact H|]. split; [exact N|].
  exact (proj2 duplicate_names_all_updated 7 (sample_body "h1") two_same_name H N).
Defined.

(** ** LIKE and substrings *)

Lemma list_ascii_of_string_app (a b : string) :
  list_ascii_of_string (a ++ b) = list_ascii_of_string a ++ list_ascii_of_string b.
Proof. induction a as [|c a IH]; simpl; [reflexivity|now rewrite IH]. Qed.

Lemma like_char_eq_refl (c : ascii) : like_char_eq c c = true.
Proof. unfold like_char_eq. now rewrite Ascii.eqb_refl. Qed.

Lemma patternCompare_percent (p s : list ascii) :
  patternCompare (percent :: p) s
  = patternCompare p s
    || match s with [] => false | _ :: s' => patternCompare (percent :: p) s' end.
Proof. destruct s; reflexivity. Qed.

(** `%` may swallow any prefix. *)
Lemma patternCompare_percent_skip (p s1 s2 : list ascii) :
  patternCompare p s2 = true -> patternCompare (percent :: p) (s1 ++ s2) = true.
Proof.
  intros H. induction s1 as [|c s1 IH].
  - simpl app. rewrite patternCompare_percent, H. reflexivity.
  - simpl app. rewrite patternCompare_percent, IH. apply orb_true_r.
Qed.

Lemma patternCompare_percent_all (s : list ascii) :
  patternCompare [percent] s = true.
Proof.
  induction s as [|c s IH].
  - reflexivity.
  - rewrite patternCompare_percent, IH. apply orb_true_r.
Qed.

Lemma patternCompare_cons (c : ascii) (p s : list ascii) :
  patternCompare p s = true -> patternCompare (c :: p) (c :: s) = true.
Proof.
  intros H. destruct (Ascii.eqb c percent) eqn:E1.
  - apply Ascii.eqb_eq in E1. subst c.
    now apply (patternCompare_percent_skip p [percent] s).
  - simpl. rewrite E1. destruct (Ascii.eqb c underscore); [exact H|].
    now rewrite like_char_eq_refl, H.
Qed.

(** A text matches itself, wildcards included. *)
Lemma patternCompare_self (q rest t : list ascii) :
  patternCompare rest t = true -> patternCompare (q ++ rest) (q ++ t) = true.
Proof.
  intros H. induction q as [|c q IH]; [exact H|].
  simpl app. now apply patternCompare_cons.
Qed.

(** A name that contains [q] matches the pattern [%q%]. *)
Lemma like_substring (q n : string) :
  isSubstringOf q n -> like n ("%" ++ q ++ "%") = true.
Proof.
  intros (a & b & ->). unfold like.
  rewrite !list_ascii_of_string_app.
  change (list_ascii_of_string "%") with [percent].
  simpl app at 1.
  apply patternCompare_percent_skip, patternCompare_self, patternCompare_percent_all.
Qed.

(** ** trim *)

Lemma trimStart_suffix (s : list ascii) : exists w, s = w ++ trimStart s.
Proof.
  induction s as [|c s (w & IH)]; [now exists []|].
  simpl. destruct (isWhiteSpace c).
  - exists (c :: w). simpl. now f_equal.
  - now exists [].
Qed.

Lemma trimEnd_prefix (s : list ascii) : exists w, s = trimEnd s ++ w.
Proof.
  unfold trimEnd. destruct (trimStart_suffix (rev s)) as (w & E).
  exists (rev w). rewrite <- rev_app_distr, <- E. symmetry. apply rev_involutive.
Qed.

Lemma string_of_list_ascii_app (a b : list ascii) :
  string_of_list_ascii (a ++ b)
  = (string_of_list_ascii a ++ string_of_list_ascii b)%string.
Proof. induction a as [|c a IH]; simpl; [reflexivity|now rewrite IH]. Qed.

(** [q.trim()] is [q] without a prefix and a suffix. *)
Lemma trim_inside (q : string) :
  exists w1 w2, q = (w1 ++ trim q ++ w2)%string.
Proof.
  unfold trim.
  destruct (trimStart_suffix (list_ascii_of_string q)) as (w1 & E1).
  destruct (trimEnd_prefix (trimStart (list_ascii_of_string q))) as (w2 & E2).
  exists (string_of_list_ascii w1), (string_of_list_ascii w2).
  rewrite <- !string_of_list_ascii_app, <- E2, <- E1.
  symmetry. apply string_of_list_ascii_of_string.
Qed.

Lemma append_assoc (a b c : string) : ((a ++ b) ++ c = a ++ (b ++ c))%string.
Proof. induction a as [|x a IH]; simpl; [reflexivity|now rewrite IH]. Qed.

Lemma isSubstringOf_trim (q n : string) :
  isSubstringOf q n -> isSubstringOf (trim q) n.
Proof.
  intros (a & b & ->). destruct (trim_inside q) as (w1 & w2 & E).
  exists (a ++ w1)%string, (w2 ++ b)%string.
  rewrite E at 1. now rewrite !append_assoc.
Qed.

Lemma length_zero_empty (s : string) :
  (String.length s =? 0)%nat = true <-> s = ""%string.
Proof.
  destruct s; simpl; split; intros H; try reflexivity; discriminate.
Qed.

(** ** Searching *)




(** ** The cache and its refresh *)

Lemma preserves_ret (P : CachedApi.World -> Prop) (A : Type) (a : A) :
  preserves P (ret a).
Proof. intros w H. exact H. Qed.

Lemma preserves_bind (P : CachedApi.World -> Prop) (A B : Type)
  (c : CachedApi.W A) (k : A -> CachedApi.W B) :
  preserves P c -> (forall a, preserves P (k a)) -> preserves P (bind c k).
Proof.
  intros Hc Hk w H. unfold bind. specialize (Hc w H).
  destruct (c w) as [[a|e] w']; simpl in *; [now apply Hk|exact Hc].
Qed.

(** A property that does not look at the engine survives every query. *)
Lemma preserves_liftQ (P : CachedApi.World -> Prop) (A : Type) (c : Q A) :
  (forall st w, P w -> P (CachedApi.with_storage st w)) ->
  preserves P (CachedApi.liftQ c).
Proof.
  intros HP w H. unfold CachedApi.liftQ.
  destruct (c (CachedApi.storage w)) as [r st]. simpl. now apply HP.
Qed.

Lemma preserves_try_catch (P : CachedApi.World -> Prop) (A : Type)
  (c : CachedApi.W A) (h : string -> CachedApi.W A) :
  preserves P c -> (forall e, preserves P (h e)) ->
  preserves P (CachedApi.try_catch c h).
Proof.
  intros Hc Hh w H. unfold CachedApi.try_catch. specialize (Hc w H).
  destruct (c w) as [[a|e] w']; simpl in *; [exact Hc|now apply Hh].
Qed.

(** [updateBookmarks] returns with the flag cleared whenever it found it
    cleared, and then it has queued a refresh. *)
Lemma updateBookmarks_queues (r : CachedApi.Ref) (w : CachedApi.World) :
  CachedApi.isUpdatingBookmarks w = false ->
  CachedApi.updateBookmarks (Some r) w
  = (Ok tt,
     CachedApi.with_immediates
       (CachedApi.immediates w ++ [CachedApi.Call_getBookmarks (Some r)]) w).
Proof.
  intros H. unfold CachedApi.updateBookmarks. rewrite H.
  destruct w as [st it fl im co]. simpl in H. subst fl. reflexivity.
Qed.

Lemma updateBookmarks_flag (a : option CachedApi.Ref) :
  preserves (fun w => CachedApi.isUpdatingBookmarks w = false)
    (CachedApi.updateBookmarks a).
Proof.
  intros w H. destruct a as [r|]; [|exact H].
  now rewrite updateBookmarks_queues.
Qed.

Lemma updateBookmarks_items (P : list SelectBookmarkWithOptionalTags -> Prop)
  (a : option CachedApi.Ref) :
  preserves (fun w => P (CachedApi.items w)) (CachedApi.updateBookmarks a).
Proof.
  intros w H. unfold CachedApi.updateBookmarks.
  destruct a as [r|]; [|exact H].
  destruct (CachedApi.isUpdatingBookmarks w); exact H.
Qed.

(** Requests never write the cache. *)
Lemma bookmarks_items (P : list SelectBookmarkWithOptionalTags -> Prop)
  (now : Z) (r : CachedApi.BookmarksRoute) :
  preserves (fun w => P (CachedApi.items w)) (CachedApi.bookmarks now r).
Proof.
  assert (L : forall A (c : Q A),
             preserves (fun w => P (CachedApi.items w)) (CachedApi.liftQ c))
    by (intros; apply preserves_liftQ; auto).
  destruct r as [q|v|i v|i b|i]; cbn [CachedApi.bookmarks].
  - unfold CachedApi.get_. destruct q as [s|]; [|intros w H; exact H].
    destruct (String.eqb s ""); [intros w H; exact H|].
    apply preserves_bind; [apply L|intros; apply preserves_ret].
  - repeat (apply preserves_bind; intros);
      auto using updateBookmarks_items, preserves_ret.
  - repeat (apply preserves_bind; intros);
      auto using updateBookmarks_items, preserves_ret.
  - repeat (apply preserves_bind; intros);
      auto using updateBookmarks_items, preserves_ret.
  - repeat (apply preserves_bind; intros);
      auto using updateBookmarks_items, preserves_ret.
Qed.

Lemma app_items (env : Env) (req : Request CachedApi.BookmarksRoute)
  (w : CachedApi.World) :
  CachedApi.items (snd (CachedApi.app env req w)) = CachedApi.items w.
Proof.
  unfold CachedApi.app. destruct (route req) as [|r]; [reflexivity|].
  destruct (CachedApi.beforeHandle env (bearer req)); [reflexivity|].
  pose proof (@bookmarks_items (fun l => l = CachedApi.items w) (clock req) r w eq_refl) as H.
  destruct (CachedApi.bookmarks (clock req) r w). exact H.
Qed.

Lemma bookmarks_flag (now : Z) (r : CachedApi.BookmarksRoute) :
  preserves (fun w => CachedApi.isUpdatingBookmarks w = false)
    (CachedApi.bookmarks now r).
Proof.
  assert (L : forall A (c : Q A),
             preserves (fun w => CachedApi.isUpdatingBookmarks w = false)
               (CachedApi.liftQ c))
    by (intros; apply preserves_liftQ; auto).
  destruct r as [q|v|i v|i b|i]; cbn [CachedApi.bookmarks].
  - unfold CachedApi.get_. destruct q as [s|]; [|intros w H; exact H].
    destruct (String.eqb s ""); [intros w H; exact H|].
    apply preserves_bind; [apply L|intros; apply preserves_ret].
  - repeat (apply preserves_bind; intros);
      auto using updateBookmarks_flag, preserves_ret.
  - repeat (apply preserves_bind; intros);
      auto using updateBookmarks_flag, preserves_ret.
  - repeat (apply preserves_bind; intros);
      auto using updateBookmarks_flag, preserves_ret.
  - repeat (apply preserves_bind; intros);
      auto using updateBookmarks_flag, preserves_ret.
Qed.

Lemma execute_reading_tables (A : Type) (s : Stmt) (f : DB -> A) (st : Storage) :
  tables (snd (execute s (reading f) st)) = tables st.
Proof.
  unfold execute, reading. destruct (fault st _ s); reflexivity.
Qed.

Lemma addTags_tables (b : Bookmark) (st : Storage) :
  tables (snd (CachedApi.addTags b st)) = tables st.
Proof.
  unfold CachedApi.addTags, getBookmarkTags, bind.
  pose proof (execute_reading_tables (SelectBookmarkTags (id b))
                (fun db => sql_bookmark_tags db (id b)) st) as H.
  destruct (execute _ _ st) as [[ts|e] st']; exact H.
Qed.

Lemma mapM_addTags_tables (l : list Bookmark) (st : Storage) :
  tables (snd (mapM CachedApi.addTags l st)) = tables st.
Proof.
  revert st. induction l as [|b l IH]; intros st; [reflexivity|].
  cbn [mapM]. unfold bind at 1.
  pose proof (addTags_tables b st) as Hb.
  destruct (CachedApi.addTags b st) as [[y|e] st1]; [|exact Hb].
  unfold bind at 1. specialize (IH st1).
  destruct (mapM CachedApi.addTags l st1) as [[ys|e] st2]; simpl in *; congruence.
Qed.

(** The refresh only reads. *)
Lemma bookmarksWithTags_tables (st : Storage) :
  tables (snd (CachedApi.bookmarksWithTags st)) = tables st.
Proof.
  unfold CachedApi.bookmarksWithTags, select_bookmarks, bind.
  pose proof (execute_reading_tables SelectBookmarks bookmark st) as H.
  destruct (execute _ _ st) as [[l|e] st1]; [|exact H].
  rewrite mapM_addTags_tables. exact H.
Qed.

Lemma addTags_has_tags (b : Bookmark) (st st' : Storage)
  (x : SelectBookmarkWithOptionalTags) :
  CachedApi.addTags b st = (Ok x, st') -> has_tags x.
Proof.
  unfold CachedApi.addTags, bind, ret.
  destruct (getBookmarkTags (id b) st) as [[ts|e] st1]; intros E; inversion E.
  now exists ts.
Qed.

Lemma mapM_addTags_has_tags (l : list Bookmark) (st st' : Storage)
  (res : list SelectBookmarkWithOptionalTags) :
  mapM CachedApi.addTags l st = (Ok res, st') -> Forall has_tags res.
Proof.
  revert st st' res. induction l as [|b l IH]; intros st st' res.
  - intros E. inversion E. constructor.
  - cbn [mapM]. unfold bind at 1.
    destruct (CachedApi.addTags b st) as [[y|e] st1] eqn:Eb; [|discriminate].
    unfold bind at 1.
    destruct (mapM CachedApi.addTags l st1) as [[ys|e] st2] eqn:El; [|discriminate].
    intros E. inversion E. subst. constructor.
    + exact (addTags_has_tags _ _ Eb).
    + exact (IH _ _ _ El).
Qed.

Lemma bookmarksWithTags_has_tags (st st' : Storage)
  (res : list SelectBookmarkWithOptionalTags) :
  CachedApi.bookmarksWithTags st = (Ok res, st') -> Forall has_tags res.
Proof.
  unfold CachedApi.bookmarksWithTags, bind.
  destruct (select_bookmarks st) as [[l|e] st1]; [|discriminate].
  apply mapM_addTags_has_tags.
Qed.

Lemma mapM_addTags_healthy (l : list Bookmark) (st : Storage) :
  healthy st ->
  exists st',
    mapM CachedApi.addTags l st = (Ok (map (enrich (tables st)) l), st')
    /\ tables st' = tables st /\ healthy st'.
Proof.
  revert st. induction l as [|b l IH]; intros st H.
  - exists st. repeat split. exact H.
  - cbn [mapM]. unfold CachedApi.addTags at 1, getBookmarkTags.
    run_healthy H.
    destruct (IH {| tables := tables st;
                    trace := trace st ++ [SelectBookmarkTags (id b)];
                    fault := fault st |}) as (st' & E & T & H');
      [auto with storage|].
    rewrite E. cbn [tables] in *. exists st'. repeat split; assumption.
Qed.

Lemma bookmarksWithTags_healthy (st : Storage) :
  healthy st ->
  exists st',
    CachedApi.bookmarksWithTags st
    = (Ok (map (enrich (tables st)) (bookmark (tables st))), st')
    /\ tables st' = tables st /\ healthy st'.
Proof.
  intros H. unfold CachedApi.bookmarksWithTags, select_bookmarks.
  run_healthy H.
  destruct (@mapM_addTags_healthy (bookmark (tables st))
              {| tables := tables st; trace := trace st ++ [SelectBookmarks];
                 fault := fault st |}) as (st' & E & T & H');
    [auto with storage|].
  exists st'. repeat split; assumption.
Qed.

(** The two ways out of [getBookmarks]. *)
Lemma getBookmarks_throw (arg : option CachedApi.Ref) (w : CachedApi.World)
  (e : string) (st' : Storage) :
  CachedApi.bookmarksWithTags (CachedApi.storage w) = (Throw e, st') ->
  CachedApi.getBookmarks arg w
  = (Ok [],
     CachedApi.with_console (CachedApi.console w ++ [e])
       (CachedApi.with_storage st' w)).
Proof.
  intros E. unfold CachedApi.getBookmarks, CachedApi.try_catch.
  unfold bind at 1. unfold CachedApi.liftQ. rewrite E. reflexivity.
Qed.

Lemma getBookmarks_ok (arg : option CachedApi.Ref) (w : CachedApi.World)
  (l : list SelectBookmarkWithOptionalTags) (st' : Storage) :
  CachedApi.bookmarksWithTags (CachedApi.storage w) = (Ok l, st') ->
  CachedApi.getBookmarks arg w
  = (Ok l,
     match arg with
     | Some _ => CachedApi.with_items l (CachedApi.with_storage st' w)
     | None => CachedApi.with_storage st' w
     end).
Proof.
  intros E. unfold CachedApi.getBookmarks, CachedApi.try_catch.
  unfold bind at 1. unfold CachedApi.liftQ. rewrite E.
  destruct arg; reflexivity.
Qed.

Lemma getBookmarks_returns (arg : option CachedApi.Ref) (w : CachedApi.World) :
  exists l, fst (CachedApi.getBookmarks arg w) = Ok l /\ Forall has_tags l.
Proof.
  destruct (CachedApi.bookmarksWithTags (CachedApi.storage w)) as [[l|e] st'] eqn:E.
  - rewrite (getBookmarks_ok arg w E). exists l. split; [reflexivity|].
    exact (bookmarksWithTags_has_tags _ E).
  - rewrite (getBookmarks_throw arg w E). exists []. split; [reflexivity|constructor].
Qed.

Lemma getBookmarks_flag (arg : option CachedApi.Ref) :
  preserves (fun w => CachedApi.isUpdatingBookmarks w = false)
    (CachedApi.getBookmarks arg).
Proof.
  intros w H.
  destruct (CachedApi.bookmarksWithTags (CachedApi.storage w)) as [[l|e] st'] eqn:E.
  - rewrite (getBookmarks_ok arg w E). destruct arg; exact H.
  - rewrite (getBookmarks_throw arg w E). exact H.
Qed.

Lemma getBookmarks_has_tags (arg : option CachedApi.Ref) :
  preserves (fun w => Forall has_tags (CachedApi.items w))
    (CachedApi.getBookmarks arg).
Proof.
  intros w H.
  destruct (CachedApi.bookmarksWithTags (CachedApi.storage w)) as [[l|e] st'] eqn:E.
  - rewrite (getBookmarks_ok arg w E). destruct arg; [|exact H].
    exact (bookmarksWithTags_has_tags _ E).
  - rewrite (getBookmarks_throw arg w E). exact H.
Qed.

(** ** What holds in every state the cached process reaches *)

Lemma start_flag (st : Storage) :
  CachedApi.isUpdatingBookmarks (CachedApi.start st) = false.
Proof.
  unfold CachedApi.start.
  set (w0 := {| CachedApi.storage := st; CachedApi.items := [];
                CachedApi.isUpdatingBookmarks := false;
                CachedApi.immediates := []; CachedApi.console := [] |}).
  pose proof (@getBookmarks_flag None w0 eq_refl) as H.
  destruct (CachedApi.getBookmarks None w0) as [[l|e] w1]; exact H.
Qed.

Lemma start_has_tags (st : Storage) :
  Forall has_tags (CachedApi.items (CachedApi.start st)).
Proof.
  unfold CachedApi.start.
  set (w0 := {| CachedApi.storage := st; CachedApi.items := [];
                CachedApi.isUpdatingBookmarks := false;
                CachedApi.immediates := []; CachedApi.console := [] |}).
  destruct (getBookmarks_returns None w0) as (l & E & Hl).
  pose proof (@getBookmarks_has_tags None w0 (Forall_nil _)) as H.
  destruct (CachedApi.getBookmarks None w0) as [[l'|e] w1]; simpl in *.
  - inversion E. now subst.
  - exact H.
Qed.

Lemma runImmediate_preserves (P : CachedApi.World -> Prop) :
  (forall l w, P w -> P (CachedApi.with_immediates l w)) ->
  (forall arg, preserves P (CachedApi.getBookmarks arg)) ->
  forall w, P w -> P (CachedApi.runImmediate w).
Proof.
  intros Hi Hg w H. unfold CachedApi.runImmediate.
  destruct (CachedApi.immediates w) as [|[arg] rest]; [exact H|].
  apply Hg, Hi, H.
Qed.

Lemma app_preserves (P : CachedApi.World -> Prop) (env : Env)
  (req : Request CachedApi.BookmarksRoute) :
  (forall now r, preserves P (CachedApi.bookmarks now r)) ->
  forall w, P w -> P (snd (CachedApi.app env req w)).
Proof.
  intros Hb w H. unfold CachedApi.app.
  destruct (route req) as [|r]; [exact H|].
  destruct (CachedApi.beforeHandle env (bearer req)); [exact H|].
  specialize (Hb (clock req) r w H).
  destruct (CachedApi.bookmarks (clock req) r w). exact Hb.
Qed.

(** The flag is clear in every reachable state: [updateBookmarks] clears it
    before it returns, and nothing else sets it. *)
Lemma reachable_flag (env : Env) (st : Storage) (w : CachedApi.World) :
  CachedApi.reachable env st w -> CachedApi.isUpdatingBookmarks w = false.
Proof.
  induction 1 as [|w w' _ IH Hstep]; [apply start_flag|].
  destruct Hstep as [req w|w].
  - apply app_preserves with (P := fun w => CachedApi.isUpdatingBookmarks w = false);
      [apply bookmarks_flag|exact IH].
  - apply runImmediate_preserves
      with (P := fun w => CachedApi.isUpdatingBookmarks w = false);
      [auto|apply getBookmarks_flag|exact IH].
Qed.

(** Every entry of the cache carries a [tags] array, in every reachable
    state. *)
Lemma reachable_has_tags (env : Env) (st : Storage) (w : CachedApi.World) :
  CachedApi.reachable env st w -> Forall has_tags (CachedApi.items w).
Proof.
  induction 1 as [|w w' _ IH Hstep]; [apply start_has_tags|].
  destruct Hstep as [req w|w].
  - now rewrite app_items.
  - apply runImmediate_preserves
      with (P := fun w => Forall has_tags (CachedApi.items w));
      [auto|apply getBookmarks_has_tags|exact IH].
Qed.

(** In a reachable state no call of [updateBookmarks] is dropped. *)
Lemma reachable_trigger_queued (env : Env) (st : Storage) (w : CachedApi.World)
  (r : CachedApi.Ref) :
  CachedApi.reachable env st w ->
  CachedApi.updateBookmarks (Some r) w
  = (Ok tt,
     CachedApi.with_immediates
       (CachedApi.immediates w ++ [CachedApi.Call_getBookmarks (Some r)]) w).
Proof. intros H. apply updateBookmarks_queues, (reachable_flag H). Qed.

(** C5 (the code departs from it).  Two authorised POST requests handled
    before the event loop runs its immediates: after the first, one refresh
    is pending and the flag is clear again; the second is not dropped, and
    two refreshes are pending. *)
Theorem second_trigger_is_queued :
  CachedApi.immediates (snd (CachedApi.app sample_env (sample_post 5) idle))
  = [CachedApi.Call_getBookmarks (Some CachedApi.store_bookmarks)]
  /\ CachedApi.isUpdatingBookmarks
       (snd (CachedApi.app sample_env (sample_post 5) idle)) = false
  /\ CachedApi.immediates
       (snd (CachedApi.app sample_env (sample_post 6)
               (snd (CachedApi.app sample_env (sample_post 5) idle))))
     = [CachedApi.Call_getBookmarks (Some CachedApi.store_bookmarks);
        CachedApi.Call_getBookmarks (Some CachedApi.store_bookmarks)].
Proof. repeat split; vm_compute; reflexivity. Qed.

(** C6. When the storage part of a refresh throws, [getBookmarks] returns
    normally (with the empty list): the error is written to the console, the
    cache [stateBookmarks.items] is exactly what it was, and so are the tables,
    the flag and the queue of immediates; the same holds when the event loop
    runs the refresh.  From there, requests do not write the cache, a further
    failing refresh leaves it again, and a refresh that succeeds replaces
    it. *)
Theorem failed_refresh_keeps_cache (arg : option CachedApi.Ref)
  (w : CachedApi.World) (e : string) (st' : Storage) :
  CachedApi.bookmarksWithTags (CachedApi.storage w) = (Throw e, st') ->
  exists w',
    CachedApi.getBookmarks arg w = (Ok [], w')
    /\ CachedApi.items w' = CachedApi.items w
    /\ CachedApi.console w' = CachedApi.console w ++ [e]
    /\ tables (CachedApi.storage w') = tables (CachedApi.storage w)
    /\ CachedApi.isUpdatingBookmarks w' = CachedApi.isUpdatingBookmarks w
    /\ CachedApi.immediates w' = CachedApi.immediates w
    /\ (forall queued rest,
          CachedApi.items
            (CachedApi.runImmediate
               (CachedApi.with_immediates
                  (CachedApi.Call_getBookmarks queued :: rest) w))
          = CachedApi.items w)
    /\ (forall env req,
          CachedApi.items (snd (CachedApi.app env req w')) = CachedApi.items w)
    /\ (forall a e2 st2,
          CachedApi.bookmarksWithTags (CachedApi.storage w') = (Throw e2, st2) ->
          CachedApi.items (snd (CachedApi.getBookmarks a w')) = CachedApi.items w)
    /\ (forall l st2,
          CachedApi.bookmarksWithTags (CachedApi.storage w') = (Ok l, st2) ->
          CachedApi.items
            (snd (CachedApi.getBookmarks (Some CachedApi.store_bookmarks) w')) = l).
Proof.
  intros E.
  set (w' := CachedApi.with_console (CachedApi.console w ++ [e])
               (CachedApi.with_storage st' w)).
  exists w'. split; [exact (getBookmarks_throw arg w E)|].
  split; [reflexivity|]. split; [reflexivity|].
  split.
  { pose proof (bookmarksWithTags_tables (CachedApi.storage w)) as T.
    rewrite E in T. exact T. }
  split; [reflexivity|]. split; [reflexivity|].
  split.
  { intros queued rest.
    unfold CachedApi.runImmediate. cbn [CachedApi.immediates CachedApi.with_immediates].
    match goal with
    | |- CachedApi.items (snd (CachedApi.getBookmarks queued ?x)) = _ =>
        rewrite (@getBookmarks_throw queued x e st' E)
    end.
    reflexivity. }
  split; [intros env req; now rewrite app_items|].
  split.
  - intros a e2 st2 E2. rewrite (getBookmarks_throw a w' E2). reflexivity.
  - intros l st2 E2.
    rewrite (getBookmarks_ok (Some CachedApi.store_bookmarks) w' E2). reflexivity.
Qed.

Lemma failed_refresh_keeps_cache_witness :
  CachedApi.bookmarksWithTags (CachedApi.storage warm)
  = (Throw "SQLITE_BUSY"%string,
     snd (CachedApi.bookmarksWithTags (CachedApi.storage warm)))
  /\ CachedApi.items warm = [enrich (tables one_bookmark)
                               {| id := 1; name := "rocq"; href := "h0";
                                  finished := false; createdAt := 5; updatedAt := 5 |}]
  /\ exists w',
       CachedApi.getBookmarks (Some CachedApi.store_bookmarks) warm = (Ok [], w')
       /\ CachedApi.items w' = CachedApi.items warm
       /\ CachedApi.console w' = CachedApi.console warm ++ ["SQLITE_BUSY"%string].
Proof.
  assert (E : CachedApi.bookmarksWithTags (CachedApi.storage warm)
              = (Throw "SQLITE_BUSY"%string,
                 snd (CachedApi.bookmarksWithTags (CachedApi.storage warm))))
    by (vm_compute; reflexivity).
  split; [exact E|]. split; [vm_compute; reflexivity|].
  destruct (failed_refresh_keeps_cache (Some CachedApi.store_bookmarks) warm E)
    as (w' & G & I & C & _).
  exists w'. repeat split; assumption.
Defined.

(** ** The two shapes of the cached listing *)

(** C9. In every state the cached revision reaches: without [q] (or with
    [q] empty) the answer is the cache, no statement is run, and each entry
    carries a [tags] array; with a non-empty [q], on an engine that executes
    its statements, the answer comes from one statement, the select on the
    bookmark table with [name LIKE %q%], and none of its entries has [tags].
    An entry of the first kind is never equal to one of the second, and a
    cache built from the tables a filtered answer reads holds each row
    enriched with its tags. *)
Theorem filtered_answer_has_no_tags (env : Env) (st0 : Storage)
  (w : CachedApi.World) (now : Z) :
  CachedApi.reachable env st0 w ->
  (forall q, q = None \/ q = Some ""%string ->
     CachedApi.bookmarks now (CachedApi.GET_ q) w
     = (Ok (Rows (CachedApi.items w)), w))
  /\ Forall has_tags (CachedApi.items w)
  /\ (forall s, s <> ""%string -> healthy (CachedApi.storage w) ->
        exists l w',
          CachedApi.bookmarks now (CachedApi.GET_ (Some s)) w = (Ok (Rows l), w')
          /\ l = map withoutTags
                   (filter (fun x => like (name x) ("%" ++ s ++ "%"))
                      (bookmark (tables (CachedApi.storage w))))
          /\ trace (CachedApi.storage w')
             = trace (CachedApi.storage w)
               ++ [SelectBookmarksWhereNameLike ("%" ++ s ++ "%")]
          /\ Forall (fun x => tags x = None) l)
  /\ (forall x y, has_tags x -> tags y = None -> x <> y)
  /\ (healthy (CachedApi.storage w) ->
        exists w',
          CachedApi.getBookmarks (Some CachedApi.store_bookmarks) w
          = (Ok (map (enrich (tables (CachedApi.storage w)))
                   (bookmark (tables (CachedApi.storage w)))), w')
          /\ CachedApi.items w'
             = map (enrich (tables (CachedApi.storage w)))
                 (bookmark (tables (CachedApi.storage w)))).
Proof.
  intros R. split; [|split; [|split; [|split]]].
  - intros q [->| ->]; reflexivity.
  - exact (reachable_has_tags R).
  - intros s Hs H. cbn [CachedApi.bookmarks]. unfold CachedApi.get_.
    apply String.eqb_neq in Hs. rewrite Hs.
    unfold CachedApi.liftQ, select_bookmarks_like. unfold bind at 1.
    rewrite execute_healthy by assumption. unfold reading, ret; cbn [fst snd].
    do 2 eexists. split; [reflexivity|]. split; [reflexivity|].
    split; [reflexivity|].
    apply Forall_forall. intros x Hx. apply in_map_iff in Hx.
    destruct Hx as (b & <- & _). reflexivity.
  - intros x y (ts & Hx) Hy ->. congruence.
  - intros H. destruct (bookmarksWithTags_healthy H) as (st' & E & _).
    rewrite (getBookmarks_ok (Some CachedApi.store_bookmarks) w E).
    eexists. split; reflexivity.
Qed.

Lemma filtered_answer_has_no_tags_witness :
  CachedApi.reachable sample_env one_bookmark (CachedApi.start one_bookmark)
  /\ "rocq"%string <> ""%string
  /\ healthy (CachedApi.storage (CachedApi.start one_bookmark))
  /\ Forall has_tags (CachedApi.items (CachedApi.start one_bookmark))
  /\ exists l w',
       CachedApi.bookmarks 9 (CachedApi.GET_ (Some "rocq"%string))
         (CachedApi.start one_bookmark) = (Ok (Rows l), w')
       /\ Forall (fun x => tags x = None) l.
Proof.
  assert (R : CachedApi.reachable sample_env one_bookmark (CachedApi.start one_bookmark))
    by constructor.
  assert (N : "rocq"%string <> ""%string) by discriminate.
  assert (H : healthy (CachedApi.storage (CachedApi.start one_bookmark)))
    by (intros k s; reflexivity).
  destruct (filtered_answer_has_no_tags 9 R) as (_ & T & F & _).
  split; [exact R|]. split; [exact N|]. split; [exact H|]. split; [exact T|].
  destruct (F "rocq"%string N H) as (l & w' & E & _ & _ & A).
  exists l, w'. split; assumption.
Defined.

(** ** Supporting facts on the cached revision *)

(** A trigger that is dropped leaves the process as it was. *)
Lemma updateBookmarks_dropped (a : option CachedApi.Ref) (w : CachedApi.World) :
  a = None \/ CachedApi.isUpdatingBookmarks w = true ->
  CachedApi.updateBookmarks a w = (Ok tt, w).
Proof.
  unfold CachedApi.updateBookmarks. intros [->|H]; [reflexivity|].
  destruct a; [now rewrite H|reflexivity].
Qed.

(** The root route is outside the guard. *)
Lemma root_is_open (env : Env) (b : option string) (now : Z) (w : CachedApi.World) :
  CachedApi.app env {| bearer := b; route := Root; clock := now |} w
  = ({| status := 200; headers := []; body := Text "Hello, Elysia!" |}, w).
Proof. reflexivity. Qed.

Lemma runImmediate_healthy (w : CachedApi.World) (arg : option CachedApi.Ref)
  (rest : list CachedApi.Immediate) :
  healthy (CachedApi.storage w) ->
  CachedApi.immediates w = CachedApi.Call_getBookmarks arg :: rest ->
  healthy (CachedApi.storage (CachedApi.runImmediate w))
  /\ tables (CachedApi.storage (CachedApi.runImmediate w))
     = tables (CachedApi.storage w)
  /\ CachedApi.immediates (CachedApi.runImmediate w) = rest
  /\ CachedApi.items (CachedApi.runImmediate w)
     = match arg with
       | Some _ => map (enrich (tables (CachedApi.storage w)))
                     (bookmark (tables (CachedApi.storage w)))
       | None => CachedApi.items w
       end.
Proof.
  intros H Hq. unfold CachedApi.runImmediate. rewrite Hq.
  destruct (bookmarksWithTags_healthy H) as (st' & E & T & H').
  rewrite (@getBookmarks_ok arg (CachedApi.with_immediates rest w) _ st' E).
  destruct arg; cbn; auto.
Qed.

(** Once the queue has been run up to a refresh of the store, the cache is
    the table, row by row, each row with its tags. *)
Lemma runImmediates_refresh (q : list CachedApi.Immediate) (w : CachedApi.World) :
  healthy (CachedApi.storage w) ->
  CachedApi.immediates w
  = q ++ [CachedApi.Call_getBookmarks (Some CachedApi.store_bookmarks)] ->
  CachedApi.items (runImmediates (List.length (CachedApi.immediates w)) w)
  = map (enrich (tables (CachedApi.storage w))) (bookmark (tables (CachedApi.storage w)))
  /\ CachedApi.immediates (runImmediates (List.length (CachedApi.immediates w)) w) = [].
Proof.
  revert w. induction q as [|[arg] q IH]; intros w H Hq; rewrite Hq.
  - cbn [app List.length runImmediates].
    destruct (@runImmediate_healthy w _ _ H Hq) as (_ & _ & Hi & Hit). auto.
  - cbn [app List.length].
    change (runImmediates (S (List.length (q ++ [CachedApi.Call_getBookmarks (Some CachedApi.store_bookmarks)]))) w)
      with (runImmediates (List.length (q ++ [CachedApi.Call_getBookmarks (Some CachedApi.store_bookmarks)]))
              (CachedApi.runImmediate w)).
    destruct (@runImmediate_healthy w _ _ H Hq) as (H' & T & Hi & _).
    specialize (IH (CachedApi.runImmediate w) H' Hi).
    rewrite Hi, T in IH. exact IH.
Qed.

Lemma enrich_in (db : DB) (r : Bookmark) (l : list Bookmark) :
  In (enrich db r) (map (enrich db) l) -> In r l.
Proof.
  intros H. apply in_map_iff in H. destruct H as (x & E & Hx).
  inversion E. now subst.
Qed.

(** Creating through the cached revision: on an engine that executes its
    statements, with the flag clear, POST appends the row; once the event loop
    has run the immediates pending after the request, the unfiltered listing
    ends with that row, enriched, and holds it at no other position. *)
Lemma cached_create_then_list (now : Z) (values : NewBookmark) (w : CachedApi.World) :
  healthy (CachedApi.storage w) ->
  CachedApi.isUpdatingBookmarks w = false ->
  exists w1 r rest,
    CachedApi.bookmarks now (CachedApi.POST_ values) w = (Ok Empty, w1)
    /\ insert_effect now values
         (tables (CachedApi.storage w)) (tables (CachedApi.storage w1)) r
    /\ CachedApi.items w1 = CachedApi.items w
    /\ forall later,
         fst (CachedApi.bookmarks later (CachedApi.GET_ None)
                (runImmediates (List.length (CachedApi.immediates w1)) w1))
         = Ok (Rows (rest ++ [enrich (tables (CachedApi.storage w1)) r]))
         /\ exactly_once (enrich (tables (CachedApi.storage w1)) r)
              (rest ++ [enrich (tables (CachedApi.storage w1)) r]).
Proof.
  intros H F. cbn [CachedApi.bookmarks]. unfold CachedApi.post_.
  destruct (@cached_write (insert_bookmark now values) w _ (execute_healthy _ _ H))
    as (w1 & E & Hs & Hi & _ & _ & Hq).
  specialize (Hq F).
  assert (H1 : healthy (CachedApi.storage w1)) by (rewrite Hs; auto with storage).
  destruct (@runImmediates_refresh _ w1 H1 Hq) as (It & _).
  exists w1, (new_row now (tables (CachedApi.storage w)) values).
  exists (map (enrich (tables (CachedApi.storage w1)))
            (bookmark (tables (CachedApi.storage w)))).
  split; [exact E|]. split; [|split; [exact Hi|]].
  - rewrite Hs. apply sql_insert_effect.
  - intros later. cbn [CachedApi.bookmarks CachedApi.get_ fst].
    rewrite It. split.
    + assert (B : bookmark (tables (CachedApi.storage w1))
                  = bookmark (tables (CachedApi.storage w))
                    ++ [new_row now (tables (CachedApi.storage w)) values])
        by (rewrite Hs; reflexivity).
      rewrite B, map_app. reflexivity.
    + eexists _, []. split; [reflexivity|]. split; [|intros []].
      intros Hin. apply enrich_in in Hin. revert Hin.
      apply fresh_not_in. intros x. apply next_id_fresh.
Qed.

(* ================================================================== *)
(** * Further properties                                               *)
(* ================================================================== *)

(** ** The guard, when it lets a request through *)

Lemma strict_neq_false (a b : option string) : strict_neq a b = false <-> a = b.
Proof.
  destruct a as [x|], b as [y|]; simpl; split; intros H;
    try discriminate; try reflexivity.
  - apply negb_false_iff, String.eqb_eq in H. now subst.
  - inversion H. subst. now rewrite String.eqb_refl.
Qed.

Lemma PtApi_guard_passes_helper (env : Env) (b : option string) :
  (exists t, b = Some t /\ BEARER_TOKEN env = Some t) ->
  PtApi.beforeHandle env b = None.
Proof.
  intros (t & -> & E). unfold PtApi.beforeHandle. cbn [is_undefined orb].
  assert (N : strict_neq (Some t) (BEARER_TOKEN env) = false)
    by (apply strict_neq_false; now rewrite E).
  now rewrite N.
Qed.

Lemma falsy_guard_passes_helper (env : Env) (b : option string) :
  (exists t, t <> ""%string /\ b = Some t /\ BEARER_TOKEN env = Some t) ->
  (if falsy b || strict_neq b (BEARER_TOKEN env) then Some unauthorized else None)
  = None.
Proof.
  intros (t & Ht & -> & E). cbn [falsy].
  apply String.eqb_neq in Ht. rewrite Ht.
  assert (N : strict_neq (Some t) (BEARER_TOKEN env) = false)
    by (apply strict_neq_false; now rewrite E).
  now rewrite N.
Qed.

(** X1. The guard of [src/unnamed/part_000] lets a request through exactly
    when a credential is present and equal to the configured token; in every
    other case its answer is the 400 answer.  An unset token lets nothing
    through. *)
Theorem PtApi_guard_passes_iff (env : Env) (b : option string) :
  (PtApi.beforeHandle env b = None
   <-> exists t, b = Some t /\ BEARER_TOKEN env = Some t)
  /\ (PtApi.beforeHandle env b = None
      \/ PtApi.beforeHandle env b = Some unauthorized)
  /\ PtApi.beforeHandle {| BEARER_TOKEN := None |} b = Some unauthorized.
Proof.
  unfold PtApi.beforeHandle. split; [|split].
  - split.
    + destruct b as [t|]; cbn [is_undefined orb]; [|discriminate].
      destruct (strict_neq (Some t) (BEARER_TOKEN env)) eqn:E; [discriminate|].
      intros _. apply strict_neq_false in E. eauto.
    + intros (t & -> & E). cbn [is_undefined orb].
      assert (N : strict_neq (Some t) (BEARER_TOKEN env) = false)
        by (apply strict_neq_false; now rewrite E).
      now rewrite N.
  - destruct (is_undefined b || strict_neq b (BEARER_TOKEN env)); auto.
  - destruct b; reflexivity.
Qed.

(** X2. The guard of both revisions in [src/src/index.js] lets a request
    through exactly when the credential is a non-empty string equal to the
    configured token: an empty credential is refused even when the configured
    token is the empty string, so with that token no request passes. *)
Theorem falsy_guard_passes_iff (env : Env) (b : option string) :
  SearchApi.beforeHandle env b = CachedApi.beforeHandle env b
  /\ (CachedApi.beforeHandle env b = None
      <-> exists t, t <> ""%string /\ b = Some t /\ BEARER_TOKEN env = Some t)
  /\ CachedApi.beforeHandle {| BEARER_TOKEN := Some ""%string |} b
     = Some unauthorized
  /\ PtApi.beforeHandle {| BEARER_TOKEN := Some ""%string |} (Some ""%string)
     = None.
Proof.
  split; [reflexivity|]. unfold CachedApi.beforeHandle, PtApi.beforeHandle.
  split; [|split].
  - split.
    + destruct b as [t|]; cbn [falsy]; [|discriminate].
      destruct (String.eqb_spec t "") as [->|Ht]; cbn [orb]; [discriminate|].
      destruct (strict_neq (Some t) (BEARER_TOKEN env)) eqn:E; [discriminate|].
      intros _. apply strict_neq_false in E. eauto.
    + intros (t & Ht & -> & E). cbn [falsy].
      apply String.eqb_neq in Ht. rewrite Ht.
      assert (N : strict_neq (Some t) (BEARER_TOKEN env) = false)
        by (apply strict_neq_false; now rewrite E).
      now rewrite N.
  - destruct b as [t|]; cbn [falsy]; [|reflexivity].
    destruct (String.eqb_spec t "") as [->|Ht]; cbn [orb]; [reflexivity|].
    simpl. apply String.eqb_neq in Ht. now rewrite Ht.
  - reflexivity.
Qed.

(** ** One request, at most one write *)

Lemma execute_faulty (A : Type) (s : Stmt) (sem : DB -> A * DB) (st : Storage)
  (e : string) :
  fault st (List.length (trace st)) s = Some e ->
  execute s sem st
  = (Throw e, {| tables := tables st; trace := trace st ++ [s]; fault := fault st |}).
Proof. intros H. unfold execute. now rewrite H. Qed.

(** Splits on the outcome of every statement in the goal. *)
Ltac split_faults :=
  repeat (cbn [fst snd tables trace fault];
          match goal with
          | |- context [match fault ?a ?b ?c with _ => _ end] =>
              destruct (fault a b c)
          end);
  cbn [fst snd tables trace fault].

Ltac open_query :=
  unfold select_bookmarks_desc, select_bookmarks, select_bookmarks_like,
    select_bookmark_by_name, insert_bookmark, update_bookmark_by_id,
    update_bookmark_by_name, update_finished_by_id, delete_bookmark_by_id,
    transaction, control, bind, ret, execute, reading, writing.

Lemma PtApi_write_step (now : Z) (r : BookmarksRoute) (st : Storage) :
  write_step now (tables st) (tables (snd (PtApi.bookmarks now r st))).
Proof.
  destruct r as [q|v|v|i v|i b|i]; cbn [PtApi.bookmarks];
    unfold PtApi.get_, PtApi.getBookmarks, PtApi.post_, PtApi.put_, PtApi.put_id,
      PtApi.put_id_check, PtApi.delete_id; open_query.
  - split_faults; constructor.
  - split_faults; constructor.
  - split_faults; try constructor.
    destruct (find (eq_name (body_name v)) (bookmark (tables st)));
      split_faults; constructor.
  - split_faults; constructor.
  - split_faults; constructor.
  - split_faults; constructor.
Qed.

Lemma SearchApi_write_step (now : Z) (r : BookmarksRoute) (st : Storage) :
  write_step now (tables st) (tables (snd (SearchApi.bookmarks now r st))).
Proof.
  destruct r as [q|v|v|i v|i b|i]; cbn [SearchApi.bookmarks];
    unfold SearchApi.get_, SearchApi.getBookmarks, SearchApi.getBookmarksSearchName,
      SearchApi.post_, SearchApi.put_, SearchApi.put_id,
      SearchApi.put_id_check, SearchApi.delete_id.
  - destruct q as [s|]; [destruct (String.eqb s "");
      [|destruct (String.length (trim s) =? 0)%nat]|];
      open_query; split_faults; constructor.
  - open_query; split_faults; constructor.
  - open_query; split_faults; try constructor.
    destruct (find (eq_name (body_name v)) (bookmark (tables st)));
      split_faults; constructor.
  - open_query; split_faults; constructor.
  - open_query; split_faults; constructor.
  - open_query; split_faults; constructor.
Qed.

Lemma updateBookmarks_storage (a : option CachedApi.Ref) (w : CachedApi.World) :
  CachedApi.storage (snd (CachedApi.updateBookmarks a w)) = CachedApi.storage w.
Proof.
  unfold CachedApi.updateBookmarks. destruct a; [|reflexivity].
  destruct (CachedApi.isUpdatingBookmarks w); reflexivity.
Qed.

(** A write handler of the cached revision, whatever the engine does. *)
Lemma cached_write_any (c : Q unit) (w : CachedApi.World) :
  CachedApi.storage
    (snd ((CachedApi.liftQ c ;;
           CachedApi.updateBookmarks (Some CachedApi.store_bookmarks) ;;
           ret Empty) w))
  = snd (c (CachedApi.storage w)).
Proof.
  unfold bind at 1. unfold CachedApi.liftQ.
  destruct (c (CachedApi.storage w)) as [[u|e] st']; [|reflexivity].
  unfold bind, ret.
  pose proof (updateBookmarks_storage (Some CachedApi.store_bookmarks)
                (CachedApi.with_storage st' w)) as H.
  destruct (CachedApi.updateBookmarks _ _) as [[u'|e'] w']; exact H.
Qed.

Lemma CachedApi_write_step (now : Z) (r : CachedApi.BookmarksRoute)
  (w : CachedApi.World) :
  write_step now (tables (CachedApi.storage w))
    (tables (CachedApi.storage (snd (CachedApi.bookmarks now r w)))).
Proof.
  destruct r as [q|v|i v|i b|i]; cbn [CachedApi.bookmarks];
    unfold CachedApi.post_, CachedApi.put_id, CachedApi.put_id_check,
      CachedApi.delete_id;
    try (rewrite cached_write_any; open_query; split_faults; constructor).
  unfold CachedApi.get_. destruct q as [s|]; [|constructor].
  destruct (String.eqb s ""); [constructor|].
  unfold CachedApi.liftQ. open_query. split_faults; constructor.
Qed.

(** The three applications, request by request. *)
Lemma one_request_one_write_helper :
  (forall env req st,
     write_step (clock req) (tables st) (tables (snd (PtApi.app env req st))))
  /\ (forall env req st,
        write_step (clock req) (tables st) (tables (snd (SearchApi.app env req st))))
  /\ (forall env req w,
        write_step (clock req) (tables (CachedApi.storage w))
          (tables (CachedApi.storage (snd (CachedApi.app env req w))))).
Proof.
  split; [|split].
  - intros env req st. unfold PtApi.app.
    destruct (route req) as [|r]; [constructor|].
    destruct (PtApi.beforeHandle env (bearer req)); [constructor|].
    pose proof (PtApi_write_step (clock req) r st) as H.
    destruct (PtApi.bookmarks (clock req) r st). exact H.
  - intros env req st. unfold SearchApi.app.
    destruct (route req) as [|r]; [constructor|].
    destruct (SearchApi.beforeHandle env (bearer req)); [constructor|].
    pose proof (SearchApi_write_step (clock req) r st) as H.
    destruct (SearchApi.bookmarks (clock req) r st). exact H.
  - intros env req w. unfold CachedApi.app.
    destruct (route req) as [|r]; [constructor|].
    destruct (CachedApi.beforeHandle env (bearer req)); [constructor|].
    pose proof (CachedApi_write_step (clock req) r w) as H.
    destruct (CachedApi.bookmarks (clock req) r w). exact H.
Qed.

(** X3. Whatever the engine does (statements may throw at any point), one
    request to a bookmark route changes the tables by at most one INSERT,
    UPDATE or DELETE on `bookmark`, in each revision; a GET changes nothing,
    and neither does a request the guard refuses. *)
Theorem one_request_one_write :
  (forall env req st,
     write_step (clock req) (tables st) (tables (snd (PtApi.app env req st))))
  /\ (forall env req st,
        write_step (clock req) (tables st) (tables (snd (SearchApi.app env req st))))
  /\ (forall env req w,
        write_step (clock req) (tables (CachedApi.storage w))
          (tables (CachedApi.storage (snd (CachedApi.app env req w)))))
  /\ (forall now q st,
        tables (snd (PtApi.bookmarks now (GET_ q) st)) = tables st
        /\ tables (snd (SearchApi.bookmarks now (GET_ q) st)) = tables st)
  /\ (forall now q w,
        tables (CachedApi.storage (snd (CachedApi.bookmarks now (CachedApi.GET_ q) w)))
        = tables (CachedApi.storage w)).
Proof.
  destruct one_request_one_write_helper as (HP & HS & HC).
  split; [exact HP|]. split; [exact HS|]. split; [exact HC|]. split.
  - intros now q st. split.
    + cbn [PtApi.bookmarks]. unfold PtApi.get_, PtApi.getBookmarks.
      open_query. split_faults; reflexivity.
    + cbn [SearchApi.bookmarks].
      unfold SearchApi.get_, SearchApi.getBookmarks, SearchApi.getBookmarksSearchName.
      destruct q as [s|]; [destruct (String.eqb s "");
        [|destruct (String.length (trim s) =? 0)%nat]|];
        open_query; split_faults; reflexivity.
  - intros now q w. cbn [CachedApi.bookmarks]. unfold CachedApi.get_.
    destruct q as [s|]; [|reflexivity].
    destruct (String.eqb s ""); [reflexivity|].
    unfold CachedApi.liftQ. open_query. split_faults; reflexivity.
Qed.

(** ** Ids and creation times *)

Lemma map_id_update (c : Bookmark -> bool) (f : Bookmark -> Bookmark)
  (l : list Bookmark) :
  (forall r, id (f r) = id r) ->
  map id (map (fun r => if c r then f r else r) l) = map id l.
Proof.
  intros Hf. rewrite map_map. apply map_ext. intros r.
  destruct (c r); [apply Hf|reflexivity].
Qed.

Lemma filter_keeps_distinct_ids (keep : Bookmark -> bool) (rows : list Bookmark) :
  NoDup (map id rows) -> NoDup (map id (filter keep rows)).
Proof.
  intros H. induction rows as [|a rows IH]; [constructor|].
  cbn [map] in H. apply NoDup_cons_iff in H. destruct H as (Hn & Hd).
  cbn [filter]. destruct (keep a); [|now apply IH].
  cbn [map]. apply NoDup_cons_iff. split; [|now apply IH].
  intros Hin. apply Hn. apply in_map_iff in Hin. destruct Hin as (y & E & Hy).
  apply filter_In in Hy. rewrite <- E. apply in_map. tauto.
Qed.

Lemma update_keeps_ids (c : Bookmark -> bool) (f : Bookmark -> Bookmark) (db : DB) :
  (forall r, id (f r) = id r) ->
  ids_ok db -> ids_ok (sql_update c f db).
Proof.
  intros Hf (Hn & Hb). unfold ids_ok, sql_update, set_bookmark. cbn [bookmark bookmark_seq].
  split; [now rewrite map_id_update|].
  intros r' Hr'. apply in_map_iff in Hr'. destruct Hr' as (r & <- & Hr).
  destruct (c r); [rewrite Hf|]; now apply Hb.
Qed.

Lemma write_step_ids_ok (now : Z) (db db' : DB) :
  write_step now db db' -> ids_ok db -> ids_ok db'.
Proof.
  intros [ |v|v i|v n|b i|i] H; trivial;
    try (apply update_keeps_ids; [reflexivity|exact H]).
  - destruct H as (Hn & Hb). unfold ids_ok, sql_insert. cbn [bookmark bookmark_seq].
    split.
    + rewrite map_app. cbn [map].
      apply Permutation_NoDup with (l := id (new_row now db v) :: map id (bookmark db));
        [apply Permutation_cons_append|].
      constructor; [|exact Hn].
      intros Hin. apply in_map_iff in Hin. destruct Hin as (r & E & Hr).
      apply next_id_fresh in Hr. cbn [id new_row] in E. lia.
    + intros r Hr. apply in_app_or in Hr. destruct Hr as [Hr|[<-|[]]].
      * specialize (Hb r Hr). unfold next_id. lia.
      * cbn [id new_row]. unfold next_id.
        assert (0 <= max_id (bookmark db)).
        { clear. induction (bookmark db) as [|a l IH]; simpl; lia. }
        lia.
  - destruct H as (Hn & Hb). unfold ids_ok, sql_delete, set_bookmark.
    cbn [bookmark bookmark_seq]. split; [now apply filter_keeps_distinct_ids|].
    intros r Hr. apply filter_In in Hr. now apply Hb.
Qed.



Lemma write_step_keeps_rows (now : Z) (db db' : DB) :
  write_step now db db' ->
  forall r', In r' (bookmark db') ->
    (exists r, In r (bookmark db) /\ id r' = id r /\ createdAt r' = createdAt r)
    \/ (forall r, In r (bookmark db) -> id r < id r').
Proof.
  assert (U : forall c f,
             (forall r, id (f r) = id r /\ createdAt (f r) = createdAt r) ->
             forall r', In r' (bookmark (sql_update c f db)) ->
               exists r, In r (bookmark db) /\ id r' = id r
                         /\ createdAt r' = createdAt r).
  { intros c f Hf r' Hr'. unfold sql_update, set_bookmark in Hr'. cbn [bookmark] in Hr'.
    apply in_map_iff in Hr'. destruct Hr' as (r & <- & Hr). exists r.
    split; [exact Hr|]. destruct (c r); [apply Hf|split; reflexivity]. }
  intros [ |v|v i|v n|b i|i] r' Hr'.
  - left. exists r'. auto.
  - cbn [sql_insert bookmark] in Hr'. apply in_app_or in Hr'.
    destruct Hr' as [Hr'|[<-|[]]].
    + left. exists r'. auto.
    + right. intros r. apply next_id_fresh.
  - left. apply U with (2 := Hr'). intros r; split; reflexivity.
  - left. apply U with (2 := Hr'). intros r; split; reflexivity.
  - left. apply U with (2 := Hr'). intros r; split; reflexivity.
  - left. unfold sql_delete, set_bookmark in Hr'. cbn [bookmark] in Hr'.
    apply filter_In in Hr'. exists r'. tauto.
Qed.

(** X5. No request changes the id or the creation time of a stored
    bookmark: in each revision, every row found after a request either has
    the id and createdAt of a row that was there before, or is a new row whose
    id is above every id the table held.  No update route can rewrite id or
    createdAt, whatever the engine does. *)
Theorem id_and_createdAt_are_kept :
  (forall env req st r',
     In r' (bookmark (tables (snd (PtApi.app env req st)))) ->
     (exists r, In r (bookmark (tables st))
                /\ id r' = id r /\ createdAt r' = createdAt r)
     \/ (forall r, In r (bookmark (tables st)) -> id r < id r'))
  /\ (forall env req st r',
        In r' (bookmark (tables (snd (SearchApi.app env req st)))) ->
        (exists r, In r (bookmark (tables st))
                   /\ id r' = id r /\ createdAt r' = createdAt r)
        \/ (forall r, In r (bookmark (tables st)) -> id r < id r'))
  /\ (forall env req w r',
        In r' (bookmark (tables (CachedApi.storage (snd (CachedApi.app env req w))))) ->
        (exists r, In r (bookmark (tables (CachedApi.storage w)))
                   /\ id r' = id r /\ createdAt r' = createdAt r)
        \/ (forall r, In r (bookmark (tables (CachedApi.storage w))) -> id r < id r')).
Proof.
  destruct one_request_one_write_helper as (HP & HS & HC).
  split; [|split].
  - intros env req st. apply write_step_keeps_rows with (1 := HP env req st).
  - intros env req st. apply write_step_keeps_rows with (1 := HS env req st).
  - intros env req w. apply write_step_keeps_rows with (1 := HC env req w).
Qed.

Lemma id_and_createdAt_are_kept_witness :
  In {| id := 1; name := "rocq"; href := "h9"; finished := false;
        createdAt := 5; updatedAt := 9 |}
     (bookmark (tables (snd (PtApi.app sample_env
                               (authorised "s3cret" (PUT_id 1 (sample_body "h9")) 9)
                               one_bookmark))))
  /\ ((exists r, In r (bookmark (tables one_bookmark))
                 /\ 1 = id r /\ 5 = createdAt r)
      \/ (forall r, In r (bookmark (tables one_bookmark)) -> id r < 1)).
Proof.
  assert (H : In {| id := 1; name := "rocq"; href := "h9"; finished := false;
                    createdAt := 5; updatedAt := 9 |}
                (bookmark (tables (snd (PtApi.app sample_env
                    (authorised "s3cret" (PUT_id 1 (sample_body "h9")) 9)
                    one_bookmark)))))
    by (left; reflexivity).
  split; [exact H|].
  exact (proj1 id_and_createdAt_are_kept sample_env _ one_bookmark _ H).
Defined.

(** X6. AUTOINCREMENT does not hand out an id again: on an engine that
    executes its statements and tables with well-formed ids, deleting a stored
    bookmark and then creating one gives the new row an id above the deleted
    one (and above every id left), and no row carries the deleted id. *)
Theorem deleted_id_is_not_reused (now later : Z) (values : NewBookmark)
  (st : Storage) (r0 : Bookmark) :
  healthy st -> ids_ok (tables st) -> In r0 (bookmark (tables st)) ->
  exists st1 st2 r,
    PtApi.bookmarks now (DELETE_id (id r0)) st = (Ok Empty, st1)
    /\ PtApi.bookmarks later (POST_ values) st1 = (Ok Empty, st2)
    /\ ~ In (id r0) (map id (bookmark (tables st1)))
    /\ bookmark (tables st2) = bookmark (tables st1) ++ [r]
    /\ id r0 < id r
    /\ (forall x, In x (bookmark (tables st1)) -> id x < id r).
Proof.
  intros H (Hn & Hb) Hr0.
  do 3 eexists. split; [|split; [|split; [|split; [|split]]]].
  - cbn [PtApi.bookmarks]. unfold PtApi.delete_id, delete_bookmark_by_id.
    run_healthy H. reflexivity.
  - cbn [PtApi.bookmarks]. unfold PtApi.post_, insert_bookmark.
    run_healthy H. reflexivity.
  - cbn [tables sql_delete set_bookmark bookmark]. intros Hin.
    apply in_map_iff in Hin. destruct Hin as (x & E & Hx).
    apply filter_In in Hx. destruct Hx as (_ & Hx).
    unfold eq_id in Hx. apply negb_true_iff, Z.eqb_neq in Hx. contradiction.
  - reflexivity.
  - cbn [id new_row]. unfold next_id. cbn [tables sql_delete set_bookmark bookmark_seq].
    specialize (Hb r0 Hr0). lia.
  - intros x. apply next_id_fresh.
Qed.

Lemma deleted_id_is_not_reused_witness :
  healthy one_bookmark
  /\ ids_ok (tables one_bookmark)
  /\ In {| id := 1; name := "rocq"; href := "h0"; finished := false;
           createdAt := 5; updatedAt := 5 |} (bookmark (tables one_bookmark))
  /\ exists st1 st2 r,
       PtApi.bookmarks 6 (DELETE_id 1) one_bookmark = (Ok Empty, st1)
       /\ PtApi.bookmarks 7 (POST_ (sample_body "h1")) st1 = (Ok Empty, st2)
       /\ bookmark (tables st2) = bookmark (tables st1) ++ [r]
       /\ 1 < id r.
Proof.
  assert (H : healthy one_bookmark) by (intros k s; reflexivity).
  assert (I : ids_ok (tables one_bookmark)).
  { split; [repeat constructor; intros []|].
    intros r [<-|[]]. vm_compute. split; [reflexivity|discriminate]. }
  assert (R : In {| id := 1; name := "rocq"; href := "h0"; finished := false;
                    createdAt := 5; updatedAt := 5 |} (bookmark (tables one_bookmark)))
    by (left; reflexivity).
  split; [exact H|]. split; [exact I|]. split; [exact R|].
  destruct (@deleted_id_is_not_reused 6 7 (sample_body "h1") one_bookmark _ H I R)
    as (st1 & st2 & r & E1 & E2 & _ & B & L & _).
  exists st1, st2, r. repeat split; assumption.
Defined.

(** ** Authorised requests *)

Lemma PtApi_healthy_ok (now : Z) (r : BookmarksRoute) (st : Storage) :
  healthy st -> exists b, fst (PtApi.bookmarks now r st) = Ok b.
Proof.
  intros H. destruct r as [q|v|v|i v|i b|i].
  - cbn [PtApi.bookmarks]. unfold PtApi.get_, PtApi.getBookmarks, select_bookmarks_desc.
    run_healthy H. eexists; reflexivity.
  - cbn [PtApi.bookmarks]. unfold PtApi.post_, insert_bookmark.
    run_healthy H. eexists; reflexivity.
  - destruct (PtApi_put_healthy now v H) as (st' & E & _). rewrite E.
    eexists; reflexivity.
  - cbn [PtApi.bookmarks]. unfold PtApi.put_id, update_bookmark_by_id.
    run_healthy H. eexists; reflexivity.
  - cbn [PtApi.bookmarks]. unfold PtApi.put_id_check, update_finished_by_id.
    run_healthy H. eexists; reflexivity.
  - cbn [PtApi.bookmarks]. unfold PtApi.delete_id, delete_bookmark_by_id.
    run_healthy H. eexists; reflexivity.
Qed.

Lemma SearchApi_healthy_ok (now : Z) (r : BookmarksRoute) (st : Storage) :
  healthy st -> exists b, fst (SearchApi.bookmarks now r st) = Ok b.
Proof.
  intros H. destruct r as [q|v|v|i v|i b|i].
  - cbn [SearchApi.bookmarks].
    unfold SearchApi.get_, SearchApi.getBookmarks, SearchApi.getBookmarksSearchName,
      select_bookmarks, select_bookmarks_like.
    destruct q as [s|]; [destruct (String.eqb s "");
      [|destruct (String.length (trim s) =? 0)%nat]|];
      run_healthy H; eexists; reflexivity.
  - cbn [SearchApi.bookmarks]. unfold SearchApi.post_, insert_bookmark.
    run_healthy H. eexists; reflexivity.
  - destruct (SearchApi_put_healthy now v H) as (st' & E & _). rewrite E.
    eexists; reflexivity.
  - cbn [SearchApi.bookmarks]. unfold SearchApi.put_id, update_bookmark_by_id.
    run_healthy H. eexists; reflexivity.
  - cbn [SearchApi.bookmarks]. unfold SearchApi.put_id_check, update_finished_by_id.
    run_healthy H. eexists; reflexivity.
  - cbn [SearchApi.bookmarks]. unfold SearchApi.delete_id, delete_bookmark_by_id.
    run_healthy H. eexists; reflexivity.
Qed.

Lemma CachedApi_healthy_ok (now : Z) (r : CachedApi.BookmarksRoute)
  (w : CachedApi.World) :
  healthy (CachedApi.storage w) ->
  exists b, fst (CachedApi.bookmarks now r w) = Ok b.
Proof.
  intros H. destruct r as [q|v|i v|i b|i]; cbn [CachedApi.bookmarks].
  - unfold CachedApi.get_. destruct q as [s|]; [|eexists; reflexivity].
    destruct (String.eqb s ""); [eexists; reflexivity|].
    unfold CachedApi.liftQ, select_bookmarks_like. unfold bind at 1.
    rewrite execute_healthy by assumption. eexists; reflexivity.
  - destruct (@cached_write (insert_bookmark now v) w _ (execute_healthy _ _ H))
      as (w' & E & _).
    unfold CachedApi.post_. rewrite E. eexists; reflexivity.
  - destruct (@cached_write (update_bookmark_by_id now v i) w _ (execute_healthy _ _ H))
      as (w' & E & _).
    unfold CachedApi.put_id. rewrite E. eexists; reflexivity.
  - destruct (@cached_write (update_finished_by_id now b i) w _ (execute_healthy _ _ H))
      as (w' & E & _).
    unfold CachedApi.put_id_check. rewrite E. eexists; reflexivity.
  - destruct (@cached_write (delete_bookmark_by_id i) w _ (execute_healthy _ _ H))
      as (w' & E & _).
    unfold CachedApi.delete_id. rewrite E. eexists; reflexivity.
Qed.

Lemma respond_ok (r : Result Body) (b : Body) :
  r = Ok b -> respond r = {| status := 200; headers := []; body := b |}.
Proof. intros ->. reflexivity. Qed.

(** X7. A request that carries the configured token (non-empty, for the
    revisions of [src/src/index.js]) reaches the route's handler, and on an
    engine that executes its statements every bookmark route of every revision
    answers with status 200 and no extra header. *)
Theorem authorised_request_answers_200 (env : Env) (t : string) (now : Z) :
  BEARER_TOKEN env = Some t ->
  (forall r st,
     healthy st ->
     exists b,
       fst (PtApi.app env (authorised t r now) st)
       = {| status := 200; headers := []; body := b |}
       /\ fst (PtApi.bookmarks now r st) = Ok b
       /\ snd (PtApi.app env (authorised t r now) st)
          = snd (PtApi.bookmarks now r st))
  /\ (t <> ""%string ->
      (forall r st,
         healthy st ->
         exists b,
           fst (SearchApi.app env (authorised t r now) st)
           = {| status := 200; headers := []; body := b |}
           /\ fst (SearchApi.bookmarks now r st) = Ok b
           /\ snd (SearchApi.app env (authorised t r now) st)
              = snd (SearchApi.bookmarks now r st))
      /\ (forall r w,
            healthy (CachedApi.storage w) ->
            exists b,
              fst (CachedApi.app env (authorised t r now) w)
              = {| status := 200; headers := []; body := b |}
              /\ fst (CachedApi.bookmarks now r w) = Ok b
              /\ snd (CachedApi.app env (authorised t r now) w)
                 = snd (CachedApi.bookmarks now r w))).
Proof.
  intros E. split; [|intros Ht; split].
  - intros r st H. destruct (PtApi_healthy_ok now r H) as (b & Hb). exists b.
    unfold PtApi.app, authorised. cbn [route bearer clock].
    assert (G : PtApi.beforeHandle env (Some t) = None)
      by (apply PtApi_guard_passes_helper; eauto).
    rewrite G. destruct (PtApi.bookmarks now r st) as [res st']. cbn [fst snd] in *.
    subst res. auto.
  - intros r st H. destruct (SearchApi_healthy_ok now r H) as (b & Hb). exists b.
    unfold SearchApi.app, authorised. cbn [route bearer clock].
    assert (G : SearchApi.beforeHandle env (Some t) = None)
      by (apply falsy_guard_passes_helper; eauto).
    rewrite G. destruct (SearchApi.bookmarks now r st) as [res st']. cbn [fst snd] in *.
    subst res. auto.
  - intros r w H. destruct (CachedApi_healthy_ok now r w H) as (b & Hb). exists b.
    unfold CachedApi.app, authorised. cbn [route bearer clock].
    assert (G : CachedApi.beforeHandle env (Some t) = None)
      by (apply falsy_guard_passes_helper; eauto).
    rewrite G. destruct (CachedApi.bookmarks now r w) as [res w']. cbn [fst snd] in *.
    subst res. auto.
Qed.

Lemma authorised_request_answers_200_witness :
  BEARER_TOKEN sample_env = Some "s3cret"%string
  /\ healthy one_bookmark
  /\ exists b,
       fst (PtApi.app sample_env (authorised "s3cret" (PUT_id_check 1 true) 9)
              one_bookmark)
       = {| status := 200; headers := []; body := b |}.
Proof.
  assert (E : BEARER_TOKEN sample_env = Some "s3cret"%string) by reflexivity.
  assert (H : healthy one_bookmark) by (intros k s; reflexivity).
  split; [exact E|]. split; [exact H|].
  destruct (proj1 (@authorised_request_answers_200 sample_env "s3cret" 9 E)
              (PUT_id_check 1 true) one_bookmark H) as (b & R & _).
  exists b. exact R.
Defined.

(** ** When the engine fails *)

Ltac run_faulty Hf :=
  repeat (unfold bind, ret, transaction, control; cbn [fst snd]);
  repeat (rewrite execute_faulty with (1 := Hf _); cbn [fst snd]).

Lemma cached_write_faulty (c : Q unit) (w : CachedApi.World) (e : string)
  (st' : Storage) :
  c (CachedApi.storage w) = (Throw e, st') ->
  (CachedApi.liftQ c ;;
   CachedApi.updateBookmarks (Some CachedApi.store_bookmarks) ;;
   ret Empty) w
  = (Throw e, CachedApi.with_storage st' w).
Proof.
  intros E. unfold bind at 1. unfold CachedApi.liftQ. now rewrite E.
Qed.

(** X8. When the engine throws on the next statement it is given, every
    write request fails with that error (status 500 with the error text) and
    leaves the tables as they were; in the cached revision the handler stops
    before [updateBookmarks]: no refresh is queued and the cache is not
    written. *)
Theorem failing_statement_fails_the_request (now : Z) (e : string) :
  (forall r st,
     (forall s, fault st (List.length (trace st)) s = Some e) ->
     fst (PtApi.bookmarks now r st) = Throw e
     /\ respond (fst (PtApi.bookmarks now r st))
        = {| status := 500; headers := []; body := Text e |}
     /\ tables (snd (PtApi.bookmarks now r st)) = tables st)
  /\ (forall r st,
        (forall s, fault st (List.length (trace st)) s = Some e) ->
        (forall q, r <> GET_ q) ->
        fst (SearchApi.bookmarks now r st) = Throw e
        /\ tables (snd (SearchApi.bookmarks now r st)) = tables st)
  /\ (forall r w,
        (forall s, fault (CachedApi.storage w)
                     (List.length (trace (CachedApi.storage w))) s = Some e) ->
        is_write r = true ->
        fst (CachedApi.bookmarks now r w) = Throw e
        /\ tables (CachedApi.storage (snd (CachedApi.bookmarks now r w)))
           = tables (CachedApi.storage w)
        /\ CachedApi.immediates (snd (CachedApi.bookmarks now r w))
           = CachedApi.immediates w
        /\ CachedApi.items (snd (CachedApi.bookmarks now r w)) = CachedApi.items w).
Proof.
  split; [|split].
  - intros r st Hf.
    assert (G : fst (PtApi.bookmarks now r st) = Throw e
                /\ tables (snd (PtApi.bookmarks now r st)) = tables st).
    { destruct r as [q|v|v|i v|i b|i]; cbn [PtApi.bookmarks];
        unfold PtApi.get_, PtApi.getBookmarks, PtApi.post_, PtApi.put_, PtApi.put_id,
          PtApi.put_id_check, PtApi.delete_id, select_bookmarks_desc, insert_bookmark,
          update_bookmark_by_id, update_finished_by_id, delete_bookmark_by_id;
        run_faulty Hf; split; reflexivity. }
    destruct G as (G1 & G2). rewrite G1. repeat split. exact G2.
  - intros r st Hf Hr.
    destruct r as [q|v|v|i v|i b|i]; [now elim (Hr q)|..]; cbn [SearchApi.bookmarks];
      unfold SearchApi.post_, SearchApi.put_, SearchApi.put_id,
        SearchApi.put_id_check, SearchApi.delete_id, insert_bookmark,
        update_bookmark_by_id, update_finished_by_id, delete_bookmark_by_id;
      run_faulty Hf; split; reflexivity.
  - intros r w Hf Hr.
    destruct r as [q|v|i v|i b|i]; [discriminate|..]; cbn [CachedApi.bookmarks];
      unfold CachedApi.post_, CachedApi.put_id, CachedApi.put_id_check,
        CachedApi.delete_id;
      erewrite cached_write_faulty
        by (unfold insert_bookmark, update_bookmark_by_id, update_finished_by_id,
              delete_bookmark_by_id; apply execute_faulty, Hf);
      repeat split; reflexivity.
Qed.

Lemma failing_statement_fails_the_request_witness :
  (forall s, fault (CachedApi.storage warm)
               (List.length (trace (CachedApi.storage warm))) s
             = Some "SQLITE_BUSY"%string)
  /\ is_write (CachedApi.POST_ (sample_body "h1")) = true
  /\ fst (CachedApi.bookmarks 9 (CachedApi.POST_ (sample_body "h1")) warm)
     = Throw "SQLITE_BUSY"%string
  /\ CachedApi.immediates
       (snd (CachedApi.bookmarks 9 (CachedApi.POST_ (sample_body "h1")) warm))
     = CachedApi.immediates warm.
Proof.
  assert (Hf : forall s, fault (CachedApi.storage warm)
                           (List.length (trace (CachedApi.storage warm))) s
                         = Some "SQLITE_BUSY"%string)
    by (intros s; reflexivity).
  assert (Hw : is_write (CachedApi.POST_ (sample_body "h1")) = true) by reflexivity.
  split; [exact Hf|]. split; [exact Hw|].
  destruct (proj2 (proj2 (failing_statement_fails_the_request 9 "SQLITE_BUSY"))
              (CachedApi.POST_ (sample_body "h1")) warm Hf Hw) as (A & _ & B & _).
  split; assumption.
Defined.

(** ** The full update, [PUT /bookmarks/:id] *)

Lemma map_unchanged (A : Type) (f : A -> A) (l : list A) :
  (forall x, In x l -> f x = x) -> map f l = l.
Proof.
  induction l as [|a l IH]; simpl; intros H; [reflexivity|].
  rewrite H by now left. f_equal. apply IH. intros x Hx. apply H. now right.
Qed.

Lemma sql_update_absent (i : Z) (f : Bookmark -> Bookmark) (db : DB) :
  ~ In i (map id (bookmark db)) -> sql_update (eq_id i) f db = db.
Proof.
  intros H. unfold sql_update. rewrite map_unchanged; [apply set_bookmark_same|].
  intros x Hx. unfold eq_id. destruct (Z.eqb_spec (id x) i) as [E|]; [|reflexivity].
  elim H. rewrite <- E. now apply in_map.
Qed.

Lemma sql_update_by_id_effect (now i : Z) (values : NewBookmark) (db : DB) :
  update_by_id_effect now i values db
    (sql_update (eq_id i) (set_body now values) db).
Proof.
  unfold update_by_id_effect, sql_update, set_bookmark. cbn.
  repeat split.
  - apply length_map.
  - intros k r Hk. eexists. split.
    + apply nth_error_map_some with (1 := Hk).
    + unfold eq_id. split.
      * intros E. apply Z.eqb_eq in E. rewrite E. cbn. repeat split.
      * intros N. apply Z.eqb_neq in N. rewrite N. reflexivity.
Qed.

(** The three handlers of PUT /bookmarks/:id leave the same tables. *)
Lemma put_id_healthy (now i : Z) (values : NewBookmark) :
  (forall st, healthy st ->
     exists st',
       PtApi.bookmarks now (PUT_id i values) st = (Ok Empty, st')
       /\ tables st' = sql_update (eq_id i) (set_body now values) (tables st)
       /\ healthy st')
  /\ (forall st, healthy st ->
        exists st',
          SearchApi.bookmarks now (PUT_id i values) st = (Ok Empty, st')
          /\ tables st' = sql_update (eq_id i) (set_body now values) (tables st)
          /\ healthy st')
  /\ (forall w, healthy (CachedApi.storage w) ->
        exists w',
          CachedApi.bookmarks now (CachedApi.PUT_id i values) w = (Ok Empty, w')
          /\ tables (CachedApi.storage w')
             = sql_update (eq_id i) (set_body now values)
                 (tables (CachedApi.storage w))
          /\ healthy (CachedApi.storage w')
          /\ CachedApi.items w' = CachedApi.items w
          /\ CachedApi.isUpdatingBookmarks w' = CachedApi.isUpdatingBookmarks w).
Proof.
  split; [|split].
  - intros st H. eexists. split; [|split].
    + cbn [PtApi.bookmarks]. unfold PtApi.put_id, update_bookmark_by_id.
      run_healthy H. reflexivity.
    + reflexivity.
    + auto with storage.
  - intros st H. eexists. split; [|split].
    + cbn [SearchApi.bookmarks]. unfold SearchApi.put_id, update_bookmark_by_id.
      run_healthy H. reflexivity.
    + reflexivity.
    + auto with storage.
  - intros w H. cbn [CachedApi.bookmarks]. unfold CachedApi.put_id.
    destruct (@cached_write (update_bookmark_by_id now values i) w _
                (execute_healthy _ _ H)) as (w' & E & Hs & Hi & _ & Hfl & _).
    exists w'. split; [exact E|]. rewrite Hs. cbn [tables].
    split; [reflexivity|]. split; [auto with storage|]. split; assumption.
Qed.

(** X9. A full update of an id that no row carries succeeds and changes no
    table, in each revision: the statement matches nothing, and no
    "not found" is reported. *)
Theorem update_absent_id_is_noop (now i : Z) (values : NewBookmark) :
  (forall st, healthy st -> ~ In i (map id (bookmark (tables st))) ->
     exists st',
       PtApi.bookmarks now (PUT_id i values) st = (Ok Empty, st')
       /\ tables st' = tables st)
  /\ (forall st, healthy st -> ~ In i (map id (bookmark (tables st))) ->
        exists st',
          SearchApi.bookmarks now (PUT_id i values) st = (Ok Empty, st')
          /\ tables st' = tables st)
  /\ (forall w, healthy (CachedApi.storage w) ->
        ~ In i (map id (bookmark (tables (CachedApi.storage w)))) ->
        exists w',
          CachedApi.bookmarks now (CachedApi.PUT_id i values) w = (Ok Empty, w')
          /\ tables (CachedApi.storage w') = tables (CachedApi.storage w)).
Proof.
  destruct (put_id_healthy now i values) as (HP & HS & HC).
  split; [|split].
  - intros st H Hi. destruct (HP st H) as (st' & E & T & _).
    exists st'. split; [exact E|]. rewrite T. now apply sql_update_absent.
  - intros st H Hi. destruct (HS st H) as (st' & E & T & _).
    exists st'. split; [exact E|]. rewrite T. now apply sql_update_absent.
  - intros w H Hi. destruct (HC w H) as (w' & E & T & _).
    exists w'. split; [exact E|]. rewrite T. now apply sql_update_absent.
Qed.

Lemma update_absent_id_is_noop_witness :
  healthy one_bookmark
  /\ ~ In 7 (map id (bookmark (tables one_bookmark)))
  /\ exists st',
       PtApi.bookmarks 9 (PUT_id 7 (sample_body "h9")) one_bookmark = (Ok Empty, st')
       /\ tables st' = tables one_bookmark.
Proof.
  assert (H : healthy one_bookmark) by (intros k s; reflexivity).
  assert (N : ~ In 7 (map id (bookmark (tables one_bookmark))))
    by (intros [E|[]]; discriminate E).
  split; [exact H|]. split; [exact N|].
  exact (proj1 (update_absent_id_is_noop 9 7 (sample_body "h9")) one_bookmark H N).
Defined.

(** X10. The full update rewrites the table in place, in each revision: a
    row with the id gets the name and href of the body and the clock reading
    as updatedAt, and keeps its id, finished and createdAt; every other row,
    the other tables and the sequence value are unchanged. *)
Theorem update_by_id_replaces_name_and_href (now i : Z) (values : NewBookmark) :
  (forall st, healthy st ->
     exists st',
       PtApi.bookmarks now (PUT_id i values) st = (Ok Empty, st')
       /\ update_by_id_effect now i values (tables st) (tables st'))
  /\ (forall st, healthy st ->
        exists st',
          SearchApi.bookmarks now (PUT_id i values) st = (Ok Empty, st')
          /\ update_by_id_effect now i values (tables st) (tables st'))
  /\ (forall w, healthy (CachedApi.storage w) ->
        exists w',
          CachedApi.bookmarks now (CachedApi.PUT_id i values) w = (Ok Empty, w')
          /\ update_by_id_effect now i values
               (tables (CachedApi.storage w)) (tables (CachedApi.storage w'))).
Proof.
  destruct (put_id_healthy now i values) as (HP & HS & HC).
  split; [|split].
  - intros st H. destruct (HP st H) as (st' & E & T & _).
    exists st'. split; [exact E|]. rewrite T. apply sql_update_by_id_effect.
  - intros st H. destruct (HS st H) as (st' & E & T & _).
    exists st'. split; [exact E|]. rewrite T. apply sql_update_by_id_effect.
  - intros w H. destruct (HC w H) as (w' & E & T & _).
    exists w'. split; [exact E|]. rewrite T. apply sql_update_by_id_effect.
Qed.

Lemma update_by_id_replaces_name_and_href_witness :
  healthy one_bookmark
  /\ exists st',
       PtApi.bookmarks 9 (PUT_id 1 (sample_body "h9")) one_bookmark = (Ok Empty, st')
       /\ update_by_id_effect 9 1 (sample_body "h9") (tables one_bookmark) (tables st').
Proof.
  assert (H : healthy one_bookmark) by (intros k s; reflexivity).
  split; [exact H|].
  exact (proj1 (update_by_id_replaces_name_and_href 9 1 (sample_body "h9"))
           one_bookmark H).
Defined.

Lemma sql_update_twice (i t1 t2 : Z) (v1 v2 : NewBookmark) (db : DB) :
  sql_update (eq_id i) (set_body t2 v2) (sql_update (eq_id i) (set_body t1 v1) db)
  = sql_update (eq_id i) (set_body t2 v2) db.
Proof.
  unfold sql_update, set_bookmark. cbn [bookmark tag bookmarkTag bookmark_seq].
  f_equal. rewrite map_map. apply map_ext. intros r. unfold eq_id.
  destruct (id r =? i) eqn:E; cbn [id set_body]; rewrite E; reflexivity.
Qed.

(** X11. Last write wins: two full updates of one id, one after the other,
    leave the tables exactly as the second alone would have, in each
    revision. *)
Theorem update_by_id_last_write_wins (t1 t2 i : Z) (v1 v2 : NewBookmark) :
  (forall st, healthy st ->
     tables (snd (PtApi.bookmarks t2 (PUT_id i v2)
                    (snd (PtApi.bookmarks t1 (PUT_id i v1) st))))
     = tables (snd (PtApi.bookmarks t2 (PUT_id i v2) st)))
  /\ (forall st, healthy st ->
        tables (snd (SearchApi.bookmarks t2 (PUT_id i v2)
                       (snd (SearchApi.bookmarks t1 (PUT_id i v1) st))))
        = tables (snd (SearchApi.bookmarks t2 (PUT_id i v2) st)))
  /\ (forall w, healthy (CachedApi.storage w) ->
        tables (CachedApi.storage
                  (snd (CachedApi.bookmarks t2 (CachedApi.PUT_id i v2)
                          (snd (CachedApi.bookmarks t1 (CachedApi.PUT_id i v1) w)))))
        = tables (CachedApi.storage
                    (snd (CachedApi.bookmarks t2 (CachedApi.PUT_id i v2) w)))).
Proof.
  split; [|split].
  - intros st H.
    destruct (proj1 (put_id_healthy t1 i v1) st H) as (st1 & E1 & T1 & H1).
    destruct (proj1 (put_id_healthy t2 i v2) st1 H1) as (st2 & E2 & T2 & _).
    destruct (proj1 (put_id_healthy t2 i v2) st H) as (st3 & E3 & T3 & _).
    rewrite E1. cbn [snd]. rewrite E2, E3. cbn [snd].
    rewrite T2, T1, T3. apply sql_update_twice.
  - intros st H.
    destruct (proj1 (proj2 (put_id_healthy t1 i v1)) st H) as (st1 & E1 & T1 & H1).
    destruct (proj1 (proj2 (put_id_healthy t2 i v2)) st1 H1) as (st2 & E2 & T2 & _).
    destruct (proj1 (proj2 (put_id_healthy t2 i v2)) st H) as (st3 & E3 & T3 & _).
    rewrite E1. cbn [snd]. rewrite E2, E3. cbn [snd].
    rewrite T2, T1, T3. apply sql_update_twice.
  - intros w H.
    destruct (proj2 (proj2 (put_id_healthy t1 i v1)) w H) as (w1 & E1 & T1 & H1 & _).
    destruct (proj2 (proj2 (put_id_healthy t2 i v2)) w1 H1) as (w2 & E2 & T2 & _).
    destruct (proj2 (proj2 (put_id_healthy t2 i v2)) w H) as (w3 & E3 & T3 & _).
    rewrite E1. cbn [snd]. rewrite E2, E3. cbn [snd].
    rewrite T2, T1, T3. apply sql_update_twice.
Qed.

Lemma update_by_id_last_write_wins_witness :
  healthy one_bookmark
  /\ tables (snd (PtApi.bookmarks 8 (PUT_id 1 (sample_body "h2"))
                    (snd (PtApi.bookmarks 7 (PUT_id 1 (sample_body "h1")) one_bookmark))))
     = tables (snd (PtApi.bookmarks 8 (PUT_id 1 (sample_body "h2")) one_bookmark)).
Proof.
  assert (H : healthy one_bookmark) by (intros k s; reflexivity).
  split; [exact H|].
  exact (proj1 (update_by_id_last_write_wins 7 8 1 (sample_body "h1") (sample_body "h2"))
           one_bookmark H).
Defined.

(** ** Deleting a stored bookmark *)

Lemma sql_delete_rows (i : Z) (db : DB) (r : Bookmark) :
  In r (bookmark (sql_delete (eq_id i) db)) <-> In r (bookmark db) /\ id r <> i.
Proof.
  unfold sql_delete, set_bookmark, eq_id. cbn [bookmark].
  rewrite filter_In, negb_true_iff, Z.eqb_neq. tauto.
Qed.

Lemma sql_delete_twice (i : Z) (db : DB) :
  sql_delete (eq_id i) (sql_delete (eq_id i) db) = sql_delete (eq_id i) db.
Proof.
  apply sql_delete_absent. intros H. apply in_map_iff in H.
  destruct H as (r & E & Hr). apply sql_delete_rows in Hr. tauto.
Qed.

(** X12. DELETE /bookmarks/:id removes exactly the rows with that id and
    keeps every other row; the tag and association tables are not touched, so
    the associations of a deleted bookmark stay behind and its join still
    yields its tags (no cascade); deleting the same id again changes
    nothing. *)
Theorem delete_removes_only_that_id (now i : Z) (st : Storage) :
  healthy st ->
  exists st' st'',
    PtApi.bookmarks now (DELETE_id i) st = (Ok Empty, st')
    /\ (forall r, In r (bookmark (tables st'))
                  <-> In r (bookmark (tables st)) /\ id r <> i)
    /\ tag (tables st') = tag (tables st)
    /\ bookmarkTag (tables st') = bookmarkTag (tables st)
    /\ (forall bid, sql_bookmark_tags (tables st') bid
                    = sql_bookmark_tags (tables st) bid)
    /\ PtApi.bookmarks now (DELETE_id i) st' = (Ok Empty, st'')
    /\ tables st'' = tables st'
    /\ tables (snd (SearchApi.bookmarks now (DELETE_id i) st)) = tables st'
    /\ (forall w, CachedApi.storage w = st ->
          tables (CachedApi.storage
                    (snd (CachedApi.bookmarks now (CachedApi.DELETE_id i) w)))
          = tables st').
Proof.
  intros H. do 2 eexists.
  split; [cbn [PtApi.bookmarks]; unfold PtApi.delete_id, delete_bookmark_by_id;
          run_healthy H; reflexivity|].
  cbn [tables]. split; [intros r; apply sql_delete_rows|].
  split; [reflexivity|]. split; [reflexivity|]. split; [reflexivity|].
  split; [cbn [PtApi.bookmarks]; unfold PtApi.delete_id, delete_bookmark_by_id;
          run_healthy H; reflexivity|].
  cbn [tables]. split; [apply sql_delete_twice|].
  split.
  - cbn [SearchApi.bookmarks]. unfold SearchApi.delete_id, delete_bookmark_by_id.
    run_healthy H. reflexivity.
  - intros w <-. cbn [CachedApi.bookmarks]. unfold CachedApi.delete_id.
    rewrite cached_write_any. unfold delete_bookmark_by_id.
    rewrite execute_healthy by assumption. reflexivity.
Qed.

Lemma delete_removes_only_that_id_witness :
  healthy two_same_name
  /\ exists st' st'',
       PtApi.bookmarks 9 (DELETE_id 1) two_same_name = (Ok Empty, st')
       /\ (forall r, In r (bookmark (tables st'))
                     <-> In r (bookmark (tables two_same_name)) /\ id r <> 1)
       /\ PtApi.bookmarks 9 (DELETE_id 1) st' = (Ok Empty, st'')
       /\ tables st'' = tables st'.
Proof.
  assert (H : healthy two_same_name) by (intros k s; reflexivity).
  split; [exact H|].
  destruct (@delete_removes_only_that_id 9 1 two_same_name H)
    as (st' & st'' & E & R & _ & _ & _ & E2 & T & _).
  exists st', st''.
  split; [exact E|]. split; [exact R|]. split; [exact E2|exact T].
Defined.

(** ** The listing of [src/unnamed/part_000] *)

Lemma insert_desc_perm (r : Bookmark) (l : list Bookmark) :
  Permutation (insert_desc r l) (r :: l).
Proof.
  induction l as [|x l IH]; simpl; [reflexivity|].
  destruct (id x <? id r); [reflexivity|].
  rewrite IH. apply perm_swap.
Qed.

Lemma orderByIdDesc_perm (l : list Bookmark) : Permutation (orderByIdDesc l) l.
Proof.
  induction l as [|a l IH]; simpl; [reflexivity|].
  rewrite insert_desc_perm. now constructor.
Qed.

Lemma insert_desc_sorted (r : Bookmark) (l : list Bookmark) :
  Sorted (fun a b => id b <= id a) l ->
  Sorted (fun a b => id b <= id a) (insert_desc r l).
Proof.
  induction l as [|x l IH]; intros H; simpl.
  - repeat constructor.
  - destruct (id x <? id r) eqn:E.
    + constructor; [exact H|]. constructor. apply Z.ltb_lt in E. lia.
    + apply Z.ltb_ge in E. inversion H as [|? ? Hs Hh]; subst.
      constructor; [now apply IH|].
      destruct l as [|y l]; simpl.
      * constructor. exact E.
      * destruct (id y <? id r); constructor; [exact E|].
        inversion Hh. assumption.
Qed.

Lemma orderByIdDesc_sorted (l : list Bookmark) :
  Sorted (fun a b => id b <= id a) (orderByIdDesc l).
Proof.
  induction l as [|a l IH]; simpl; [constructor|]. now apply insert_desc_sorted.
Qed.

(** X13. The listing of [src/unnamed/part_000] ignores the query string and
    answers with every stored row exactly as often as it is stored, by
    descending id; no statement but the one SELECT is run and the tables are
    unchanged. *)
Theorem PtApi_listing_is_sorted (now : Z) (q : option string) (st : Storage) :
  healthy st ->
  exists l st',
    PtApi.bookmarks now (GET_ q) st = (Ok (Rows (map withoutTags l)), st')
    /\ Permutation l (bookmark (tables st))
    /\ Sorted (fun a b => id b <= id a) l
    /\ tables st' = tables st
    /\ trace st' = trace st ++ [SelectBookmarksOrderByIdDesc].
Proof.
  intros H. exists (orderByIdDesc (bookmark (tables st))). eexists.
  split; [cbn [PtApi.bookmarks]; unfold PtApi.get_, PtApi.getBookmarks,
            select_bookmarks_desc; run_healthy H; reflexivity|].
  split; [apply orderByIdDesc_perm|]. split; [apply orderByIdDesc_sorted|].
  split; reflexivity.
Qed.

Lemma PtApi_listing_is_sorted_witness :
  healthy two_same_name
  /\ exists l st',
       PtApi.bookmarks 9 (GET_ (Some "zzz"%string)) two_same_name
       = (Ok (Rows (map withoutTags l)), st')
       /\ Permutation l (bookmark (tables two_same_name))
       /\ Sorted (fun a b => id b <= id a) l.
Proof.
  assert (H : healthy two_same_name) by (intros k s; reflexivity).
  split; [exact H|].
  destruct (@PtApi_listing_is_sorted 9 (Some "zzz"%string) two_same_name H)
    as (l & st' & E & P & S & _).
  exists l, st'. repeat split; assumption.
Defined.

(** ** What the filtered search returns *)

Lemma patternCompare_other (c : ascii) (p s : list ascii) :
  c <> percent -> c <> underscore ->
  patternCompare (c :: p) s
  = match s with
    | [] => false
    | d :: s' => like_char_eq c d && patternCompare p s'
    end.
Proof.
  intros H1 H2. apply Ascii.eqb_neq in H1. apply Ascii.eqb_neq in H2.
  simpl. rewrite H1, H2. destruct s; reflexivity.
Qed.

Lemma patternCompare_percent_inv (p s : list ascii) :
  patternCompare (percent :: p) s = true ->
  exists s1 s2, s = s1 ++ s2 /\ patternCompare p s2 = true.
Proof.
  induction s as [|c s IH]; rewrite patternCompare_percent; intros H.
  - rewrite orb_false_r in H. now exists [], [].
  - apply orb_true_iff in H. destruct H as [H|H].
    + now exists [], (c :: s).
    + destruct (IH H) as (s1 & s2 & -> & H2). now exists (c :: s1), s2.
Qed.

Lemma patternCompare_plain_inv (p s : list ascii) :
  Forall (fun c => c <> percent /\ c <> underscore) p ->
  patternCompare (p ++ [percent]) s = true ->
  exists m b, s = m ++ b /\ Forall2 (fun c d => like_char_eq c d = true) p m.
Proof.
  intros Hp. revert s. induction Hp as [|c p (H1 & H2) _ IH]; intros s H.
  - exists [], s. split; [reflexivity|constructor].
  - simpl app in H. rewrite patternCompare_other in H by assumption.
    destruct s as [|d s]; [discriminate|].
    apply andb_true_iff in H. destruct H as (Hc & H).
    destruct (IH s H) as (m & b & -> & Hm).
    exists (d :: m), b. split; [reflexivity|now constructor].
Qed.

Lemma patternCompare_plain (p m b : list ascii) :
  Forall (fun c => c <> percent /\ c <> underscore) p ->
  Forall2 (fun c d => like_char_eq c d = true) p m ->
  patternCompare (p ++ [percent]) (m ++ b) = true.
Proof.
  intros Hp Hm. induction Hm as [|c d p m Hc Hm IH].
  - apply patternCompare_percent_all.
  - inversion Hp as [|? ? (H1 & H2) Hp']; subst. simpl app.
    rewrite patternCompare_other by assumption. now rewrite Hc, IH.
Qed.

(** Without wildcards in [q], [name LIKE %q%] says exactly that the name
    contains [q], up to the case of ASCII letters. *)
Lemma like_plain_iff (q n : string) :
  no_wildcard q ->
  like n ("%" ++ q ++ "%") = true <-> contains_for_like q n.
Proof.
  intros Hq. unfold like. rewrite !list_ascii_of_string_app.
  change (list_ascii_of_string "%") with [percent]. simpl app at 1.
  split.
  - intros H. apply patternCompare_percent_inv in H.
    destruct H as (s1 & s2 & E & H).
    apply patternCompare_plain_inv in H; [|exact Hq].
    destruct H as (m & b & -> & Hm).
    exists (string_of_list_ascii s1), (string_of_list_ascii m), (string_of_list_ascii b).
    split.
    + rewrite <- !string_of_list_ascii_app, <- E.
      symmetry. apply string_of_list_ascii_of_string.
    + unfold same_for_like. now rewrite list_ascii_of_string_of_list_ascii.
  - intros (a & m & b & -> & Hm).
    rewrite !list_ascii_of_string_app.
    apply patternCompare_percent_skip. now apply patternCompare_plain.
Qed.



Lemma patternCompare_all_percent (p s : list ascii) :
  p <> [] -> Forall (fun c => c = percent) p -> patternCompare p s = true.
Proof.
  intros Hne Hp. revert s. induction Hp as [|c p -> Hp IH]; [now elim Hne|].
  intros s. destruct p as [|c' p]; [apply patternCompare_percent_all|].
  rewrite patternCompare_percent, IH by discriminate. reflexivity.
Qed.

(** X15. The search text is not escaped: in the cached revision a non-empty
    text made of `%` only is answered with the whole bookmark table, in table
    order. *)
Theorem percent_query_lists_everything (now : Z) (s : string) (w : CachedApi.World) :
  healthy (CachedApi.storage w) ->
  s <> ""%string ->
  Forall (fun c => c = percent) (list_ascii_of_string s) ->
  exists w',
    CachedApi.bookmarks now (CachedApi.GET_ (Some s)) w
    = (Ok (Rows (map withoutTags (bookmark (tables (CachedApi.storage w))))), w').
Proof.
  intros H Hs Hp. cbn [CachedApi.bookmarks]. unfold CachedApi.get_.
  apply String.eqb_neq in Hs. rewrite Hs.
  unfold CachedApi.liftQ, select_bookmarks_like. unfold bind at 1.
  rewrite execute_healthy by assumption. unfold reading, ret; cbn [fst snd].
  eexists. do 3 f_equal. rewrite filter_all; [reflexivity|]. intros r _. unfold like.
  apply patternCompare_all_percent.
  - rewrite list_ascii_of_string_app. discriminate.
  - rewrite !list_ascii_of_string_app. apply Forall_app. split.
    + repeat constructor.
    + apply Forall_app. split; [exact Hp|repeat constructor].
Qed.

Lemma percent_query_lists_everything_witness :
  healthy (CachedApi.storage (CachedApi.start two_same_name))
  /\ "%"%string <> ""%string
  /\ Forall (fun c => c = percent) (list_ascii_of_string "%")
  /\ exists w',
       CachedApi.bookmarks 9 (CachedApi.GET_ (Some "%"%string))
         (CachedApi.start two_same_name)
       = (Ok (Rows (map withoutTags
                      (bookmark (tables (CachedApi.storage
                                           (CachedApi.start two_same_name)))))), w').
Proof.
  assert (H : healthy (CachedApi.storage (CachedApi.start two_same_name)))
    by (intros k s; reflexivity).
  assert (N : "%"%string <> ""%string) by discriminate.
  assert (P : Forall (fun c => c = percent) (list_ascii_of_string "%"))
    by (repeat constructor).
  split; [exact H|]. split; [exact N|]. split; [exact P|].
  exact (@percent_query_lists_everything 9 "%" (CachedApi.start two_same_name) H N P).
Defined.

(** ** The trimmed search *)

Lemma trimStart_head (s : list ascii) :
  match trimStart s with
  | [] => True
  | c :: _ => isWhiteSpace c = false
  end.
Proof.
  induction s as [|c s IH]; simpl; [exact I|].
  destruct (isWhiteSpace c) eqn:E; [exact IH|exact E].
Qed.

Lemma trimStart_fixed (c : ascii) (s : list ascii) :
  isWhiteSpace c = false -> trimStart (c :: s) = c :: s.
Proof. intros H. simpl. now rewrite H. Qed.

Lemma trimStart_idem (s : list ascii) : trimStart (trimStart s) = trimStart s.
Proof.
  pose proof (trimStart_head s) as H.
  destruct (trimStart s) as [|c t]; [reflexivity|now apply trimStart_fixed].
Qed.

Lemma trimStart_snoc (s : list ascii) (c : ascii) :
  isWhiteSpace c = false -> trimStart (s ++ [c]) = trimStart s ++ [c].
Proof.
  intros H. induction s as [|d s IH]; simpl; [now rewrite H|].
  destruct (isWhiteSpace d); [exact IH|reflexivity].
Qed.

Lemma trimEnd_cons (c : ascii) (s : list ascii) :
  isWhiteSpace c = false -> trimEnd (c :: s) = c :: trimEnd s.
Proof.
  intros H. unfold trimEnd. simpl rev.
  rewrite trimStart_snoc by assumption. rewrite rev_app_distr. reflexivity.
Qed.

Lemma trimEnd_idem (s : list ascii) : trimEnd (trimEnd s) = trimEnd s.
Proof.
  unfold trimEnd. rewrite rev_involutive, trimStart_idem. reflexivity.
Qed.

Lemma trim_list_idem (s : list ascii) :
  trimEnd (trimStart (trimEnd (trimStart s))) = trimEnd (trimStart s).
Proof.
  pose proof (trimStart_head s) as H.
  destruct (trimStart s) as [|c t] eqn:E.
  - reflexivity.
  - rewrite trimEnd_cons by assumption.
    rewrite trimStart_fixed by assumption.
    rewrite <- trimEnd_cons by assumption. apply trimEnd_idem.
Qed.

Lemma trim_idem (s : string) : trim (trim s) = trim s.
Proof.
  unfold trim. rewrite list_ascii_of_string_of_list_ascii.
  now rewrite trim_list_idem.
Qed.

(** X16. The revision with the trimmed search ignores white space around
    the search text: a text whose trimmed form is not empty is answered
    exactly as its trimmed form (same rows, same statement), the engine being
    what it may. *)
Theorem trimmed_search_ignores_outer_space (now : Z) (s : string) (st : Storage) :
  trim s <> ""%string ->
  SearchApi.bookmarks now (GET_ (Some s)) st
  = SearchApi.bookmarks now (GET_ (Some (trim s))) st.
Proof.
  intros Ht. cbn [SearchApi.bookmarks]. unfold SearchApi.get_.
  assert (Hs : s <> ""%string) by (intros ->; now apply Ht).
  apply String.eqb_neq in Hs. rewrite Hs.
  apply String.eqb_neq in Ht. rewrite Ht. rewrite trim_idem. reflexivity.
Qed.

Lemma trimmed_search_ignores_outer_space_witness :
  trim "  do " <> ""%string
  /\ SearchApi.bookmarks 9 (GET_ (Some "  do "%string)) spaced
     = SearchApi.bookmarks 9 (GET_ (Some (trim "  do "))) spaced.
Proof.
  assert (H : trim "  do " <> ""%string) by (vm_compute; discriminate).
  split; [exact H|].
  exact (@trimmed_search_ignores_outer_space 9 "  do " spaced H).
Defined.

(** ** The refresh and its queue *)

Lemma mapM_addTags_trace (l : list Bookmark) (st : Storage) :
  healthy st ->
  exists st',
    mapM CachedApi.addTags l st = (Ok (map (enrich (tables st)) l), st')
    /\ tables st' = tables st
    /\ trace st' = trace st ++ map (fun b => SelectBookmarkTags (id b)) l
    /\ fault st' = fault st.
Proof.
  revert st. induction l as [|b l IH]; intros st H.
  - exists st. cbn. rewrite app_nil_r. auto.
  - cbn [mapM]. unfold CachedApi.addTags at 1, getBookmarkTags.
    run_healthy H.
    destruct (IH {| tables := tables st;
                    trace := trace st ++ [SelectBookmarkTags (id b)];
                    fault := fault st |}) as (st' & E & T & Tr & F);
      [auto with storage|].
    rewrite E. cbn [tables trace fault] in *. exists st'.
    split; [reflexivity|]. split; [exact T|]. split; [|exact F].
    rewrite Tr, <- app_assoc. reflexivity.
Qed.

(** X17. A refresh on an engine that executes its statements runs one
    SELECT on `bookmark` and then one tag query per stored bookmark, in table
    order, and nothing else; it changes no table, and the cache it installs
    holds the stored rows in table order, each with the tags of its id. *)
Theorem refresh_runs_one_query_per_bookmark (w : CachedApi.World) :
  healthy (CachedApi.storage w) ->
  exists w',
    CachedApi.getBookmarks (Some CachedApi.store_bookmarks) w
    = (Ok (CachedApi.items w'), w')
    /\ CachedApi.items w'
       = map (enrich (tables (CachedApi.storage w)))
           (bookmark (tables (CachedApi.storage w)))
    /\ map row (CachedApi.items w') = bookmark (tables (CachedApi.storage w))
    /\ trace (CachedApi.storage w')
       = trace (CachedApi.storage w)
         ++ SelectBookmarks
            :: map (fun b => SelectBookmarkTags (id b))
                 (bookmark (tables (CachedApi.storage w)))
    /\ tables (CachedApi.storage w') = tables (CachedApi.storage w).
Proof.
  intros H.
  assert (E : exists st',
             CachedApi.bookmarksWithTags (CachedApi.storage w)
             = (Ok (map (enrich (tables (CachedApi.storage w)))
                      (bookmark (tables (CachedApi.storage w)))), st')
             /\ tables st' = tables (CachedApi.storage w)
             /\ trace st'
                = trace (CachedApi.storage w)
                  ++ SelectBookmarks
                     :: map (fun b => SelectBookmarkTags (id b))
                          (bookmark (tables (CachedApi.storage w)))).
  { unfold CachedApi.bookmarksWithTags, select_bookmarks. run_healthy H.
    destruct (@mapM_addTags_trace (bookmark (tables (CachedApi.storage w)))
                {| tables := tables (CachedApi.storage w);
                   trace := trace (CachedApi.storage w) ++ [SelectBookmarks];
                   fault := fault (CachedApi.storage w) |})
      as (st' & E & T & Tr & _); [auto with storage|].
    exists st'. cbn [tables trace] in *. split; [exact E|]. split; [exact T|].
    rewrite Tr, <- app_assoc. reflexivity. }
  destruct E as (st' & E & T & Tr).
  exists (CachedApi.with_items
            (map (enrich (tables (CachedApi.storage w)))
               (bookmark (tables (CachedApi.storage w))))
            (CachedApi.with_storage st' w)).
  rewrite (getBookmarks_ok (Some CachedApi.store_bookmarks) w E).
  split; [reflexivity|]. cbn [CachedApi.items CachedApi.storage CachedApi.with_items
                              CachedApi.with_storage].
  split; [reflexivity|]. split; [|split; assumption].
  rewrite map_map. unfold enrich. cbn [row]. apply map_id.
Qed.

Lemma refresh_runs_one_query_per_bookmark_witness :
  healthy (CachedApi.storage (CachedApi.start two_same_name))
  /\ exists w',
       CachedApi.getBookmarks (Some CachedApi.store_bookmarks)
         (CachedApi.start two_same_name) = (Ok (CachedApi.items w'), w')
       /\ trace (CachedApi.storage w')
          = trace (CachedApi.storage (CachedApi.start two_same_name))
            ++ [SelectBookmarks; SelectBookmarkTags 1; SelectBookmarkTags 2].
Proof.
  assert (H : healthy (CachedApi.storage (CachedApi.start two_same_name)))
    by (intros k s; reflexivity).
  split; [exact H|].
  destruct (@refresh_runs_one_query_per_bookmark (CachedApi.start two_same_name) H)
    as (w' & E & _ & _ & Tr & _).
  exists w'. split; [exact E|exact Tr].
Defined.

(** The statement behind each writing route of the cached revision. *)
Lemma cached_write_route (now : Z) (r : CachedApi.BookmarksRoute) :
  is_write r = true ->
  exists (s : Stmt) (f : DB -> DB),
    CachedApi.bookmarks now r
    = (CachedApi.liftQ (execute s (writing f)) ;;
       CachedApi.updateBookmarks (Some CachedApi.store_bookmarks) ;;
       ret Empty).
Proof.
  destruct r as [q|v|i v|i b|i]; [discriminate|..]; intros _;
    do 2 eexists; reflexivity.
Qed.

(** X18. In every state the cached process reaches, a write request that
    the engine executes appends exactly one refresh of the store to the queue
    of immediates and leaves the flag clear; a listing or search request
    queues nothing, whatever the engine does. *)
Theorem each_write_queues_one_refresh (env : Env) (st0 : Storage)
  (w : CachedApi.World) (now : Z) :
  CachedApi.reachable env st0 w ->
  (forall r,
     is_write r = true -> healthy (CachedApi.storage w) ->
     CachedApi.immediates (snd (CachedApi.bookmarks now r w))
     = CachedApi.immediates w
       ++ [CachedApi.Call_getBookmarks (Some CachedApi.store_bookmarks)]
     /\ CachedApi.isUpdatingBookmarks (snd (CachedApi.bookmarks now r w)) = false)
  /\ (forall q,
        CachedApi.immediates (snd (CachedApi.bookmarks now (CachedApi.GET_ q) w))
        = CachedApi.immediates w).
Proof.
  intros R. pose proof (reachable_flag R) as F. split.
  - intros r Hr H. destruct (cached_write_route now r Hr) as (s & f & ->).
    destruct (@cached_write (execute s (writing f)) w _ (execute_healthy _ _ H))
      as (w' & E & _ & _ & _ & Hfl & Hq).
    rewrite E. cbn [snd]. split; [now apply Hq|]. now rewrite Hfl.
  - intros q. cbn [CachedApi.bookmarks]. unfold CachedApi.get_.
    destruct q as [s|]; [|reflexivity].
    destruct (String.eqb s ""); [reflexivity|].
    unfold CachedApi.liftQ, bind, ret.
    destruct (select_bookmarks_like _ (CachedApi.storage w)) as [[l|e] st'];
      reflexivity.
Qed.

Lemma each_write_queues_one_refresh_witness :
  CachedApi.reachable sample_env one_bookmark (CachedApi.start one_bookmark)
  /\ is_write (CachedApi.DELETE_id 1) = true
  /\ healthy (CachedApi.storage (CachedApi.start one_bookmark))
  /\ CachedApi.immediates
       (snd (CachedApi.bookmarks 9 (CachedApi.DELETE_id 1) (CachedApi.start one_bookmark)))
     = CachedApi.immediates (CachedApi.start one_bookmark)
       ++ [CachedApi.Call_getBookmarks (Some CachedApi.store_bookmarks)].
Proof.
  assert (R : CachedApi.reachable sample_env one_bookmark (CachedApi.start one_bookmark))
    by constructor.
  assert (W : is_write (CachedApi.DELETE_id 1) = true) by reflexivity.
  assert (H : healthy (CachedApi.storage (CachedApi.start one_bookmark)))
    by (intros k s; reflexivity).
  split; [exact R|]. split; [exact W|]. split; [exact H|].
  exact (proj1 (proj1 (each_write_queues_one_refresh 9 R) (CachedApi.DELETE_id 1) W H)).
Defined.

(** X19. The cache catches up: in a reachable state of the cached process,
    after a write request that the engine executes and once the event loop
    has run the immediates then pending, the queue is empty and the
    unfiltered listing is the bookmark table as the write left it, row by row
    in table order, each row with its tags. *)
Theorem cache_converges_after_write (env : Env) (st0 : Storage)
  (w : CachedApi.World) (now later : Z) (r : CachedApi.BookmarksRoute) :
  CachedApi.reachable env st0 w ->
  is_write r = true ->
  healthy (CachedApi.storage w) ->
  exists w1 w2,
    CachedApi.bookmarks now r w = (Ok Empty, w1)
    /\ w2 = runImmediates (List.length (CachedApi.immediates w1)) w1
    /\ CachedApi.immediates w2 = []
    /\ CachedApi.bookmarks later (CachedApi.GET_ None) w2
       = (Ok (Rows (map (enrich (tables (CachedApi.storage w1)))
                      (bookmark (tables (CachedApi.storage w1))))), w2).
Proof.
  intros R Hr H. pose proof (reachable_flag R) as F.
  destruct (cached_write_route now r Hr) as (s & f & ->).
  destruct (@cached_write (execute s (writing f)) w _ (execute_healthy _ _ H))
    as (w1 & E & Hs & _ & _ & _ & Hq).
  specialize (Hq F).
  assert (H1 : healthy (CachedApi.storage w1)) by (rewrite Hs; auto with storage).
  destruct (@runImmediates_refresh _ w1 H1 Hq) as (It & Em).
  exists w1, (runImmediates (List.length (CachedApi.immediates w1)) w1).
  split; [exact E|]. split; [reflexivity|]. split; [exact Em|].
  cbn [CachedApi.bookmarks CachedApi.get_]. now rewrite It.
Qed.

Lemma cache_converges_after_write_witness :
  CachedApi.reachable sample_env one_bookmark (CachedApi.start one_bookmark)
  /\ is_write (CachedApi.PUT_id_check 1 true) = true
  /\ healthy (CachedApi.storage (CachedApi.start one_bookmark))
  /\ exists w1 w2,
       CachedApi.bookmarks 8 (CachedApi.PUT_id_check 1 true)
         (CachedApi.start one_bookmark) = (Ok Empty, w1)
       /\ w2 = runImmediates (List.length (CachedApi.immediates w1)) w1
       /\ CachedApi.immediates w2 = []
       /\ CachedApi.bookmarks 9 (CachedApi.GET_ None) w2
          = (Ok (Rows (map (enrich (tables (CachedApi.storage w1)))
                         (bookmark (tables (CachedApi.storage w1))))), w2).
Proof.
  assert (R : CachedApi.reachable sample_env one_bookmark (CachedApi.start one_bookmark))
    by constructor.
  assert (W : is_write (CachedApi.PUT_id_check 1 true) = true) by reflexivity.
  assert (H : healthy (CachedApi.storage (CachedApi.start one_bookmark)))
    by (intros k s; reflexivity).
  split; [exact R|]. split; [exact W|]. split; [exact H|].
  exact (@cache_converges_after_write sample_env one_bookmark
           (CachedApi.start one_bookmark) 8 9 (CachedApi.PUT_id_check 1 true) R W H).
Defined.

Lemma isSubstringOf_self (s : string) : isSubstringOf s s.
Proof.
  exists ""%string, ""%string. cbn.
  induction s as [|c s IH]; simpl; [reflexivity|now rewrite <- IH].
Qed.

(** X20. Reads between a write and its refresh are stale on one path only:
    no request changes what the unfiltered listing answers, so right after a
    POST that the engine executes the unfiltered listing is what it was, while
    a search for the new bookmark's (non-empty) name already finds it. *)
Theorem unfiltered_listing_is_stale_until_refresh (now later : Z)
  (values : NewBookmark) (w : CachedApi.World) :
  (forall env req q,
     q = None \/ q = Some ""%string ->
     fst (CachedApi.bookmarks later (CachedApi.GET_ q)
            (snd (CachedApi.app env req w)))
     = Ok (Rows (CachedApi.items w)))
  /\ (healthy (CachedApi.storage w) -> body_name values <> ""%string ->
      exists w1 l,
        CachedApi.bookmarks now (CachedApi.POST_ values) w = (Ok Empty, w1)
        /\ fst (CachedApi.bookmarks later (CachedApi.GET_ None) w1)
           = Ok (Rows (CachedApi.items w))
        /\ fst (CachedApi.bookmarks later (CachedApi.GET_ (Some (body_name values))) w1)
           = Ok (Rows l)
        /\ In (withoutTags (new_row now (tables (CachedApi.storage w)) values)) l).
Proof.
  split.
  - intros env req q Hq.
    rewrite <- (app_items env req w).
    destruct Hq as [->| ->]; reflexivity.
  - intros H Hn. unfold CachedApi.bookmarks at 1. unfold CachedApi.post_.
    destruct (@cached_write (insert_bookmark now values) w _ (execute_healthy _ _ H))
      as (w1 & E & Hs & Hi & _).
    assert (H1 : healthy (CachedApi.storage w1)) by (rewrite Hs; auto with storage).
    exists w1. eexists. split; [exact E|]. split; [|split].
    + cbn [CachedApi.bookmarks CachedApi.get_ fst]. now rewrite Hi.
    + cbn [CachedApi.bookmarks]. unfold CachedApi.get_.
      apply String.eqb_neq in Hn. rewrite Hn.
      unfold CachedApi.liftQ, select_bookmarks_like. unfold bind at 1.
      rewrite execute_healthy by assumption. unfold reading, ret; cbn [fst snd].
      reflexivity.
    + apply in_map, filter_In. split.
      * rewrite Hs. cbn [tables writing snd sql_insert bookmark].
        apply in_or_app. right. now left.
      * apply like_substring. cbn [name new_row]. apply isSubstringOf_self.
Qed.

Lemma unfiltered_listing_is_stale_until_refresh_witness :
  healthy (CachedApi.storage idle)
  /\ body_name (sample_body "h0") <> ""%string
  /\ exists w1 l,
       CachedApi.bookmarks 5 (CachedApi.POST_ (sample_body "h0")) idle = (Ok Empty, w1)
       /\ fst (CachedApi.bookmarks 6 (CachedApi.GET_ None) w1)
          = Ok (Rows (CachedApi.items idle))
       /\ fst (CachedApi.bookmarks 6
                 (CachedApi.GET_ (Some (body_name (sample_body "h0")))) w1)
          = Ok (Rows l)
       /\ In (withoutTags (new_row 5 (tables (CachedApi.storage idle))
                             (sample_body "h0"))) l.
Proof.
  assert (H : healthy (CachedApi.storage idle)) by (intros k s; reflexivity).
  assert (N : body_name (sample_body "h0") <> ""%string) by discriminate.
  split; [exact H|]. split; [exact N|].
  exact (proj2 (@unfiltered_listing_is_stale_until_refresh 5 6 (sample_body "h0") idle)
           H N).
Defined.

(** ** The tags of a bookmark *)

Lemma opt_eqb_true (o : option Z) (x : Z) : opt_eqb o x = true <-> o = Some x.
Proof.
  destruct o as [y|]; simpl; split; intros H; try discriminate.
  - apply Z.eqb_eq in H. now subst.
  - inversion H. apply Z.eqb_refl.
Qed.

Lemma association_key_in (rows : list BookmarkTag) (bt : BookmarkTag) (b t : Z) :
  In bt rows -> bookmarkId bt = Some b -> tagId bt = Some t ->
  In (b, t) (association_keys rows).
Proof.
  intros Hin Hb Ht. unfold association_keys. apply in_flat_map.
  exists bt. split; [exact Hin|]. rewrite Hb, Ht. now left.
Qed.

(** Under the primary key, at most one association row joins a tag to a
    bookmark. *)
Lemma one_association_per_pair (rows : list BookmarkTag) (b t : Z) :
  NoDup (association_keys rows) ->
  (List.length
     (filter (fun bt => opt_eqb (tagId bt) t && opt_eqb (bookmarkId bt) b) rows)
   <= 1)%nat.
Proof.
  induction rows as [|bt rows IH]; intros Hn; [simpl; lia|].
  cbn [filter].
  destruct (opt_eqb (tagId bt) t && opt_eqb (bookmarkId bt) b) eqn:M.
  - apply andb_true_iff in M. destruct M as (Mt & Mb).
    apply opt_eqb_true in Mt. apply opt_eqb_true in Mb.
    unfold association_keys in Hn. cbn [flat_map] in Hn. rewrite Mb, Mt in Hn.
    cbn [app] in Hn. apply NoDup_cons_iff in Hn. destruct Hn as (Hnot & Hn).
    rewrite filter_none; [simpl; lia|].
    intros x Hx. destruct (opt_eqb (tagId x) t && opt_eqb (bookmarkId x) b) eqn:Mx;
      [|reflexivity].
    apply andb_true_iff in Mx. destruct Mx as (Xt & Xb).
    apply opt_eqb_true in Xt. apply opt_eqb_true in Xb.
    elim Hnot. now apply association_key_in with (bt := x).
  - apply IH. unfold association_keys in Hn. cbn [flat_map] in Hn.
    apply NoDup_app_remove_l in Hn. exact Hn.
Qed.

Lemma join_has_no_duplicates (db : DB) (bid : Z) :
  NoDup (tag db) -> NoDup (association_keys (bookmarkTag db)) ->
  NoDup (sql_bookmark_tags db bid).
Proof.
  intros Ht Hk. unfold sql_bookmark_tags.
  assert (F : forall t,
             map (fun _ : BookmarkTag => t)
               (filter (fun bt => opt_eqb (tagId bt) (tag_id t)
                                  && opt_eqb (bookmarkId bt) bid) (bookmarkTag db))
             = []
             \/ map (fun _ : BookmarkTag => t)
                  (filter (fun bt => opt_eqb (tagId bt) (tag_id t)
                                     && opt_eqb (bookmarkId bt) bid) (bookmarkTag db))
                = [t]).
  { intros t. pose proof (@one_association_per_pair (bookmarkTag db) bid (tag_id t) Hk) as L.
    destruct (filter _ (bookmarkTag db)) as [|x [|y l]]; simpl in *; auto. lia. }
  induction Ht as [|t ts Hnot Ht IH]; [constructor|].
  cbn [flat_map]. destruct (F t) as [-> | ->]; [exact IH|].
  cbn [app]. constructor; [|exact IH].
  intros Hin. apply in_flat_map in Hin. destruct Hin as (t' & Ht' & Hin).
  destruct (F t') as [E|E]; rewrite E in Hin; [destruct Hin|].
  destruct Hin as [->|[]]. contradiction.
Qed.

(** X21. The tag query of [getBookmarks] yields, for a bookmark id, exactly
    the tags that an association row joins to that id: a tag without such a
    row, and an association whose keys are NULL, contribute nothing.  When the
    tag rows are distinct and the non-NULL key pairs of the associations are
    distinct, as the primary keys of the migration keep them, no tag comes
    twice.  The query runs one statement and changes no table. *)
Theorem getBookmarkTags_joins_by_association (bid : Z) (st : Storage) :
  healthy st ->
  exists l st',
    getBookmarkTags bid st = (Ok l, st')
    /\ (forall t,
          In t l <->
          In t (tag (tables st))
          /\ exists bt, In bt (bookmarkTag (tables st))
                        /\ tagId bt = Some (tag_id t)
                        /\ bookmarkId bt = Some bid)
    /\ (NoDup (tag (tables st)) ->
        NoDup (association_keys (bookmarkTag (tables st))) ->
        NoDup l)
    /\ tables st' = tables st
    /\ trace st' = trace st ++ [SelectBookmarkTags bid].
Proof.
  intros H. unfold getBookmarkTags. rewrite execute_healthy by assumption.
  unfold reading; cbn [fst snd]. do 2 eexists. split; [reflexivity|].
  split; [|split; [apply join_has_no_duplicates|split; reflexivity]].
  intros t. unfold sql_bookmark_tags. rewrite in_flat_map. split.
  - intros (t' & Ht' & Hin). apply in_map_iff in Hin.
    destruct Hin as (bt & <- & Hbt). apply filter_In in Hbt.
    destruct Hbt as (Hbt & C). apply andb_true_iff in C. destruct C as (C1 & C2).
    apply opt_eqb_true in C1. apply opt_eqb_true in C2.
    split; [exact Ht'|]. exists bt. auto.
  - intros (Ht & bt & Hbt & C1 & C2). exists t. split; [exact Ht|].
    apply in_map_iff. exists bt. split; [reflexivity|].
    apply filter_In. split; [exact Hbt|].
    apply andb_true_iff. split; now apply opt_eqb_true.
Qed.

Lemma getBookmarkTags_joins_by_association_witness :
  healthy tagged
  /\ NoDup (tag (tables tagged))
  /\ NoDup (association_keys (bookmarkTag (tables tagged)))
  /\ association_keys (bookmarkTag (tables tagged)) = [(1, 1)]
  /\ exists l st',
       getBookmarkTags 1 tagged = (Ok l, st')
       /\ l = [tag_rocq]
       /\ (In tag_rocq l /\ ~ In tag_idle l)
       /\ NoDup l
       /\ tables st' = tables tagged.
Proof.
  assert (H : healthy tagged) by (intros k s; reflexivity).
  assert (Nt : NoDup (tag (tables tagged))).
  { cbn. constructor; [intros [E|[]]; discriminate E|].
    constructor; [intros []|constructor]. }
  assert (Nk : NoDup (association_keys (bookmarkTag (tables tagged))))
    by (cbn; constructor; [intros []|constructor]).
  split; [exact H|]. split; [exact Nt|]. split; [exact Nk|]. split; [reflexivity|].
  destruct (@getBookmarkTags_joins_by_association 1 tagged H)
    as (l & st' & E & M & D & T & _).
  exists l, st'.
  assert (L : l = [tag_rocq]).
  { assert (E' : getBookmarkTags 1 tagged
                 = (Ok [tag_rocq], snd (getBookmarkTags 1 tagged))) by reflexivity.
    rewrite E' in E. now inversion E. }
  split; [exact E|]. split; [exact L|]. split.
  - split.
    + apply M. split; [left; reflexivity|].
      eexists. split; [left; reflexivity|]. split; reflexivity.
    + intros Hin. apply M in Hin. destruct Hin as (_ & bt & Hbt & Kt & Kb).
      destruct Hbt as [<-|[<-|[<-|[]]]]; discriminate.
  - split; [exact (D Nt Nk)|exact T].
Defined.

(** ** The performance observer *)

Lemma firstn_succ_nth (A : Type) (l : list A) (i : nat) (x : A) :
  nth_error l i = Some x -> firstn (S i) l = firstn i l ++ [x].
Proof.
  revert i. induction l as [|a l IH]; intros [|i] H; simpl in *; try discriminate.
  - now inversion H.
  - f_equal. now apply IH.
Qed.

Lemma observer_loop_spec (Duration : Type) (toFixed3 : Duration -> string)
  (fgGreen fgYellow reset : string) (entriesArr : list (PerformanceEntry Duration))
  (i : nat) (info : list string) :
  (i <= List.length entriesArr)%nat ->
  observer_loop toFixed3 fgGreen fgYellow reset entriesArr i info
  = info
    ++ map (info_line toFixed3 fgGreen fgYellow reset)
         (filter (fun entry => String.eqb (entryType entry) "measure")
            (rev (firstn i entriesArr))).
Proof.
  revert info. induction i as [|i IH]; intros info Hi.
  - simpl. now rewrite app_nil_r.
  - cbn [observer_loop].
    destruct (nth_error entriesArr i) as [entry|] eqn:E;
      [|apply nth_error_None in E; lia].
    rewrite (firstn_succ_nth _ _ E), rev_app_distr. cbn [rev app filter].
    rewrite IH by lia.
    destruct (String.eqb (entryType entry) "measure"); [|reflexivity].
    cbn [map]. now rewrite <- app_assoc.
Qed.


(** ** Newest first *)

Lemma StronglySorted_snoc (l : list Bookmark) (r : Bookmark) :
  StronglySorted (fun a b => id a < id b) l ->
  (forall x, In x l -> id x < id r) ->
  StronglySorted (fun a b => id a < id b) (l ++ [r]).
Proof.
  induction 1 as [|a l Hs IH Ha]; intros Hr; simpl.
  - repeat constructor.
  - constructor.
    + apply IH. intros x Hx. apply Hr. now right.
    + apply Forall_app. split; [exact Ha|].
      constructor; [|constructor]. apply Hr. now left.
Qed.

Lemma StronglySorted_update (c : Bookmark -> bool) (f : Bookmark -> Bookmark)
  (l : list Bookmark) :
  (forall r, id (f r) = id r) ->
  StronglySorted (fun a b => id a < id b) l ->
  StronglySorted (fun a b => id a < id b) (map (fun r => if c r then f r else r) l).
Proof.
  intros Hf. assert (G : forall r, id (if c r then f r else r) = id r)
    by (intros r; destruct (c r); [apply Hf|reflexivity]).
  induction 1 as [|a l Hs IH Ha]; simpl; constructor; [exact IH|].
  rewrite Forall_forall in *. intros y Hy. apply in_map_iff in Hy.
  destruct Hy as (x & <- & Hx). rewrite !G. now apply Ha.
Qed.

Lemma StronglySorted_filter_id (p : Bookmark -> bool) (l : list Bookmark) :
  StronglySorted (fun a b => id a < id b) l ->
  StronglySorted (fun a b => id a < id b) (filter p l).
Proof.
  induction 1 as [|a l Hs IH Ha]; simpl; [constructor|].
  destruct (p a); [|exact IH]. constructor; [exact IH|].
  rewrite Forall_forall in *. intros y Hy. apply filter_In in Hy. now apply Ha.
Qed.

Lemma write_step_ascending (now : Z) (db db' : DB) :
  write_step now db db' -> ascending db -> ascending db'.
Proof.
  unfold ascending.
  intros [ |v|v i|v n|b i|i] H; trivial;
    try (apply StronglySorted_update; [reflexivity|exact H]).
  - cbn [sql_insert bookmark]. apply StronglySorted_snoc; [exact H|].
    intros x. apply next_id_fresh.
  - cbn [sql_delete set_bookmark bookmark]. now apply StronglySorted_filter_id.
Qed.

Lemma insert_desc_last (r : Bookmark) (l : list Bookmark) :
  (forall x, In x l -> id r < id x) -> insert_desc r l = l ++ [r].
Proof.
  induction l as [|x l IH]; intros H; simpl; [reflexivity|].
  assert (E : (id x <? id r) = false)
    by (apply Z.ltb_ge; specialize (H x (or_introl eq_refl)); lia).
  rewrite E. f_equal. apply IH. intros y Hy. apply H. now right.
Qed.

Lemma orderByIdDesc_rev (l : list Bookmark) :
  StronglySorted (fun a b => id a < id b) l -> orderByIdDesc l = rev l.
Proof.
  induction 1 as [|a l Hs IH Ha]; simpl; [reflexivity|].
  rewrite IH. apply insert_desc_last.
  intros x Hx. apply in_rev in Hx. rewrite Forall_forall in Ha. now apply Ha.
Qed.

(** X23. Rows are stored by ascending id, and every request to
    [src/unnamed/part_000] keeps them so, whatever the engine does; on such
    tables its listing is the table read backwards: the bookmark created last
    comes first. *)
Theorem PtApi_listing_is_newest_first :
  ascending emptyDB
  /\ (forall env req st,
        ascending (tables st) -> ascending (tables (snd (PtApi.app env req st))))
  /\ (forall now q st,
        healthy st -> ascending (tables st) ->
        fst (PtApi.bookmarks now (GET_ q) st)
        = Ok (Rows (map withoutTags (rev (bookmark (tables st)))))).
Proof.
  split; [constructor|]. split.
  - intros env req st.
    apply write_step_ascending
      with (1 := proj1 one_request_one_write_helper env req st).
  - intros now q st H A. cbn [PtApi.bookmarks].
    unfold PtApi.get_, PtApi.getBookmarks, select_bookmarks_desc.
    run_healthy H. now rewrite orderByIdDesc_rev.
Qed.

Lemma PtApi_listing_is_newest_first_witness :
  healthy two_same_name
  /\ ascending (tables two_same_name)
  /\ fst (PtApi.bookmarks 9 (GET_ None) two_same_name)
     = Ok (Rows (map withoutTags (rev (bookmark (tables two_same_name))))).
Proof.
  assert (H : healthy two_same_name) by (intros k s; reflexivity).
  assert (A : ascending (tables two_same_name)).
  { unfold ascending. cbn.
    repeat (constructor; [|repeat constructor]). constructor. }
  split; [exact H|]. split; [exact A|].
  exact (proj2 (proj2 PtApi_listing_is_newest_first) 9 None two_same_name H A).
Defined.

(** ** The two revisions without a cache, side by side *)

(** X24. On every route but the listing, the second revision of
    [src/src/index.js] does to the engine exactly what [src/unnamed/part_000]
    does, statement for statement and whatever the engine's faults; its
    answers are the same too, except for the upsert, which it answers with an
    empty body where the other reports [created]. *)
Theorem SearchApi_writes_as_PtApi (now : Z) (r : BookmarksRoute) (st : Storage) :
  (forall q, r <> GET_ q) ->
  snd (SearchApi.bookmarks now r st) = snd (PtApi.bookmarks now r st)
  /\ ((forall v, r <> PUT_ v) ->
      SearchApi.bookmarks now r st = PtApi.bookmarks now r st)
  /\ (forall e, fst (SearchApi.bookmarks now r st) = Throw e
                <-> fst (PtApi.bookmarks now r st) = Throw e).
Proof.
  intros Hr. destruct r as [q|v|v|i v|i b|i]; [now elim (Hr q)|..];
    try (split; [reflexivity|split; [reflexivity|tauto]]).
  cbn [SearchApi.bookmarks PtApi.bookmarks]. unfold SearchApi.put_, PtApi.put_.
  open_query.
  destruct (fault st (List.length (trace st)) Begin);
    [split; [reflexivity|split; [intros N; now elim (N v)|tauto]]|].
  cbn [fst snd tables trace fault].
  destruct (fault st _ (SelectBookmarkWhereNameEq (body_name v)));
    cbn [fst snd tables trace fault].
  - split_faults; (split; [reflexivity|split; [intros N; now elim (N v)|tauto]]).
  - destruct (find (eq_name (body_name v)) (bookmark (tables st)));
      split_faults;
      (split; [reflexivity|split; [intros N; now elim (N v)
                                  |intros e'; split; intros E; discriminate E || exact E]]).
Qed.

Lemma SearchApi_writes_as_PtApi_witness :
  (forall q, PUT_ (sample_body "h1") <> GET_ q)
  /\ snd (SearchApi.bookmarks 9 (PUT_ (sample_body "h1")) one_bookmark)
     = snd (PtApi.bookmarks 9 (PUT_ (sample_body "h1")) one_bookmark).
Proof.
  assert (H : forall q, PUT_ (sample_body "h1") <> GET_ q) by (intros q; discriminate).
  split; [exact H|].
  exact (proj1 (@SearchApi_writes_as_PtApi 9 (PUT_ (sample_body "h1")) one_bookmark H)).
Defined.
